(** * app-spacy-dbpedia: a shallow embedding of [app.py]

    The application wraps a spaCy pipeline (with the DBpedia-spotlight
    stage) and maps its output into the annotations of an MMIF view. The
    parts of [app.py] that are the application's own are modelled here:

    - [Identifiers] (the class-level counter table),
    - [add_annotation], [_new_view], [_read_text], [text_documents],
    - [SpacyApp._add_tool_output] with its nested [find_dbpedia_type],
    - [SpacyApp._annotate].

    The spaCy models ([nlp], [ner]), [urllib.request.urlopen] and the
    built-in [str.lower]/[str.upper] are outside the repository; they are
    the fields of the class [Pipeline] and every theorem holds for every
    instance of it.

    Python [int] is [Z] (the counters of [Identifiers], which only grow
    from zero, are [N]), [str] is [string], a [dict] that is only looked up
    is a [gmap], a [dict] that is iterated is an insertion-ordered
    association list, and an exception is a value of [Exn]. A view is the
    position of the [View] in [self.mmif.views], so that what is written
    through one reference is seen through every other.

    Of the [mmif] library the app uses [View.new_annotation], which
    refuses an identifier the view already has ([KeyError]) and declares
    the type of the annotation in the metadata of the view, and
    [Mmif.new_view], which appends an empty view. *)

From Stdlib Require Import ZArith Ascii String.
From stdpp Require Import base numbers option list gmap strings pretty.

Local Open Scope Z_scope.

(** ** Python exceptions and the two monads *)

Inductive Exn :=
  | URLError | UnicodeDecodeError
  | KeyError | IndexError | TypeError | AttributeError.

Global Instance Exn_eq_dec : EqDecision Exn.
Proof. solve_decision. Defined.

(** A pure computation that may raise. *)
Definition Res (A : Type) : Type := Exn + A.

Global Instance Res_ret : MRet Res := fun _ a => inr a.
Global Instance Res_bind : MBind Res := fun _ _ f m =>
  match m with inl e => inl e | inr a => f a end.

(** [d[k]] on a Python mapping: [KeyError] when the key is absent. *)
Definition getitem {A} (o : option A) : Res A :=
  match o with Some a => inr a | None => inl KeyError end.

(** ** Python strings and lists *)

Definition len (s : string) : Z := Z.of_nat (String.length s).

(** The bound of a slice: a negative index counts from the end, and both
    ends are clamped to [0, len]. *)
Definition slice_bound (n i : Z) : Z :=
  if decide (i < 0) then Z.max 0 (i + n) else Z.min i n.

(** [s[p1:p2]] *)
Definition py_slice (s : string) (p1 p2 : Z) : string :=
  let a := slice_bound (len s) p1 in
  let b := slice_bound (len s) p2 in
  String.substring (Z.to_nat a) (Z.to_nat (b - a)) s.

(** [sub in s] on strings *)
Fixpoint str_contains (sub s : string) : bool :=
  String.prefix sub s ||
  match s with
  | EmptyString => false
  | String _ s' => str_contains sub s'
  end.

(** [s.endswith(suffix)] *)
Definition endswith (s suffix : string) : bool :=
  bool_decide (py_slice s (len s - len suffix) (len s) = suffix
               ∧ len suffix <= len s).

(** [list(s)]: the one-character strings of [s]. *)
Fixpoint py_list (s : string) : list string :=
  match s with
  | EmptyString => []
  | String c s' => String c EmptyString :: py_list s'
  end.

(** ["".join(l)] *)
Definition py_join (l : list string) : string :=
  foldr String.append EmptyString l.

(** The position a list index denotes: negative indices count from the end;
    [None] is Python's [IndexError]. *)
Definition py_index (n : nat) (i : Z) : option nat :=
  if decide (0 <= i < Z.of_nat n) then Some (Z.to_nat i)
  else if decide (- Z.of_nat n <= i < 0) then Some (Z.to_nat (i + Z.of_nat n))
  else None.

Definition list_getitem {A} (l : list A) (i : Z) : Res A :=
  match py_index (length l) i with
  | Some k => match l !! k with Some a => inr a | None => inl IndexError end
  | None => inl IndexError
  end.

Definition list_setitem {A} (l : list A) (i : Z) (a : A) : Res (list A) :=
  match py_index (length l) i with
  | Some k => inr (<[k := a]> l)
  | None => inl IndexError
  end.

(** [enumerate(l)] *)
Definition enumerate {A} (l : list A) : list (Z * A) :=
  imap (fun n a => (Z.of_nat n, a)) l.

(** ** Insertion-ordered dictionaries

    [entity_dict] and the property dictionaries are iterated, so their
    order is part of the behaviour: a new key goes to the end, an existing
    key keeps its place and takes the new value. *)

Section dict.
Context {K V : Type} `{EqDecision K}.

Fixpoint dict_set (k : K) (v : V) (d : list (K * V)) : list (K * V) :=
  match d with
  | [] => [(k, v)]
  | (k', v') :: d' =>
      if decide (k = k') then (k, v) :: d' else (k', v') :: dict_set k v d'
  end.

Fixpoint dict_get (k : K) (d : list (K * V)) : option V :=
  match d with
  | [] => None
  | (k', v') :: d' => if decide (k = k') then Some v' else dict_get k d'
  end.

Definition dict_keys (d : list (K * V)) : list K := d.*1.

(** [{**d1, **d2}] *)
Definition dict_merge (d1 d2 : list (K * V)) : list (K * V) :=
  foldl (fun d kv => dict_set kv.1 kv.2 d) d1 d2.
End dict.

(** ** The data of the exchange format *)

Inductive value := VStr (s : string) | VInt (z : Z).

Global Instance value_eq_dec : EqDecision value.
Proof. solve_decision. Defined.

(** A property dictionary. *)
Abbreviation props := (list (string * value)).

(** The annotation types of [lapps.discriminators.Uri] the app uses. *)
Inductive Uri :=
  | TOKEN | POS | LEMMA | NCHUNK | SENTENCE | NE | DEPENDENCY
  | GENERIC_RELATION.

Global Instance Uri_eq_dec : EqDecision Uri.
Proof. solve_decision. Defined.

Record Annotation := mkAnnotation {
  at_type : Uri;
  ann_id : string;
  properties : props
}.

Record Document := mkDocument {
  doc_id_of : string;
  doc_at_type : string;
  location : option string;
  text_value : string
}.

Record View := mkView {
  view_id : string;
  contains : list (Uri * option string);
  annotations : list Annotation;
  view_documents : list Document
}.

Record Mmif := mkMmif {
  documents : list Document;
  views : list View
}.

(** ** What the app reads of a spaCy document *)

(** A token; [head_opt] is [None] for the root of a parse, whose head is
    the token itself. *)
Local Unset Elimination Schemes.
Inductive Token := mkToken {
  i : Z;
  idx : Z;
  text : string;
  tag_ : string;
  lemma_ : string;
  dep_ : string;
  ent_type_ : string;
  head_opt : option Token
}.
Local Set Elimination Schemes.

Definition head (tok : Token) : Token := default tok (head_opt tok).

(** A value of the raw DBpedia-spotlight record of an entity. *)
Inductive field :=
  | FStr (s : string) | FNum (z : Z) | FNull | FList (l : list string).

Record Span := mkSpan {
  start : Z;
  end_ : Z;
  root : Token;
  kb_id_ : string;
  dbpedia_raw_result : option (gmap string field)
}.

Record Doc := mkDoc {
  tokens : list Token;
  noun_chunks : list Span;
  sents : list Span;
  ents : list Span
}.

(** What lies outside the repository. [urlopen l] is the outcome of
    [urllib.request.urlopen(l).read().decode('utf8')]; [ner] is the global
    of that name, [None] unless the app was started with [--uncased]. *)
Class Pipeline := {
  nlp : string -> Doc;
  ner : option (string -> Doc);
  urlopen : string -> Res string;
  str_lower : string -> string;
  str_upper : string -> string;
  (* the identifier [Mmif.new_view] gives a view added to these views *)
  new_view_id : list View -> string
}.

(** ** The state and the monad of the stateful code *)

(** [Identifiers.identifiers] (a [defaultdict(int)]) and [self.mmif]. *)
Record State := mkState {
  identifiers : gmap string N;
  mmif : Mmif
}.

Definition M (A : Type) : Type := State -> State * Res A.

Global Instance M_ret : MRet M := fun _ a s => (s, inr a).
Global Instance M_bind : MBind M := fun _ _ f m s =>
  match m s with
  | (s', inl e) => (s', inl e)
  | (s', inr a) => f a s'
  end.

(** A pure computation inside the stateful code: its exception propagates. *)
Definition lift {A} (r : Res A) : M A := fun s => (s, r).

(** [for x in xs: acc = body(acc, x)] *)
Fixpoint for_fold `{MBind F, MRet F} {A B}
    (xs : list A) (acc : B) (body : B -> A -> F B) : F B :=
  match xs with
  | [] => mret acc
  | x :: xs' => acc' ← body acc x; for_fold xs' acc' body
  end.

(** [for x in xs: body(x)] *)
Definition for_ `{MBind F, MRet F} {A} (xs : list A) (body : A -> F unit)
    : F unit :=
  for_fold xs tt (fun _ x => body x).

(** ** class Identifiers *)

Module Identifiers.
(** [cls.identifiers[prefix] += 1; return "%s%d" % (prefix, ...)] *)
Definition new (prefix : string) : M string := fun s =>
  let n := (default 0 (identifiers s !! prefix) + 1)%N in
  (mkState (<[prefix := n]> (identifiers s)) (mmif s),
   inr (prefix +:+ pretty n)).

(** [cls.identifiers = collections.defaultdict(int)] *)
Definition reset : M unit := fun s =>
  (mkState ∅ (mmif s), inr tt).
End Identifiers.

(** ** add_annotation, text_documents *)

Definition add_property (prop : string) (val : value) (a : Annotation)
    : Annotation :=
  mkAnnotation (at_type a) (ann_id a) (dict_set prop val (properties a)).

Definition add_optional (prop : string) (val : option value) (a : Annotation)
    : Annotation :=
  match val with Some v => add_property prop v a | None => a end.

(** The annotation [add_annotation] leaves in the view. *)
Definition new_annotation (attype : Uri) (identifier : string)
    (doc_id : option string) (start_ end' : option Z) (properties : props)
    : Annotation :=
  let a := mkAnnotation attype identifier [] in
  let a := add_optional "document" (VStr <$> doc_id) a in
  let a := add_optional "start" (VInt <$> start_) a in
  let a := add_optional "end" (VInt <$> end') a in
  foldl (fun a pv => add_property pv.1 pv.2 a) a properties.

(** [view.new_contain(attype, document=docid)]: the metadata of the view
    gets an entry for a type it does not declare yet. *)
Definition new_contain (attype : Uri) (docid : option string) (v : View)
    : View :=
  if bool_decide (attype ∈ (contains v).*1) then v
  else mkView (view_id v) (contains v ++ [(attype, docid)]) (annotations v)
         (view_documents v).

(** [View.add_annotation]: the annotation goes to the end of the list, and
    its type is declared. *)
Definition view_add (a : Annotation) (v : View) : View :=
  new_contain (at_type a) None
    (mkView (view_id v) (contains v) (annotations v ++ [a]) (view_documents v)).

(** The annotations of a view. A view is a reference into
    [self.mmif.views]: its position there. *)
Definition view_annotations (s : State) (view : nat) : list Annotation :=
  default [] (annotations <$> views (mmif s) !! view).

(** [view.new_annotation(attype, identifier)] raises [KeyError] when the
    view has an annotation of that identifier, before anything is
    written; the properties are set on the annotation once it is in the
    view. *)
Definition add_annotation (view : nat) (attype : Uri) (identifier : string)
    (doc_id : option string) (start_ end' : option Z) (properties : props)
    : M unit := fun s =>
  if bool_decide (identifier ∈ ann_id <$> view_annotations s view)
  then (s, inl KeyError)
  else
    let a := new_annotation attype identifier doc_id start_ end' properties in
    (mkState (identifiers s)
       (mkMmif (documents (mmif s)) (alter (view_add a) view (views (mmif s)))),
     inr tt).

(** [os.path.basename(str(DocumentTypes.TextDocument))] *)
Definition TEXT_DOCUMENT : string := "TextDocument".

Definition text_documents (documents : list Document) : list Document :=
  filter (fun doc => endswith (doc_at_type doc) TEXT_DOCUMENT = true) documents.

(** ** SpacyApp *)

Section SpacyApp.
Context `{Pipeline}.

Definition get_views : M (list View) := fun s => (s, inr (views (mmif s))).
Definition get_mmif : M Mmif := fun s => (s, inr (mmif s)).
Definition set_mmif (m : Mmif) : M unit := fun s =>
  (mkState (identifiers s) m, inr tt).

Definition output_types : list Uri :=
  [TOKEN; POS; LEMMA; NCHUNK; SENTENCE; NE; DEPENDENCY; GENERIC_RELATION].

(** [self.mmif.new_view()] appends the view; [new_contain] records each
    output type. The result is the reference to the new view. *)
Definition _new_view (docid : option string) : M nat := fun s =>
  let vs := views (mmif s) in
  let view :=
    mkView (new_view_id vs) ((fun t => (t, docid)) <$> output_types) [] [] in
  (mkState (identifiers s) (mkMmif (documents (mmif s)) (vs ++ [view])),
   inr (length vs)).

(** [if textdoc.location:] *)
Definition truthy (o : option string) : bool :=
  match o with
  | Some s => bool_decide (s <> EmptyString)
  | None => false
  end.

(** [DEBUG] is [False]: nothing is printed. *)
Definition _read_text (textdoc : Document) : M string :=
  if truthy (location textdoc)
  then lift (urlopen (default EmptyString (location textdoc)))
  else mret (text_value textdoc).

(** The pre-pass of the uncased model (the body of [if(ner != None)]). *)
Definition truecase (ner_model : string -> Doc) (input_text : string)
    : Res string :=
  let input_text_list := py_list (str_lower input_text) in
  let spacy_doc_ner := ner_model (str_lower input_text) in
  input_text_list ←
    for_fold (enumerate (tokens spacy_doc_ner)) input_text_list
      (fun input_text_list ntok =>
         let tok := ntok.2 in
         if decide (ent_type_ tok <> EmptyString) then
           let start := idx tok in
           c ← list_getitem input_text_list start;
           list_setitem input_text_list start (str_upper c)
         else mret input_text_list);
  mret (py_join input_text_list).

Definition case_or_not (text : string) : string :=
  match ner with Some _ => str_lower text | None => text end.

(** *** find_dbpedia_type *)

Definition prefix : string := "DBpedia:".
Definition interested_types : list string :=
  ["Person"; "Place"; "Organisation"; "Device"].

(** [ent._.dbpedia_raw_result['@types']] *)
Definition raw_types (ent : Span) : Res field :=
  match dbpedia_raw_result ent with
  | None => inl TypeError
  | Some d => getitem (d !! "@types")
  end.

(** [.split(',')]: only a string has the method; the list it returns is
    never used. *)
Definition split_check (f : field) : Res unit :=
  match f with FStr _ => inr tt | _ => inl AttributeError end.

(** [x in f] *)
Definition py_in (x : string) (f : field) : Res bool :=
  match f with
  | FStr s => inr (str_contains x s)
  | FList l => inr (bool_decide (x ∈ l))
  | _ => inl TypeError
  end.

(** The body of the [try]. *)
Definition find_dbpedia_type_try (ent : Span) : Res (option string) :=
  types ← raw_types ent;
  split_check types;;
  for_fold interested_types None (fun found category =>
    match found with
    | Some c => mret (Some c)
    | None =>
        types ← raw_types ent;
        b ← py_in (prefix +:+ category) types;
        mret (if b : bool then Some category else None)
    end).

(** [try: ... except: return None] *)
Definition find_dbpedia_type (ent : Span) : option string :=
  match find_dbpedia_type_try ent with
  | inl _ => None
  | inr category => category
  end.

(** *** _add_tool_output

    The bodies of its six loops come first, in the order of the source;
    [view] is the view written to, [text_orig] the text read from the
    document, [tok_idx] the table of character offsets. *)

Section loops.
Context (view : nat) (doc_id : option string) (text_orig : string).

(** [for (n, tok) in enumerate(spacy_doc)] *)
Definition token_body (tok_idx : gmap Z (Z * Z)) (ntok : Z * Token)
    : M (gmap Z (Z * Z)) :=
  let n := ntok.1 in
  let tok := ntok.2 in
  let p1 := idx tok in
  let p2 := p1 + len (text tok) in
  let tok_idx := <[n := (p1, p2)]> tok_idx in
  identifier ← Identifiers.new "t";
  add_annotation view TOKEN identifier doc_id (Some p1) (Some p2)
    [("pos", VStr (tag_ tok)); ("lemma", VStr (lemma_ tok));
     ("text", VStr (py_slice text_orig p1 p2)); ("i", VInt (i tok))];;
  mret tok_idx.

(** [p1 = tok_idx[span.start][0]; p2 = tok_idx[span.end - 1][1]] *)
Definition span_offsets (tok_idx : gmap Z (Z * Z)) (span : Span)
    : Res (Z * Z) :=
  first ← getitem (tok_idx !! start span);
  last ← getitem (tok_idx !! (end_ span - 1));
  mret (first.1, last.2).

(** [for (n, chunk) in enumerate(spacy_doc.noun_chunks)] and
    [for (n, sent) in enumerate(spacy_doc.sents)] *)
Definition span_body (tok_idx : gmap Z (Z * Z)) (attype : Uri)
    (id_prefix : string) (span : Span) : M unit :=
  p ← lift (span_offsets tok_idx span);
  identifier ← Identifiers.new id_prefix;
  add_annotation view attype identifier doc_id (Some p.1) (Some p.2)
    [("text", VStr (py_slice text_orig p.1 p.2))].

Definition entity_properties (p1 p2 : Z) (category : string) (ent : Span)
    : props :=
  let p1_root := idx (root ent) in
  let p2_root := p1_root + len (text (root ent)) in
  [("text", VStr (py_slice text_orig p1 p2));
   ("category", VStr category);
   ("root_i", VInt (i (root ent)));
   ("root_text", VStr (py_slice text_orig p1_root p2_root));
   ("kb_id", VStr (kb_id_ ent))].

(** [for (n, ent) in enumerate(spacy_doc.ents)] *)
Definition entity_body (tok_idx : gmap Z (Z * Z))
    (entity_dict : list (Z * props)) (ent : Span)
    : M (list (Z * props)) :=
  match find_dbpedia_type ent with
  | Some category =>
      p ← lift (span_offsets tok_idx ent);
      let properties := entity_properties p.1 p.2 category ent in
      let entity_dict := dict_set (i (root ent)) properties entity_dict in
      identifier ← Identifiers.new "ne";
      add_annotation view NE identifier doc_id (Some p.1) (Some p.2)
        properties;;
      mret entity_dict
  | None => mret entity_dict
  end.

Definition properties_dependent (tok : Token) : props :=
  let p1_dep := idx tok in
  let p2_dep := p1_dep + len (text tok) in
  [("dependent_text", VStr (py_slice text_orig p1_dep p2_dep));
   ("dependent_lemma", VStr (lemma_ tok));
   ("dependent_i", VInt (i tok))].

Definition properties_governer (tok : Token) : props :=
  let p1_gov := idx (head tok) in
  let p2_gov := p1_gov + len (text (head tok)) in
  [("dep", VStr (dep_ tok));
   ("governer_text", VStr (py_slice text_orig p1_gov p2_gov));
   ("governer_lemma", VStr (lemma_ (head tok)));
   ("governer_i", VInt (i (head tok)))].

(** [for (n, tok) in enumerate(spacy_doc)], second time *)
Definition dependency_body (entity_dict : list (Z * props))
    (governer_dict : gmap Z props) (ntok : Z * Token)
    : M (gmap Z props) :=
  let tok := ntok.2 in
  let properties :=
    dict_merge (properties_dependent tok) (properties_governer tok) in
  let governer_dict :=
    if bool_decide (i tok ∈ dict_keys entity_dict)
    then <[i tok := properties_governer tok]> governer_dict
    else governer_dict in
  identifier ← Identifiers.new "dep";
  add_annotation view DEPENDENCY identifier doc_id None None properties;;
  mret governer_dict.

(** [d[k1][k2]] on the two registries *)
Definition entity_attr (entity_dict : list (Z * props)) (k : Z)
    (a : string) : Res value :=
  e ← getitem (dict_get k entity_dict); getitem (dict_get a e).

Definition governer_attr (governer_dict : gmap Z props) (k : Z)
    (a : string) : Res value :=
  g ← getitem (governer_dict !! k); getitem (dict_get a g).

(** The condition of the [if]; [and] does not evaluate its right side
    when the left is false. *)
Definition relation_test (governer_dict : gmap Z props) (i1 i2 : Z)
    : Res bool :=
  if bool_decide (i1 < i2) then
    g1 ← governer_attr governer_dict i1 "governer_i";
    g2 ← governer_attr governer_dict i2 "governer_i";
    mret (bool_decide (g1 = g2))
  else mret false.

Definition relation_properties (entity_dict : list (Z * props))
    (governer_dict : gmap Z props) (i1 i2 : Z) : Res props :=
  rel_text ← governer_attr governer_dict i1 "governer_text";
  rel_lemma ← governer_attr governer_dict i1 "governer_lemma";
  rel_i ← governer_attr governer_dict i1 "governer_i";
  e1_text ← entity_attr entity_dict i1 "text";
  e1_root_i ← entity_attr entity_dict i1 "root_i";
  e1_kb_id ← entity_attr entity_dict i1 "kb_id";
  e1_dep ← governer_attr governer_dict i1 "dep";
  e2_text ← entity_attr entity_dict i2 "text";
  e2_root_i ← entity_attr entity_dict i2 "root_i";
  e2_kb_id ← entity_attr entity_dict i2 "kb_id";
  e2_dep ← governer_attr governer_dict i2 "dep";
  mret [("rel_text", rel_text); ("rel_lemma", rel_lemma);
        ("rel_i", rel_i);
        ("e1_text", e1_text); ("e1_root_i", e1_root_i);
        ("e1_kb_id", e1_kb_id); ("e1_dep", e1_dep);
        ("e2_text", e2_text); ("e2_root_i", e2_root_i);
        ("e2_kb_id", e2_kb_id); ("e2_dep", e2_dep)].

(** The body of [for i2 in entity_dict], inside [for i1 in entity_dict] *)
Definition relation_body (entity_dict : list (Z * props))
    (governer_dict : gmap Z props) (i1 i2 : Z) : M unit :=
  related ← lift (relation_test governer_dict i1 i2);
  if related : bool then
    properties ← lift (relation_properties entity_dict governer_dict i1 i2);
    identifier ← Identifiers.new "rel";
    add_annotation view GENERIC_RELATION identifier doc_id None None
      properties
  else mret tt.

Definition relation_loop (entity_dict : list (Z * props))
    (governer_dict : gmap Z props) : M unit :=
  for_ (dict_keys entity_dict) (fun i1 =>
    for_ (dict_keys entity_dict) (fun i2 =>
      relation_body entity_dict governer_dict i1 i2)).

(** Everything after [spacy_doc = nlp(input_text)]. *)
Definition annotate_doc (spacy_doc : Doc) : M unit :=
  tok_idx ← for_fold (enumerate (tokens spacy_doc)) ∅ token_body;
  for_ (noun_chunks spacy_doc) (span_body tok_idx NCHUNK "nc");;
  for_ (sents spacy_doc) (span_body tok_idx SENTENCE "s");;
  entity_dict ← for_fold (ents spacy_doc) [] (entity_body tok_idx);
  governer_dict ←
    for_fold (enumerate (tokens spacy_doc)) ∅ (dependency_body entity_dict);
  relation_loop entity_dict governer_dict.
End loops.

(** The text given to [nlp]. *)
Definition input_text_of (text_orig : string) : Res string :=
  match ner with
  | Some ner_model => truecase ner_model text_orig
  | None => mret text_orig
  end.

Definition _add_tool_output (doc : Document) (view : nat)
    (doc_id : option string) : M unit :=
  text_orig ← _read_text doc;
  input_text ← lift (input_text_of text_orig);
  let spacy_doc := nlp input_text in
  annotate_doc view doc_id text_orig spacy_doc.

(** *** _annotate

    [self.mmif.get_documents_in_view(view.id)] is [view_documents view];
    the input is taken as an [Mmif] already. *)

Definition _annotate (mmif : Mmif) : M Mmif :=
  Identifiers.reset;;
  set_mmif mmif;;
  for_ (text_documents (documents mmif)) (fun doc =>
    new_view ← _new_view (Some (doc_id_of doc));
    _add_tool_output doc new_view None);;
  vs ← get_views;
  for_ vs (fun view =>
    let docs := view_documents view in
    if bool_decide (docs <> []) then
      new_view ← _new_view None;
      for_ docs (fun doc =>
        let doc_id := view_id view +:+ ":" +:+ doc_id_of doc in
        _add_tool_output doc new_view (Some doc_id))
    else mret tt);;
  get_mmif.
End SpacyApp.

(** ** The requests for annotations

    [_add_tool_output] never looks at an identifier it mints: each
    [add_annotation(view, type, Identifiers.new(prefix), ...)] is a request
    whose content is independent of the state. The same loops are written
    once more over the list of requests; [traced] relates the two: the
    stateful code performs the requests one after the other, stops at the
    first that the view refuses, and otherwise ends as the loops over the
    requests do. *)

Record Req := mkReq {
  rq_type : Uri;
  rq_prefix : string;
  rq_start : option Z;
  rq_end : option Z;
  rq_props : props
}.

Definition T (A : Type) : Type := list Req * Res A.

Global Instance T_ret : MRet T := fun _ a => ([], inr a).
Global Instance T_bind : MBind T := fun _ _ f m =>
  match m with
  | (rqs, inl e) => (rqs, inl e)
  | (rqs, inr a) => let t := f a in (rqs ++ t.1, t.2)
  end.

Definition emit (rq : Req) : T unit := ([rq], inr tt).
Definition liftT {A} (r : Res A) : T A := ([], r).

(** What one request does to the state. *)
Definition perform (view : nat) (doc_id : option string) (rq : Req) : M unit :=
  identifier ← Identifiers.new (rq_prefix rq);
  add_annotation view (rq_type rq) identifier doc_id
    (rq_start rq) (rq_end rq) (rq_props rq).

Definition run_all (view : nat) (doc_id : option string) (rqs : list Req)
    : M unit :=
  for_ rqs (perform view doc_id).

Definition traced {A} (view : nat) (doc_id : option string)
    (m : M A) (t : T A) : Prop :=
  forall s, m s = (run_all view doc_id t.1;; lift t.2) s.

(** The state after a request that the view accepts, and after a list of
    them. *)
Definition put (view : nat) (doc_id : option string) (rq : Req) (s : State)
    : State :=
  let n := (default 0 (identifiers s !! rq_prefix rq) + 1)%N in
  let a := new_annotation (rq_type rq) (rq_prefix rq +:+ pretty n) doc_id
             (rq_start rq) (rq_end rq) (rq_props rq) in
  mkState (<[rq_prefix rq := n]> (identifiers s))
    (mkMmif (documents (mmif s)) (alter (view_add a) view (views (mmif s)))).

Definition perform_all (view : nat) (doc_id : option string)
    (rqs : list Req) (s : State) : State :=
  foldl (fun s rq => put view doc_id rq s) s rqs.

(** The annotations a computation adds to a view. *)
Definition added {A} (m : M A) (s : State) (view : nat) : list Annotation :=
  drop (length (view_annotations s view)) (view_annotations (m s).1 view).

(** The annotations a list of requests becomes, from a counter table on. *)
Fixpoint stamp (doc_id : option string) (ids : gmap string N)
    (rqs : list Req) : list Annotation :=
  match rqs with
  | [] => []
  | rq :: rqs' =>
      let n := (default 0 (ids !! rq_prefix rq) + 1)%N in
      new_annotation (rq_type rq) (rq_prefix rq +:+ pretty n) doc_id
        (rq_start rq) (rq_end rq) (rq_props rq)
      :: stamp doc_id (<[rq_prefix rq := n]> ids) rqs'
  end.

Section SpacyAppTrace.
Context `{Pipeline}.
Context (view : nat) (doc_id : option string) (text_orig : string).

Definition token_req (tok : Token) : Req :=
  let p1 := idx tok in
  let p2 := p1 + len (text tok) in
  mkReq TOKEN "t" (Some p1) (Some p2)
    [("pos", VStr (tag_ tok)); ("lemma", VStr (lemma_ tok));
     ("text", VStr (py_slice text_orig p1 p2)); ("i", VInt (i tok))].

Definition token_body_T (tok_idx : gmap Z (Z * Z)) (ntok : Z * Token)
    : T (gmap Z (Z * Z)) :=
  let tok := ntok.2 in
  emit (token_req tok);;
  mret (<[ntok.1 := (idx tok, idx tok + len (text tok))]> tok_idx).

Definition span_req (attype : Uri) (id_prefix : string) (p : Z * Z) : Req :=
  mkReq attype id_prefix (Some p.1) (Some p.2)
    [("text", VStr (py_slice text_orig p.1 p.2))].

Definition span_body_T (tok_idx : gmap Z (Z * Z)) (attype : Uri)
    (id_prefix : string) (span : Span) : T unit :=
  p ← liftT (span_offsets tok_idx span);
  emit (span_req attype id_prefix p).

Definition entity_req (p : Z * Z) (category : string) (ent : Span) : Req :=
  mkReq NE "ne" (Some p.1) (Some p.2)
    (entity_properties text_orig p.1 p.2 category ent).

Definition entity_body_T (tok_idx : gmap Z (Z * Z))
    (entity_dict : list (Z * props)) (ent : Span) : T (list (Z * props)) :=
  match find_dbpedia_type ent with
  | Some category =>
      p ← liftT (span_offsets tok_idx ent);
      emit (entity_req p category ent);;
      mret (dict_set (i (root ent))
              (entity_properties text_orig p.1 p.2 category ent) entity_dict)
  | None => mret entity_dict
  end.

Definition dependency_req (tok : Token) : Req :=
  mkReq DEPENDENCY "dep" None None
    (dict_merge (properties_dependent text_orig tok)
                (properties_governer text_orig tok)).

Definition dependency_body_T (entity_dict : list (Z * props))
    (governer_dict : gmap Z props) (ntok : Z * Token) : T (gmap Z props) :=
  let tok := ntok.2 in
  emit (dependency_req tok);;
  mret (if bool_decide (i tok ∈ dict_keys entity_dict)
        then <[i tok := properties_governer text_orig tok]> governer_dict
        else governer_dict).

Definition relation_req (properties : props) : Req :=
  mkReq GENERIC_RELATION "rel" None None properties.

Definition relation_body_T (entity_dict : list (Z * props))
    (governer_dict : gmap Z props) (i1 i2 : Z) : T unit :=
  related ← liftT (relation_test governer_dict i1 i2);
  if related : bool then
    properties ← liftT (relation_properties entity_dict governer_dict i1 i2);
    emit (relation_req properties)
  else mret tt.

Definition relation_loop_T (entity_dict : list (Z * props))
    (governer_dict : gmap Z props) : T unit :=
  for_ (dict_keys entity_dict) (fun i1 =>
    for_ (dict_keys entity_dict) (fun i2 =>
      relation_body_T entity_dict governer_dict i1 i2)).

Definition annotate_doc_T (spacy_doc : Doc) : T unit :=
  tok_idx ← for_fold (enumerate (tokens spacy_doc)) ∅ token_body_T;
  for_ (noun_chunks spacy_doc) (span_body_T tok_idx NCHUNK "nc");;
  for_ (sents spacy_doc) (span_body_T tok_idx SENTENCE "s");;
  entity_dict ← for_fold (ents spacy_doc) [] (entity_body_T tok_idx);
  governer_dict ←
    for_fold (enumerate (tokens spacy_doc)) ∅ (dependency_body_T entity_dict);
  relation_loop_T entity_dict governer_dict.

End SpacyAppTrace.

(** The view with more annotations, and the counter table after a list of
    requests. *)
Definition view_extend (anns : list Annotation) (v : View) : View :=
  foldl (fun v a => view_add a v) v anns.

Definition ids_after (ids : gmap string N) (rqs : list Req) : gmap string N :=
  foldl (fun ids rq =>
           <[rq_prefix rq := (default 0 (ids !! rq_prefix rq) + 1)%N]> ids)
    ids rqs.

(** ** Notions the properties are stated with *)

(** The identifier prefixes [_add_tool_output] uses. *)
Definition app_prefixes : list string := ["t"; "nc"; "s"; "ne"; "dep"; "rel"].

Definition is_digit (c : ascii) : bool :=
  bool_decide (is_Some (Ascii.is_nat c)).

Fixpoint all_digits (s : string) : bool :=
  match s with
  | EmptyString => true
  | String c s' => is_digit c && all_digits s'
  end.

(** The last character of the string is a decimal digit. *)
Fixpoint ends_in_digit (s : string) : bool :=
  match s with
  | EmptyString => false
  | String c EmptyString => is_digit c
  | String _ s' => ends_in_digit s'
  end.

(** The identifiers of the annotations in the views after the first [k]:
    the batch of a call of [_annotate] on a document that had [k] views. *)
Definition ids_of (v : View) : list string := ann_id <$> annotations v.

Definition batch_ids (k : nat) (s : State) : list string :=
  drop k (views (mmif s)) ≫= ids_of.

Definition counter (s : State) (p : string) : N :=
  default 0%N (identifiers s !! p).

(** The entry of the offset table for a token. *)
Definition tok_span (t : Token) : Z * Z := (idx t, idx t + len (text t)).

(** The offset table the first loop builds. *)
Definition tok_idx_of (toks : list Token) : gmap Z (Z * Z) :=
  foldl (fun m nt => <[nt.1 := (idx nt.2, idx nt.2 + len (text nt.2))]> m)
    ∅ (enumerate toks).

Definition int_attr (a : string) (ps : props) : option Z :=
  match dict_get a ps with Some (VInt z) => Some z | _ => None end.

(** The character span an annotation reports. *)
Definition char_span (a : Annotation) : option (Z * Z) :=
  match int_attr "start" (properties a), int_attr "end" (properties a) with
  | Some p1, Some p2 => Some (p1, p2)
  | _, _ => None
  end.

(** The governor registry the second loop over the tokens builds. *)
Definition governer_dict_of (text_orig : string) (entity_dict : list (Z * props))
    (toks : list Token) : gmap Z props :=
  foldl (fun gd nt =>
           if bool_decide (i nt.2 ∈ dict_keys entity_dict)
           then <[i nt.2 := properties_governer text_orig nt.2]> gd
           else gd)
    ∅ (enumerate toks).

(** An entry of the entity registry: the properties of an entity of the
    document that has a category, under the index of its root. *)
Definition entity_entry (text_orig : string) (d : Doc) (kp : Z * props) : Prop :=
  exists e p c,
    e ∈ ents d ∧ find_dbpedia_type e = Some c
    ∧ kp = (i (root e), entity_properties text_orig p.1 p.2 c e).

(** No identifier of the view is ahead of the counters: an identifier of
    the view that is one of the app's prefixes followed by a number has a
    number that the counter of the prefix has reached. A view without
    annotations is such a view, and a view stays one under every request;
    on such a view no request is refused. *)
Definition ids_fresh (view : nat) (s : State) : Prop :=
  forall p (n : N), p ∈ app_prefixes ->
    p +:+ pretty n ∈ (ann_id <$> view_annotations s view) ->
    (n <= counter s p)%N.

(** The state after a request that the view has refused: the counter of
    the prefix has moved, nothing else. *)
Definition bump (p : string) (s : State) : State :=
  mkState (<[p := (default 0 (identifiers s !! p) + 1)%N]> (identifiers s))
    (mmif s).

(** The annotations in the views after the first [k]. *)
Definition batch_anns (k : nat) (s : State) : list Annotation :=
  drop k (views (mmif s)) ≫= annotations.

(** The documents a call of [_annotate] goes through, in its order: the
    text documents of the input, then the documents of its views. *)
Definition processed (m : Mmif) : list Document :=
  text_documents (documents m) ++ (views m ≫= view_documents).

(** The properties of a relation between the entities [e1] and [e2], whose
    roots are the tokens [t1] and [t2] of the document. *)
Definition relation_record (text_orig : string) (t1 t2 : Token)
    (e1 e2 : Span) (p1 p2 : Z * Z) : props :=
  [("rel_text",
     VStr (py_slice text_orig (idx (head t1))
             (idx (head t1) + len (text (head t1)))));
   ("rel_lemma", VStr (lemma_ (head t1)));
   ("rel_i", VInt (i (head t1)));
   ("e1_text", VStr (py_slice text_orig p1.1 p1.2));
   ("e1_root_i", VInt (i (root e1)));
   ("e1_kb_id", VStr (kb_id_ e1));
   ("e1_dep", VStr (dep_ t1));
   ("e2_text", VStr (py_slice text_orig p2.1 p2.2));
   ("e2_root_i", VInt (i (root e2)));
   ("e2_kb_id", VStr (kb_id_ e2));
   ("e2_dep", VStr (dep_ t2))].

(** An entity has a category. *)
Definition categorized (e : Span) : Prop := is_Some (find_dbpedia_type e).

Global Instance categorized_dec e : Decision (categorized e).
Proof. unfold categorized. apply _. Defined.

(** The token of index [k] and the entity with a category whose root has
    index [k]: the last of them in the parse, should there be several (in
    both registries a later entry takes the place of an earlier one). *)
Definition token_at (d : Doc) (k : Z) : option Token :=
  last (filter (fun t => i t = k) (tokens d)).

Definition entity_at (d : Doc) (k : Z) : option Span :=
  last (filter (fun e => categorized e ∧ i (root e) = k) (ents d)).

(** The characters a token range covers: from the start of its first
    token to the end of its last. *)
Definition span_chars (d : Doc) (sp : Span) : option (Z * Z) :=
  t1 ← tokens d !! Z.to_nat (start sp);
  t2 ← tokens d !! Z.to_nat (end_ sp - 1);
  Some (idx t1, idx t2 + len (text t2)).

(** The value of a text attribute: the slice of the text at a span. *)
Definition text_at (text_orig : string) (p : Z * Z) : option value :=
  Some (VStr (py_slice text_orig p.1 p.2)).

(** The key [k] is in both registries: for the entity [e] with the
    character span [p] and for the token [t] of that index. *)
Definition registered (text_orig : string) (d : Doc)
    (entity_dict : list (Z * props)) (governer_dict : gmap Z props)
    (k : Z) (e : Span) (p : Z * Z) (t : Token) : Prop :=
  e ∈ ents d ∧ t ∈ tokens d ∧ i (root e) = k ∧ i t = k
  ∧ (exists c, find_dbpedia_type e = Some c
       ∧ dict_get k entity_dict
         = Some (entity_properties text_orig p.1 p.2 c e))
  ∧ governer_dict !! k = Some (properties_governer text_orig t).

(** The entity, the character span and the token that the registries hold
    for the key [k], as the parse has them. *)
Definition pinned (d : Doc) (k : Z) (e : Span) (p : Z * Z) (t : Token)
    : Prop :=
  entity_at d k = Some e ∧ token_at d k = Some t ∧ span_chars d e = Some p.

(** The annotation links the head positions [a] and [b], in either order. *)
Definition links (a b : Z) (r : Annotation) : Prop :=
  (int_attr "e1_root_i" (properties r) = Some a
   ∧ int_attr "e2_root_i" (properties r) = Some b)
  ∨ (int_attr "e1_root_i" (properties r) = Some b
     ∧ int_attr "e2_root_i" (properties r) = Some a).

Global Instance links_dec a b r : Decision (links a b r).
Proof. unfold links. apply _. Defined.

(** [links], on the request an annotation comes from. *)
Definition rq_links (a b : Z) (rq : Req) : Prop :=
  (int_attr "e1_root_i" (rq_props rq) = Some a
   ∧ int_attr "e2_root_i" (rq_props rq) = Some b)
  ∨ (int_attr "e1_root_i" (rq_props rq) = Some b
     ∧ int_attr "e2_root_i" (rq_props rq) = Some a).

Global Instance rq_links_dec a b rq : Decision (rq_links a b rq).
Proof. unfold rq_links. apply _. Defined.

Definition of_type (ty : Uri) (a : Annotation) : Prop := at_type a = ty.

Global Instance of_type_dec ty a : Decision (of_type ty a).
Proof. unfold of_type. apply _. Defined.

(** The keys under which an annotation carries text. *)
Definition text_keys : list string :=
  ["text"; "root_text"; "dependent_text"; "governer_text";
   "rel_text"; "e1_text"; "e2_text"].

(** The properties [add_annotation] sets before those it is given. *)
Definition header (doc_id : option string) (start_ end' : option Z) : props :=
  option_list (pair "document" <$> (VStr <$> doc_id))
  ++ option_list (pair "start" <$> (VInt <$> start_))
  ++ option_list (pair "end" <$> (VInt <$> end')).

(** Property lists whose keys are distinct and are not among those
    [add_annotation] sets itself. *)
Definition fresh_props (ps : props) : Prop :=
  NoDup (ps.*1) ∧ ("document" ∉ ps.*1) ∧ ("start" ∉ ps.*1) ∧ ("end" ∉ ps.*1).

(** spaCy's guarantee that the root of an entity is a token of the
    document. *)
Definition ents_rooted (d : Doc) : Prop :=
  Forall (fun e => Exists (fun t => i t = i (root e)) (tokens d)) (ents d).

Global Instance ents_rooted_dec d : Decision (ents_rooted d).
Proof. unfold ents_rooted. apply _. Defined.

(** What holds of every request of [_add_tool_output]: its prefix is one
    of the six, its keys are fresh, and each value under a text key is a
    slice of the text read from the document, under ["text"] the slice at the
    request's own offsets. *)
Definition req_ok (text_orig : string) (rq : Req) : Prop :=
  rq_prefix rq ∈ app_prefixes
  ∧ fresh_props (rq_props rq)
  ∧ forall k v, k ∈ text_keys -> (k, v) ∈ rq_props rq ->
      exists p1 p2, v = VStr (py_slice text_orig p1 p2)
        ∧ (k = "text" -> rq_start rq = Some p1 ∧ rq_end rq = Some p2).

(** A parse as spaCy gives it: the ranges of its units are non-empty and
    within the document, and the roots of its entities are tokens of it. *)
Definition span_in_doc (d : Doc) (sp : Span) : Prop :=
  0 <= start sp < end_ sp ∧ end_ sp <= Z.of_nat (length (tokens d)).

Definition doc_wf (d : Doc) : Prop :=
  Forall (span_in_doc d) (noun_chunks d)
  ∧ Forall (span_in_doc d) (sents d)
  ∧ Forall (span_in_doc d) (ents d)
  ∧ ents_rooted d.

(** A document that is read and parsed without a fault. *)
Definition doc_ok `{Pipeline} (doc : Document) : Prop :=
  exists text_orig input_text,
    (forall s, (_read_text doc s).2 = inr text_orig)
    ∧ input_text_of text_orig = inr input_text
    ∧ doc_wf (nlp input_text).

(** The requests of a parse whose units are all within the document, in
    the order of the loops, and the registry the loop over the entities
    leaves. *)
Section Expected.
Context (text_orig : string) (d : Doc).

Definition chars_of (sp : Span) : Z * Z := default (0, 0) (span_chars d sp).

Definition category_of (e : Span) : string :=
  default EmptyString (find_dbpedia_type e).

Definition entity_record (e : Span) : props :=
  entity_properties text_orig (chars_of e).1 (chars_of e).2 (category_of e) e.

Definition entity_dict_of : list (Z * props) :=
  foldl (fun ed e => dict_set (i (root e)) (entity_record e) ed) []
    (filter categorized (ents d)).

Definition relation_reqs (ed : list (Z * props)) (gd : gmap Z props)
    : list Req :=
  dict_keys ed ≫= fun i1 =>
  dict_keys ed ≫= fun i2 => (relation_body_T ed gd i1 i2).1.

Definition expected_reqs : list Req :=
  (token_req text_orig <$> tokens d)
  ++ ((fun sp => span_req text_orig NCHUNK "nc" (chars_of sp))
        <$> noun_chunks d)
  ++ ((fun sp => span_req text_orig SENTENCE "s" (chars_of sp)) <$> sents d)
  ++ ((fun e => entity_req text_orig (chars_of e) (category_of e) e)
        <$> filter categorized (ents d))
  ++ (dependency_req text_orig <$> tokens d)
  ++ relation_reqs entity_dict_of
       (governer_dict_of text_orig entity_dict_of (tokens d)).
End Expected.

(** Modelled from the spec's words, for comparison with [truecase]: the
    text is lowercased and every character position covered by a token
    that the uncased model marks as part of an entity is uppercased. *)
Definition covered (toks : list Token) (k : Z) : bool :=
  bool_decide (Exists (fun t => ent_type_ t <> EmptyString
                                ∧ idx t <= k < idx t + len (text t)) toks).

Definition truecase_all_positions `{Pipeline} (ner_model : string -> Doc)
    (input_text : string) : string :=
  let low := str_lower input_text in
  py_join (imap (fun k c =>
                   if covered (tokens (ner_model low)) (Z.of_nat k)
                   then str_upper c else c)
             (py_list low)).

(** The body of the loop of the pre-pass, on the token alone. *)
Definition upcase_start `{Pipeline} (l : list string) (tok : Token) : Res (list string) :=
  if decide (ent_type_ tok <> EmptyString) then
    c ← list_getitem l (idx tok);
    list_setitem l (idx tok) (str_upper c)
  else mret l.

Definition upcase_at `{Pipeline} (starts : list Z) (k : nat) (c : string) : string :=
  if bool_decide (Z.of_nat k ∈ starts) then str_upper c else c.

(** The start offsets of the tokens the uncased model marks. *)
Definition entity_starts (toks : list Token) : list Z :=
  idx <$> filter (fun t => ent_type_ t <> EmptyString) toks.

(** ** A concrete pipeline

    ASCII case mapping for [str.lower] and [str.upper], and models that
    answer with fixed parses. *)

Definition ascii_upper (c : ascii) : ascii :=
  let n := nat_of_ascii c in
  if (97 <=? n)%nat && (n <=? 122)%nat then ascii_of_nat (n - 32) else c.

Definition ascii_lower (c : ascii) : ascii :=
  let n := nat_of_ascii c in
  if (65 <=? n)%nat && (n <=? 90)%nat then ascii_of_nat (n + 32) else c.

Fixpoint string_map (f : ascii -> ascii) (s : string) : string :=
  match s with
  | EmptyString => EmptyString
  | String c s' => String (f c) (string_map f s')
  end.

Module Sample.

(** "IBM builds computers" *)
Definition tok_builds : Token :=
  mkToken 1 4 "builds" "VBZ" "build" "ROOT" "" None.
Definition tok_IBM : Token :=
  mkToken 0 0 "IBM" "NNP" "IBM" "nsubj" "ORG" (Some tok_builds).
Definition tok_computers : Token :=
  mkToken 2 11 "computers" "NNS" "computer" "dobj" "" (Some tok_builds).

Definition ent_IBM : Span :=
  mkSpan 0 1 tok_IBM "http://dbpedia.org/resource/IBM"
    (Some {[ "@types" :=
               FStr "DBpedia:Agent,DBpedia:Organisation,DBpedia:Company" ]}).
Definition ent_computers : Span :=
  mkSpan 2 3 tok_computers "http://dbpedia.org/resource/Computer"
    (Some {[ "@types" := FStr "DBpedia:Device" ]}).

Definition plain_span (start_ end' : Z) (root_ : Token) : Span :=
  mkSpan start_ end' root_ "" None.

Definition doc_IBM : Doc :=
  mkDoc [tok_IBM; tok_builds; tok_computers]
    [plain_span 0 1 tok_IBM; plain_span 2 3 tok_computers]
    [plain_span 0 3 tok_builds]
    [ent_IBM; ent_computers].

(** "jim lehrer", as the uncased model sees it *)
Definition tok_lehrer : Token :=
  mkToken 1 4 "lehrer" "NNP" "lehrer" "ROOT" "PER" None.
Definition tok_jim : Token :=
  mkToken 0 0 "jim" "NNP" "jim" "compound" "PER" (Some tok_lehrer).

Definition doc_jim : Doc :=
  mkDoc [tok_jim; tok_lehrer] [] [] [plain_span 0 2 tok_lehrer].

(** An entity whose raw record has a list where the string is expected,
    and a parse with an empty noun chunk in the middle of the sentence. *)
Definition ent_malformed : Span :=
  mkSpan 0 1 tok_IBM "http://dbpedia.org/resource/IBM"
    (Some {[ "@types" := FList ["DBpedia:Organisation"] ]}).

Definition doc_empty_chunk : Doc :=
  mkDoc [tok_IBM; tok_builds; tok_computers]
    [plain_span 1 1 tok_builds] [plain_span 0 3 tok_builds] [].

(** A parse whose second noun chunk ends after the last token. *)
Definition doc_second_chunk_outside : Doc :=
  mkDoc [tok_IBM; tok_builds; tok_computers]
    [plain_span 0 1 tok_IBM; plain_span 2 4 tok_computers;
     plain_span 2 3 tok_computers]
    [plain_span 0 3 tok_builds] [ent_IBM].

Definition empty_doc : Doc := mkDoc [] [] [] [].

(** "Jim Lehrer", as the main pipeline sees it after the pre-pass *)
Definition tok_Lehrer : Token :=
  mkToken 1 4 "Lehrer" "NNP" "Lehrer" "ROOT" "PERSON" None.
Definition tok_Jim : Token :=
  mkToken 0 0 "Jim" "NNP" "Jim" "compound" "PERSON" (Some tok_Lehrer).

Definition ent_Jim_Lehrer : Span :=
  mkSpan 0 2 tok_Lehrer "http://dbpedia.org/resource/Jim_Lehrer"
    (Some {[ "@types" :=
               FStr "Wikidata:Q5,DUL:NaturalPerson,Schema:Person,DBpedia:Agent,DBpedia:Person" ]}).

Definition doc_Jim : Doc :=
  mkDoc [tok_Jim; tok_Lehrer] [plain_span 0 2 tok_Lehrer]
    [plain_span 0 2 tok_Lehrer] [ent_Jim_Lehrer].

Definition sample_nlp (text : string) : Doc :=
  if decide (text = "IBM builds computers") then doc_IBM
  else if decide (text = "Jim Lehrer") then doc_Jim
  else empty_doc.

Definition sample_ner (text : string) : Doc :=
  if decide (text = "jim lehrer") then doc_jim else empty_doc.

Definition sample_view_id (vs : list View) : string :=
  "v_" +:+ pretty (length vs).

(** The app as started without [--uncased], with every location readable. *)
Definition cased : Pipeline :=
  {| nlp := sample_nlp; ner := None;
     urlopen := fun _ => inr "IBM builds computers";
     str_lower := string_map ascii_lower;
     str_upper := string_map ascii_upper;
     new_view_id := sample_view_id |}.

(** The app as started with [--uncased]. *)
Definition uncased : Pipeline :=
  {| nlp := sample_nlp; ner := Some sample_ner;
     urlopen := fun _ => inr "IBM builds computers";
     str_lower := string_map ascii_lower;
     str_upper := string_map ascii_upper;
     new_view_id := sample_view_id |}.

(** The app with the network down. *)
Definition offline : Pipeline :=
  {| nlp := sample_nlp; ner := None;
     urlopen := fun _ => inl URLError;
     str_lower := string_map ascii_lower;
     str_upper := string_map ascii_upper;
     new_view_id := sample_view_id |}.

Definition text_doc : Document :=
  mkDocument "d1" "http://mmif.clams.ai/0.4.0/vocabulary/TextDocument"
    None "IBM builds computers".

Definition remote_doc : Document :=
  mkDocument "d1" "http://mmif.clams.ai/0.4.0/vocabulary/TextDocument"
    (Some "http://example.org/transcript.txt") "".

(** A transcript in capitals. *)
Definition capitals_doc : Document :=
  mkDocument "d2" "http://mmif.clams.ai/0.4.0/vocabulary/TextDocument"
    None "JIM LEHRER".

Definition empty_view : View := mkView "v_0" [] [] [].

Definition state0 : State := mkState ∅ (mkMmif [text_doc] [empty_view]).

(** A view that has an annotation "t1" already, the counters at zero. *)
Definition stale_view : View :=
  mkView "v_0" [(TOKEN, None)] [mkAnnotation TOKEN "t1" []] [].

Definition stale_state : State := mkState ∅ (mkMmif [text_doc] [stale_view]).

(** An input whose only text document is inside a view. *)
Definition transcript_view : View := mkView "v1" [] [] [text_doc].

Definition mmif_with_transcript : Mmif := mkMmif [] [transcript_view].

(** The first token of "IBM builds computers" as annotated for that
    document. *)
Definition token_IBM_of_transcript : Annotation :=
  mkAnnotation TOKEN "t1"
    [("document", VStr "v1:d1"); ("start", VInt 0); ("end", VInt 3);
     ("pos", VStr "NNP"); ("lemma", VStr "IBM"); ("text", VStr "IBM");
     ("i", VInt 0)].

(** The passes of [_add_tool_output] on "IBM builds computers", one by
    one, and the relation it ends with. *)
Definition text_IBM : string := "IBM builds computers".

Definition entity_pass : State * Res (list (Z * props)) :=
  for_fold (ents doc_IBM) []
    (entity_body 0 None text_IBM (tok_idx_of (tokens doc_IBM))) state0.

Definition entity_dict : list (Z * props) :=
  match entity_pass.2 with inr ed => ed | inl _ => [] end.

Definition dependency_pass : State * Res (gmap Z props) :=
  for_fold (enumerate (tokens doc_IBM)) ∅
    (dependency_body 0 None text_IBM entity_dict) entity_pass.1.

Definition governer_dict : gmap Z props :=
  match dependency_pass.2 with inr gd => gd | inl _ => ∅ end.

Definition relation_IBM_computers : Annotation :=
  mkAnnotation GENERIC_RELATION "rel1"
    [("rel_text", VStr "builds"); ("rel_lemma", VStr "build");
     ("rel_i", VInt 1);
     ("e1_text", VStr "IBM"); ("e1_root_i", VInt 0);
     ("e1_kb_id", VStr "http://dbpedia.org/resource/IBM");
     ("e1_dep", VStr "nsubj");
     ("e2_text", VStr "computers"); ("e2_root_i", VInt 2);
     ("e2_kb_id", VStr "http://dbpedia.org/resource/Computer");
     ("e2_dep", VStr "dobj")].

End Sample.

(** ** Notions of the further properties *)

(** How often [p] occurs in [ps]. *)
Definition occurrences (p : string) (ps : list string) : N :=
  N.of_nat (length (filter (fun q => q = p) ps)).

(** The string [sub] occurs in [s]; [suffix] ends [s]. *)
Definition occurs_in (sub s : string) : Prop :=
  exists pre post, s = pre +:+ sub +:+ post.

Definition ends_with (s suffix : string) : Prop :=
  exists pre, s = pre +:+ suffix.

(** The categories of interest whose DBpedia name occurs in a ['@types']
    string, in the order of [interested_types]. *)
Definition categories_in (types : string) : list string :=
  filter (fun c => str_contains (prefix +:+ c) types = true) interested_types.

(** The identifier prefix [_add_tool_output] uses for a type, and whether
    it gives the annotations of the type a start and an end. *)
Definition type_prefix (ty : Uri) : option string :=
  match ty with
  | TOKEN => Some "t"
  | NCHUNK => Some "nc"
  | SENTENCE => Some "s"
  | NE => Some "ne"
  | DEPENDENCY => Some "dep"
  | GENERIC_RELATION => Some "rel"
  | POS | LEMMA => None
  end.

Definition has_offsets (ty : Uri) : bool :=
  match ty with
  | TOKEN | NCHUNK | SENTENCE | NE => true
  | _ => false
  end.

Definition req_shape (rq : Req) : Prop :=
  type_prefix (rq_type rq) = Some (rq_prefix rq)
  ∧ (is_Some (rq_start rq) <-> has_offsets (rq_type rq) = true)
  ∧ (is_Some (rq_end rq) <-> has_offsets (rq_type rq) = true)
  ∧ fresh_props (rq_props rq).

(** The invariant of a batch with its numbering: the identifiers of the
    batch are distinct, each annotation has the identifier prefix of its
    type followed by a number from 1 to the counter of the prefix, and the
    counter of a prefix is the number of annotations of its type in the
    batch. *)
Definition batch_numbered (k : nat) (s : State) : Prop :=
  (k <= length (views (mmif s)))%nat
  ∧ NoDup (ann_id <$> batch_anns k s)
  ∧ (forall a, a ∈ batch_anns k s ->
       exists p (n : N),
         type_prefix (at_type a) = Some p ∧ ann_id a = p +:+ pretty n
         ∧ (1 <= n <= counter s p)%N)
  ∧ forall ty p, type_prefix ty = Some p ->
      counter s p = N.of_nat (length (filter (of_type ty) (batch_anns k s))).

(** The same, with a view of the batch to write to. *)
Definition batch_view (k view : nat) (s : State) : Prop :=
  batch_numbered k s ∧ (k <= view < length (views (mmif s)))%nat.

Global Instance Annotation_eq_dec : EqDecision Annotation.
Proof. solve_decision. Defined.

Global Instance span_in_doc_dec d sp : Decision (span_in_doc d sp).
Proof. unfold span_in_doc. apply _. Defined.

Global Instance doc_wf_dec d : Decision (doc_wf d).
Proof. unfold doc_wf. apply _. Defined.

(** The properties [_add_tool_output] gives a token. *)
Definition token_properties (text_orig : string) (tok : Token) : props :=
  [("pos", VStr (tag_ tok)); ("lemma", VStr (lemma_ tok));
   ("text", VStr (py_slice text_orig (idx tok) (idx tok + len (text tok))));
   ("i", VInt (i tok))].

(** The number of views of a state. *)
Definition views_of (s : State) : nat := length (views (mmif s)).

(** The two loop bodies of [_annotate], and the invariant it keeps of its
    input: the documents and the views that were there stay as they were,
    and the views added hold no documents. *)
Definition top_level_step `{Pipeline} (doc : Document) : M unit :=
  new_view ← _new_view (Some (doc_id_of doc));
  _add_tool_output doc new_view None.

Definition view_step `{Pipeline} (view : View) : M unit :=
  let docs := view_documents view in
  if bool_decide (docs <> []) then
    new_view ← _new_view None;
    for_ docs (fun doc =>
      let doc_id := view_id view +:+ ":" +:+ doc_id_of doc in
      _add_tool_output doc new_view (Some doc_id))
  else mret tt.

Definition holds_documents (v : View) : Prop := view_documents v <> [].

Global Instance holds_documents_dec v : Decision (holds_documents v).
Proof. unfold holds_documents. apply _. Defined.

Definition input_kept (m : Mmif) (s : State) : Prop :=
  documents (mmif s) = documents m
  ∧ take (length (views m)) (views (mmif s)) = views m
  ∧ Forall (fun v => view_documents v = [])
      (drop (length (views m)) (views (mmif s))).

(** ** Tactics

    Membership in, and freshness of, the literal key lists of the app. *)

Ltac solve_notin :=
  repeat (apply not_elem_of_cons; split; [discriminate|]);
  apply not_elem_of_nil.

Ltac solve_fresh_props :=
  unfold fresh_props; simpl;
  split; [|split; [|split]];
  [repeat (apply NoDup_cons_2; [solve_notin|]); apply NoDup_nil_2
  |solve_notin..].

Ltac split_elem H :=
  repeat (apply elem_of_cons in H as [H|H]; [|]);
  [..|by apply elem_of_nil in H].

Ltac refute_elem H :=
  repeat (apply elem_of_cons in H as [H|H]; [discriminate H|]);
  by apply elem_of_nil in H.

(** * Properties *)

(** ** Dictionaries and the properties of an annotation *)

Section Dicts.
Context {K V : Type} `{EqDecision K}.
Implicit Types (d : list (K * V)) (k : K) (v : V).

Lemma dict_set_fresh k v d : k ∉ d.*1 -> dict_set k v d = d ++ [(k, v)].
Proof.
  induction d as [|[k' v'] d IH]; intros Hk; [done|].
  simpl in *. apply not_elem_of_cons in Hk as [Hne Hk].
  destruct (decide (k = k')); [done|]. by rewrite IH.
Qed.

Lemma dict_set_keys_old k v d :
  k ∈ dict_keys d -> dict_keys (dict_set k v d) = dict_keys d.
Proof.
  unfold dict_keys. induction d as [|[k' v'] d IH]; simpl.
  - by intros ?%elem_of_nil.
  - intros Hk. destruct (decide (k = k')) as [->|Hne]; simpl; [done|].
    apply elem_of_cons in Hk as [?|Hk]; [done|]. f_equal. by apply IH.
Qed.

Lemma dict_set_keys_new k v d :
  k ∉ dict_keys d -> dict_keys (dict_set k v d) = dict_keys d ++ [k].
Proof.
  unfold dict_keys. intros Hk. rewrite dict_set_fresh by done.
  by rewrite fmap_app.
Qed.

Lemma dict_set_keys_elem k k' v d :
  k' ∈ dict_keys (dict_set k v d) <-> k' = k ∨ k' ∈ dict_keys d.
Proof.
  destruct (decide (k ∈ dict_keys d)) as [Hk|Hk].
  - rewrite dict_set_keys_old by done. split; [auto|]. by intros [->|?].
  - rewrite dict_set_keys_new by done.
    rewrite elem_of_app, list_elem_of_singleton. tauto.
Qed.

Lemma dict_get_set k k' v d :
  dict_get k' (dict_set k v d)
  = if decide (k' = k) then Some v else dict_get k' d.
Proof.
  induction d as [|[k0 v0] d IH]; simpl.
  - by destruct (decide (k' = k)).
  - destruct (decide (k = k0)) as [->|Hne]; simpl.
    + destruct (decide (k' = k0)); by simplify_eq.
    + rewrite IH. destruct (decide (k' = k0)), (decide (k' = k)); by simplify_eq.
Qed.

Lemma dict_get_Some k v d : dict_get k d = Some v -> (k, v) ∈ d.
Proof.
  induction d as [|[k0 v0] d IH]; simpl; [done|].
  destruct (decide (k = k0)) as [->|Hne].
  - intros [= ->]. apply list_elem_of_here.
  - intros Hd. apply list_elem_of_further. auto.
Qed.

Lemma dict_get_is_Some k d : k ∈ dict_keys d -> is_Some (dict_get k d).
Proof.
  unfold dict_keys. induction d as [|[k0 v0] d IH]; simpl.
  - by intros ?%elem_of_nil.
  - intros [->|Hk]%elem_of_cons.
    + destruct (decide (k0 = k0)); [eauto|done].
    + destruct (decide (k = k0)); eauto.
Qed.

Lemma dict_set_NoDup k v d : NoDup (dict_keys d) -> NoDup (dict_keys (dict_set k v d)).
Proof.
  intros Hd. destruct (decide (k ∈ dict_keys d)) as [Hk|Hk].
  { by rewrite dict_set_keys_old. }
  rewrite dict_set_keys_new by done.
  apply NoDup_app. split; [done|]. split; [|apply NoDup_singleton].
  intros x Hx ->%list_elem_of_singleton. done.
Qed.

Lemma dict_get_app k d1 d2 :
  dict_get k (d1 ++ d2)
  = match dict_get k d1 with Some v => Some v | None => dict_get k d2 end.
Proof.
  induction d1 as [|[k0 v0] d1 IH]; simpl; [done|].
  by destruct (decide (k = k0)).
Qed.

End Dicts.

Section AnnotationProperties.

Lemma add_properties_fresh (a : Annotation) (ps : props) :
  NoDup ((properties a).*1 ++ ps.*1) ->
  properties (foldl (fun a pv => add_property pv.1 pv.2 a) a ps)
  = properties a ++ ps.
Proof.
  revert a. induction ps as [|[k v] ps IH]; intros a Hnd; simpl.
  - by rewrite app_nil_r.
  - rewrite IH; simpl.
    + rewrite dict_set_fresh, <-app_assoc; [done|].
      apply NoDup_app in Hnd as (_ & Hd & _). intros Hk. apply (Hd k Hk).
      apply list_elem_of_here.
    + rewrite dict_set_fresh, fmap_app, <-app_assoc; [done|].
      apply NoDup_app in Hnd as (_ & Hd & _). intros Hk. apply (Hd k Hk).
      apply list_elem_of_here.
Qed.

Lemma new_annotation_properties ty identifier doc_id st en ps :
  fresh_props ps ->
  properties (new_annotation ty identifier doc_id st en ps)
  = header doc_id st en ++ ps.
Proof.
  intros (Hnd & Hd & Hs & He). unfold new_annotation.
  rewrite add_properties_fresh; [by destruct doc_id, st, en|].
  destruct doc_id, st, en; simpl;
    repeat (apply NoDup_cons_2;
            [repeat (apply not_elem_of_cons; split; [discriminate|]);
             first [exact Hd | exact Hs | exact He] |]);
    exact Hnd.
Qed.

Lemma add_properties_type_id (a : Annotation) (ps : props) :
  let a' := foldl (fun a pv => add_property pv.1 pv.2 a) a ps in
  at_type a' = at_type a ∧ ann_id a' = ann_id a.
Proof.
  revert a. induction ps as [|pv ps IH]; intros a; simpl; [done|].
  destruct (IH (add_property pv.1 pv.2 a)) as [-> ->]. done.
Qed.

Lemma new_annotation_type ty identifier doc_id st en ps :
  at_type (new_annotation ty identifier doc_id st en ps) = ty.
Proof.
  unfold new_annotation.
  rewrite (proj1 (add_properties_type_id _ ps)). by destruct doc_id, st, en.
Qed.

Lemma new_annotation_id ty identifier doc_id st en ps :
  ann_id (new_annotation ty identifier doc_id st en ps) = identifier.
Proof.
  unfold new_annotation.
  rewrite (proj2 (add_properties_type_id _ ps)). by destruct doc_id, st, en.
Qed.

Lemma char_span_header doc_id p1 p2 ps :
  char_span (mkAnnotation NE "" (header doc_id (Some p1) (Some p2) ++ ps))
  = Some (p1, p2).
Proof. by destruct doc_id. Qed.

End AnnotationProperties.

(** ** Identifiers *)

Section IdentifierStrings.

Lemma is_digit_pretty_N_char x : is_digit (pretty_N_char x) = true.
Proof.
  unfold pretty_N_char. by repeat case_match.
Qed.

Lemma all_digits_pretty_N_go x s :
  all_digits s = true -> all_digits (pretty_N_go x s) = true.
Proof.
  revert s. induction (N.lt_wf_0 x) as [x _ IH]; intros s Hs.
  destruct (decide (x = 0)%N) as [->|Hx]; [by rewrite pretty_N_go_0|].
  rewrite pretty_N_go_step by lia.
  apply IH; [apply N.div_lt; lia|].
  simpl. by rewrite is_digit_pretty_N_char.
Qed.

Lemma all_digits_pretty (n : N) : all_digits (pretty n) = true.
Proof.
  unfold pretty, pretty_N. case_decide; [done|].
  by apply all_digits_pretty_N_go.
Qed.

Lemma all_digits_app p d :
  all_digits (p +:+ d) = true -> all_digits p = true.
Proof.
  induction p as [|c p IH]; [done|].
  change (String c p +:+ d) with (String c (p +:+ d)). simpl.
  intros [Hc Hp]%andb_prop. rewrite Hc. by apply IH.
Qed.

Lemma all_digits_ends p :
  all_digits p = true -> p <> EmptyString -> ends_in_digit p = true.
Proof.
  induction p as [|c p IH]; [done|]. simpl.
  intros [Hc Hp]%andb_prop _. destruct p as [|c' p]; [done|].
  by apply IH.
Qed.

Lemma ends_in_digit_tail c p :
  ends_in_digit (String c p) = false -> ends_in_digit p = false.
Proof. by destruct p. Qed.

Lemma app_digits_inj p1 p2 d1 d2 :
  ends_in_digit p1 = false -> ends_in_digit p2 = false ->
  all_digits d1 = true -> all_digits d2 = true ->
  p1 +:+ d1 = p2 +:+ d2 -> p1 = p2 ∧ d1 = d2.
Proof.
  revert p2. induction p1 as [|c1 p1 IH]; intros p2 H1 H2 Hd1 Hd2 Heq.
  - destruct p2 as [|c2 p2]; [done|].
    change (EmptyString +:+ d1) with d1 in Heq. subst d1.
    apply all_digits_app in Hd1.
    by rewrite (all_digits_ends _ Hd1) in H2.
  - destruct p2 as [|c2 p2].
    + change (EmptyString +:+ d2) with d2 in Heq. subst d2.
      apply all_digits_app in Hd2.
      by rewrite (all_digits_ends _ Hd2) in H1.
    + change (String c1 (p1 +:+ d1) = String c2 (p2 +:+ d2)) in Heq.
      injection Heq as -> Heq.
      destruct (IH p2) as [-> ->]; eauto using ends_in_digit_tail.
Qed.

(** Two identifiers with prefixes that do not end in a digit are equal
    only for the same prefix and the same number. *)
Lemma identifier_inj p1 p2 (n1 n2 : N) :
  ends_in_digit p1 = false -> ends_in_digit p2 = false ->
  p1 +:+ pretty n1 = p2 +:+ pretty n2 -> p1 = p2 ∧ n1 = n2.
Proof.
  intros H1 H2 Heq.
  destruct (app_digits_inj p1 p2 (pretty n1) (pretty n2)) as [-> Hn];
    auto using all_digits_pretty.
  split; [done|]. by apply (inj pretty).
Qed.

Lemma app_prefixes_no_digit p : p ∈ app_prefixes -> ends_in_digit p = false.
Proof.
  unfold app_prefixes. intros Hp.
  repeat (apply elem_of_cons in Hp as [->|Hp]; [done|]).
  by apply elem_of_nil in Hp.
Qed.

End IdentifierStrings.

Section IdentifierSequences.

Lemma counter_new p q s :
  counter (Identifiers.new p s).1 q
  = if decide (q = p) then (counter s p + 1)%N else counter s q.
Proof.
  unfold counter, Identifiers.new; simpl.
  rewrite lookup_insert. destruct (decide (p = q)) as [->|Hne].
  - by rewrite decide_True.
  - by rewrite decide_False by done.
Qed.

Lemma counter_new_le p q s : (counter s q <= counter (Identifiers.new p s).1 q)%N.
Proof. rewrite counter_new. case_decide; subst; lia. Qed.

Lemma news_spec ps s :
  Forall (fun p => ends_in_digit p = false) ps ->
  exists ids s',
    mapM Identifiers.new ps s = (s', inr ids)
    ∧ NoDup ids
    ∧ (forall id, id ∈ ids ->
         exists p (n : N),
           id = p +:+ pretty n ∧ ends_in_digit p = false
           ∧ (counter s p < n <= counter s' p)%N)
    ∧ (forall p, counter s p <= counter s' p)%N.
Proof.
  revert s. induction ps as [|p ps IH]; intros s Hps.
  - exists [], s. split; [done|]. split; [constructor|].
    split; [by intros id ?%elem_of_nil|]. intros p. lia.
  - apply Forall_cons in Hps as [Hp Hps].
    destruct (IH (Identifiers.new p s).1 Hps) as (ids & s' & Hrun & Hnd & Hids & Hle).
    exists ((p +:+ pretty (counter s p + 1)%N) :: ids), s'.
    split; [|split; [|split]].
    + simpl. unfold mbind at 1. unfold M_bind at 1. simpl.
      unfold mbind at 1. unfold M_bind at 1.
      change (mkState (<[p:=(default 0 (identifiers s !! p) + 1)%N]> (identifiers s))
                (mmif s)) with (Identifiers.new p s).1.
      by rewrite Hrun.
    + apply NoDup_cons. split; [|done]. intros Hin.
      destruct (Hids _ Hin) as (p' & n' & Heq & Hp' & Hlt & _).
      destruct (identifier_inj _ _ _ _ Hp Hp' Heq) as [<- <-].
      rewrite counter_new, decide_True in Hlt by done. lia.
    + intros id [->|Hin]%elem_of_cons.
      * exists p, (counter s p + 1)%N. split; [done|]. split; [done|].
        specialize (Hle p). rewrite counter_new, decide_True in Hle by done. lia.
      * destruct (Hids _ Hin) as (p' & n' & Heq & Hp' & Hlt & Hle').
        exists p', n'. split; [done|]. split; [done|].
        pose proof (counter_new_le p p' s). lia.
    + intros q. pose proof (counter_new_le p q s). specialize (Hle q). lia.
Qed.

Lemma occurrences_cons p q ps :
  occurrences p (q :: ps)
  = ((if decide (q = p) then 1 else 0) + occurrences p ps)%N.
Proof.
  unfold occurrences. rewrite filter_cons.
  destruct (decide (q = p)); simpl; lia.
Qed.

Lemma news_numbered ps s :
  exists ids s',
    mapM Identifiers.new ps s = (s', inr ids)
    ∧ length ids = length ps
    ∧ forall (k : nat) p, ps !! k = Some p ->
        ids !! k
        = Some (p +:+ pretty (counter s p + occurrences p (take (S k) ps))%N).
Proof.
  revert s. induction ps as [|p0 ps IH]; intros s.
  - exists [], s. split; [done|]. split; [done|]. by intros k p ?.
  - destruct (IH (Identifiers.new p0 s).1) as (ids & s' & Hrun & Hlen & Hids).
    exists ((p0 +:+ pretty (counter s p0 + 1)%N) :: ids), s'.
    split; [|split].
    + simpl. unfold mbind at 1. unfold M_bind at 1. simpl.
      unfold mbind at 1. unfold M_bind at 1.
      change (mkState (<[p0:=(default 0 (identifiers s !! p0) + 1)%N]> (identifiers s))
                (mmif s)) with (Identifiers.new p0 s).1.
      by rewrite Hrun.
    + simpl. by rewrite Hlen.
    + intros [|k] p Hp.
      * injection Hp as ->. simpl.
        rewrite occurrences_cons, decide_True by done.
        unfold occurrences. simpl. done.
      * simpl in Hp. simpl. rewrite (Hids k p Hp).
        rewrite counter_new.
        change (take (S (S k)) (p0 :: ps)) with (p0 :: take (S k) ps).
        rewrite occurrences_cons. do 2 f_equal.
        destruct (decide (p = p0)) as [->|Hne].
        -- rewrite decide_True by done. f_equal; lia.
        -- rewrite decide_False by done. f_equal; lia.
Qed.

Lemma counter_reset s p : counter (Identifiers.reset s).1 p = 0%N.
Proof. done. Qed.

End IdentifierSequences.

(** ** The stateful code and its requests *)

Section Traces.
Context (view : nat) (doc_id : option string) (text_orig : string).

Lemma perform_all_app rqs1 rqs2 s :
  perform_all view doc_id (rqs1 ++ rqs2) s
  = perform_all view doc_id rqs2 (perform_all view doc_id rqs1 s).
Proof. unfold perform_all. by rewrite foldl_app. Qed.

Lemma run_all_cons rq rqs s :
  run_all view doc_id (rq :: rqs) s
  = match perform view doc_id rq s with
    | (s', inl e) => (s', inl e)
    | (s', inr _) => run_all view doc_id rqs s'
    end.
Proof.
  unfold run_all, for_. simpl. unfold mbind, M_bind.
  by destruct (perform view doc_id rq s) as [s' [e|[]]].
Qed.

Lemma run_all_app rqs1 rqs2 s :
  run_all view doc_id (rqs1 ++ rqs2) s
  = match run_all view doc_id rqs1 s with
    | (s', inl e) => (s', inl e)
    | (s', inr _) => run_all view doc_id rqs2 s'
    end.
Proof.
  revert s. induction rqs1 as [|rq rqs1 IH]; intros s; [done|].
  rewrite <-app_comm_cons, !run_all_cons.
  destruct (perform view doc_id rq s) as [s' [e|[]]]; [done|]. apply IH.
Qed.

Lemma traced_unfold {A} (m : M A) (t : T A) s :
  traced view doc_id m t ->
  m s = match run_all view doc_id t.1 s with
        | (s', inl e) => (s', inl e)
        | (s', inr _) => (s', t.2)
        end.
Proof. intros Hm. rewrite Hm. done. Qed.

Lemma traced_fold {A} (m : M A) (t : T A) :
  (forall s, m s = match run_all view doc_id t.1 s with
                   | (s', inl e) => (s', inl e)
                   | (s', inr _) => (s', t.2)
                   end) ->
  traced view doc_id m t.
Proof. intros Hm s. rewrite Hm. done. Qed.

Lemma traced_ret {A} (a : A) : traced view doc_id (mret a) (mret a).
Proof. by intros s. Qed.

Lemma traced_lift {A} (r : Res A) : traced view doc_id (lift r) (liftT r).
Proof. by intros s. Qed.

Lemma traced_bind {A B} (m : M A) (k : A -> M B) (t : T A) (kt : A -> T B) :
  traced view doc_id m t ->
  (forall a, traced view doc_id (k a) (kt a)) ->
  traced view doc_id (m ≫= k) (t ≫= kt).
Proof.
  intros Hm Hk. apply traced_fold. intros s.
  unfold mbind at 1. unfold M_bind at 1.
  rewrite (traced_unfold m t s Hm).
  destruct t as [rqs [e|a]]; simpl.
  - by destruct (run_all view doc_id rqs s) as [s' [e'|[]]].
  - rewrite run_all_app.
    destruct (run_all view doc_id rqs s) as [s' [e'|[]]]; [done|].
    apply (traced_unfold _ _ s' (Hk a)).
Qed.

Lemma traced_emit ty pre st en ps :
  traced view doc_id
    (identifier ← Identifiers.new pre;
     add_annotation view ty identifier doc_id st en ps)
    (emit (mkReq ty pre st en ps)).
Proof.
  apply traced_fold. intros s.
  change (emit (mkReq ty pre st en ps)).1 with [mkReq ty pre st en ps].
  rewrite run_all_cons.
  change (perform view doc_id (mkReq ty pre st en ps) s)
    with ((identifier ← Identifiers.new pre;
           add_annotation view ty identifier doc_id st en ps) s).
  by destruct ((identifier ← Identifiers.new pre;
                add_annotation view ty identifier doc_id st en ps) s)
    as [s' [e|[]]].
Qed.

Lemma traced_for_fold {A B} (xs : list A) (body : B -> A -> M B)
    (bodyT : B -> A -> T B) :
  (forall acc x, traced view doc_id (body acc x) (bodyT acc x)) ->
  forall acc, traced view doc_id (for_fold xs acc body) (for_fold xs acc bodyT).
Proof.
  intros Hb. induction xs as [|x xs IH]; intros acc; simpl.
  - apply traced_ret.
  - apply traced_bind; [apply Hb | apply IH].
Qed.

Lemma traced_for {A} (xs : list A) (body : A -> M unit)
    (bodyT : A -> T unit) :
  (forall x, traced view doc_id (body x) (bodyT x)) ->
  traced view doc_id (for_ xs body) (for_ xs bodyT).
Proof. intros Hb. apply traced_for_fold. intros _ x. apply Hb. Qed.

Lemma token_body_traced acc nt :
  traced view doc_id (token_body view doc_id text_orig acc nt)
    (token_body_T text_orig acc nt).
Proof.
  unfold token_body, token_body_T.
  apply (traced_bind _ _ (emit (token_req text_orig nt.2))
           (fun _ => mret (<[nt.1 := (idx nt.2, idx nt.2 + len (text nt.2))]> acc)));
    [|intros _; apply traced_ret].
  apply traced_fold. intros s.
  pose proof (traced_emit TOKEN "t" (Some (idx nt.2))
                (Some (idx nt.2 + len (text nt.2)))
                (rq_props (token_req text_orig nt.2))) as Hm.
  apply (traced_unfold _ _ s Hm).
Qed.

Lemma span_body_traced tbl ty pre span :
  traced view doc_id (span_body view doc_id text_orig tbl ty pre span)
    (span_body_T text_orig tbl ty pre span).
Proof.
  unfold span_body, span_body_T.
  apply traced_bind; [apply traced_lift|]. intros p. apply traced_emit.
Qed.

Lemma entity_body_traced tbl acc ent :
  traced view doc_id (entity_body view doc_id text_orig tbl acc ent)
    (entity_body_T text_orig tbl acc ent).
Proof.
  unfold entity_body, entity_body_T.
  destruct (find_dbpedia_type ent) as [c|]; [|apply traced_ret].
  apply traced_bind; [apply traced_lift|]. intros p.
  apply (traced_bind _ _ (emit (entity_req text_orig p c ent))
           (fun _ => mret (dict_set (i (root ent))
                             (entity_properties text_orig p.1 p.2 c ent) acc)));
    [|intros _; apply traced_ret].
  apply traced_emit.
Qed.

Lemma dependency_body_traced ed acc nt :
  traced view doc_id (dependency_body view doc_id text_orig ed acc nt)
    (dependency_body_T text_orig ed acc nt).
Proof.
  unfold dependency_body, dependency_body_T.
  apply (traced_bind _ _ (emit (dependency_req text_orig nt.2))
           (fun _ => mret (if bool_decide (i nt.2 ∈ dict_keys ed)
                           then <[i nt.2 := properties_governer text_orig nt.2]> acc
                           else acc)));
    [|intros _; apply traced_ret].
  apply traced_emit.
Qed.

Lemma relation_body_traced ed gd i1 i2 :
  traced view doc_id (relation_body view doc_id ed gd i1 i2)
    (relation_body_T ed gd i1 i2).
Proof.
  unfold relation_body, relation_body_T.
  apply traced_bind; [apply traced_lift|]. intros [].
  - apply traced_bind; [apply traced_lift|]. intros ps. apply traced_emit.
  - apply traced_ret.
Qed.

Lemma relation_loop_traced ed gd :
  traced view doc_id (relation_loop view doc_id ed gd) (relation_loop_T ed gd).
Proof.
  apply traced_for. intros i1. apply traced_for. intros i2.
  apply relation_body_traced.
Qed.

Lemma annotate_doc_traced d :
  traced view doc_id (annotate_doc view doc_id text_orig d)
    (annotate_doc_T text_orig d).
Proof.
  unfold annotate_doc, annotate_doc_T.
  apply traced_bind; [apply traced_for_fold, token_body_traced|intros tbl].
  apply traced_bind; [apply traced_for, span_body_traced|intros _].
  apply traced_bind; [apply traced_for, span_body_traced|intros _].
  apply traced_bind; [apply traced_for_fold, entity_body_traced|intros ed].
  apply traced_bind; [apply traced_for_fold, dependency_body_traced|intros gd].
  apply relation_loop_traced.
Qed.

End Traces.

(** ** What the requests do to the state *)

Section Views.

Lemma annotations_view_add a v : annotations (view_add a v) = annotations v ++ [a].
Proof. unfold view_add, new_contain. by case_bool_decide. Qed.

Lemma view_id_view_add a v : view_id (view_add a v) = view_id v.
Proof. unfold view_add, new_contain. by case_bool_decide. Qed.

Lemma view_documents_view_add a v :
  view_documents (view_add a v) = view_documents v.
Proof. unfold view_add, new_contain. by case_bool_decide. Qed.

Lemma contains_view_add a v :
  at_type a ∈ (contains v).*1 -> contains (view_add a v) = contains v.
Proof.
  intros Hin. unfold view_add, new_contain. simpl.
  by rewrite bool_decide_eq_true_2.
Qed.

Lemma view_extend_nil v : view_extend [] v = v.
Proof. done. Qed.

Lemma view_extend_cons a anns v :
  view_extend (a :: anns) v = view_extend anns (view_add a v).
Proof. done. Qed.

Lemma view_extend_extend a b v :
  view_extend b (view_extend a v) = view_extend (a ++ b) v.
Proof. unfold view_extend. by rewrite foldl_app. Qed.

Lemma annotations_view_extend anns v :
  annotations (view_extend anns v) = annotations v ++ anns.
Proof.
  revert v. induction anns as [|a anns IH]; intros v.
  - by rewrite app_nil_r.
  - rewrite view_extend_cons, IH, annotations_view_add, <-app_assoc. done.
Qed.

Lemma view_id_view_extend anns v : view_id (view_extend anns v) = view_id v.
Proof.
  revert v. induction anns as [|a anns IH]; intros v; [done|].
  by rewrite view_extend_cons, IH, view_id_view_add.
Qed.

Lemma view_documents_view_extend anns v :
  view_documents (view_extend anns v) = view_documents v.
Proof.
  revert v. induction anns as [|a anns IH]; intros v; [done|].
  by rewrite view_extend_cons, IH, view_documents_view_add.
Qed.

Lemma contains_view_extend anns v :
  Forall (fun a => at_type a ∈ (contains v).*1) anns ->
  contains (view_extend anns v) = contains v.
Proof.
  revert v. induction anns as [|a anns IH]; intros v Hall; [done|].
  apply Forall_cons in Hall as [Ha Hall].
  rewrite view_extend_cons, IH; rewrite contains_view_add by done; done.
Qed.

End Views.

Section Runs.
Context (view : nat) (doc_id : option string).

Lemma perform_all_cons rq rqs s :
  perform_all view doc_id (rq :: rqs) s
  = perform_all view doc_id rqs (put view doc_id rq s).
Proof. done. Qed.

Lemma perform_all_state rqs s :
  perform_all view doc_id rqs s
  = mkState (ids_after (identifiers s) rqs)
      (mkMmif (documents (mmif s))
         (alter (view_extend (stamp doc_id (identifiers s) rqs)) view
            (views (mmif s)))).
Proof.
  revert s. induction rqs as [|rq rqs IH]; intros s.
  - destruct s as [ids [ds vs]]; simpl. do 2 f_equal.
    symmetry. by apply list_alter_id.
  - rewrite perform_all_cons, IH. simpl. do 2 f_equal.
    rewrite list_alter_alter_eq. by apply list_alter_ext.
Qed.

Lemma perform_all_views_length rqs s :
  length (views (mmif (perform_all view doc_id rqs s)))
  = length (views (mmif s)).
Proof. rewrite perform_all_state. simpl. apply length_alter. Qed.

Lemma perform_all_annotations rqs s :
  (view < length (views (mmif s)))%nat ->
  view_annotations (perform_all view doc_id rqs s) view
  = view_annotations s view ++ stamp doc_id (identifiers s) rqs.
Proof.
  intros Hv. rewrite perform_all_state. unfold view_annotations; simpl.
  rewrite list_lookup_alter_eq.
  destruct (lookup_lt_is_Some_2 _ _ Hv) as [v ->]. simpl.
  by rewrite annotations_view_extend.
Qed.

Lemma view_annotations_outside s :
  ~ (view < length (views (mmif s)))%nat -> view_annotations s view = [].
Proof.
  intros Hv. unfold view_annotations.
  by rewrite lookup_ge_None_2 by lia.
Qed.

Lemma view_annotations_bump p s :
  view_annotations (bump p s) view = view_annotations s view.
Proof. done. Qed.

Lemma view_annotations_put rq s :
  view_annotations (put view doc_id rq s) view
  = if decide (view < length (views (mmif s)))%nat
    then view_annotations s view
         ++ [new_annotation (rq_type rq)
               (rq_prefix rq +:+ pretty (counter s (rq_prefix rq) + 1)%N) doc_id
               (rq_start rq) (rq_end rq) (rq_props rq)]
    else [].
Proof.
  unfold view_annotations, put. simpl. rewrite list_lookup_alter_eq.
  case_decide as Hv.
  - destruct (lookup_lt_is_Some_2 _ _ Hv) as [v ->]. simpl.
    by rewrite annotations_view_add.
  - by rewrite lookup_ge_None_2 by lia.
Qed.

Lemma counter_put rq q s :
  counter (put view doc_id rq s) q
  = if decide (q = rq_prefix rq) then (counter s q + 1)%N else counter s q.
Proof.
  unfold counter, put; simpl. rewrite lookup_insert.
  destruct (decide (rq_prefix rq = q)) as [<-|Hne].
  - by rewrite decide_True.
  - by rewrite decide_False by done.
Qed.

Lemma counter_bump p q s :
  counter (bump p s) q
  = if decide (q = p) then (counter s q + 1)%N else counter s q.
Proof.
  unfold counter, bump; simpl. rewrite lookup_insert.
  destruct (decide (p = q)) as [<-|Hne].
  - by rewrite decide_True.
  - by rewrite decide_False by done.
Qed.

(** A request is accepted or refused; a refusal leaves the counter moved
    and the documents and views as they were. *)
Lemma perform_cases rq s :
  let id := rq_prefix rq +:+ pretty (counter s (rq_prefix rq) + 1)%N in
  (~ id ∈ (ann_id <$> view_annotations s view)
   ∧ perform view doc_id rq s = (put view doc_id rq s, inr tt))
  ∨ (id ∈ (ann_id <$> view_annotations s view)
     ∧ perform view doc_id rq s = (bump (rq_prefix rq) s, inl KeyError)).
Proof.
  intros id. unfold perform, mbind, M_bind, Identifiers.new, add_annotation.
  simpl.
  change (view_annotations
            (mkState (<[rq_prefix rq := (default 0 (identifiers s !! rq_prefix rq) + 1)%N]>
                        (identifiers s)) (mmif s)) view)
    with (view_annotations s view).
  case_bool_decide as Hin; [right|left]; done.
Qed.

Lemma ids_fresh_empty s : view_annotations s view = [] -> ids_fresh view s.
Proof. intros Hv p n _. rewrite Hv. by intros ?%elem_of_nil. Qed.

Lemma perform_fresh rq s :
  ids_fresh view s -> rq_prefix rq ∈ app_prefixes ->
  perform view doc_id rq s = (put view doc_id rq s, inr tt).
Proof.
  intros Hf Hp. destruct (perform_cases rq s) as [[_ ?]|[Hin _]]; [done|].
  apply (Hf _ _ Hp) in Hin. lia.
Qed.

Lemma put_fresh rq s :
  ids_fresh view s -> rq_prefix rq ∈ app_prefixes ->
  ids_fresh view (put view doc_id rq s).
Proof.
  intros Hf Hp p n Hpp. rewrite view_annotations_put, counter_put.
  case_decide as Hv; [|by intros ?%elem_of_nil].
  rewrite fmap_app, elem_of_app. intros [Hin|Hin].
  - apply (Hf _ _ Hpp) in Hin. case_decide; lia.
  - simpl in Hin. apply list_elem_of_singleton in Hin.
    rewrite new_annotation_id in Hin.
    apply identifier_inj in Hin as [-> ->];
      [|by apply app_prefixes_no_digit..].
    rewrite decide_True by done. lia.
Qed.

Lemma bump_fresh p s : ids_fresh view s -> ids_fresh view (bump p s).
Proof.
  intros Hf q n Hq Hin. rewrite view_annotations_bump in Hin.
  apply (Hf _ _ Hq) in Hin. rewrite counter_bump. case_decide; lia.
Qed.

Lemma perform_all_fresh rqs s :
  Forall (fun rq => rq_prefix rq ∈ app_prefixes) rqs ->
  ids_fresh view s -> ids_fresh view (perform_all view doc_id rqs s).
Proof.
  revert s. induction rqs as [|rq rqs IH]; intros s Hall Hf; [done|].
  apply Forall_cons in Hall as [Hrq Hall].
  rewrite perform_all_cons. apply IH; [done|]. by apply put_fresh.
Qed.

Lemma run_all_fresh rqs s :
  Forall (fun rq => rq_prefix rq ∈ app_prefixes) rqs ->
  ids_fresh view s ->
  run_all view doc_id rqs s = (perform_all view doc_id rqs s, inr tt).
Proof.
  revert s. induction rqs as [|rq rqs IH]; intros s Hall Hf; [done|].
  apply Forall_cons in Hall as [Hrq Hall].
  rewrite run_all_cons, perform_fresh by done.
  rewrite perform_all_cons. apply IH; [done|]. by apply put_fresh.
Qed.

(** On any view: the requests are performed up to the first the view
    refuses. *)
Lemma run_all_cases rqs s :
  run_all view doc_id rqs s = (perform_all view doc_id rqs s, inr tt)
  ∨ exists rqs1 rq rqs2,
      rqs = rqs1 ++ rq :: rqs2
      ∧ rq_prefix rq +:+ pretty (counter (perform_all view doc_id rqs1 s)
                                   (rq_prefix rq) + 1)%N
        ∈ (ann_id <$> view_annotations (perform_all view doc_id rqs1 s) view)
      ∧ run_all view doc_id rqs s
        = (bump (rq_prefix rq) (perform_all view doc_id rqs1 s), inl KeyError).
Proof.
  revert s. induction rqs as [|rq rqs IH]; intros s; [by left|].
  rewrite run_all_cons.
  destruct (perform_cases rq s) as [[_ ->]|[Hin ->]].
  - rewrite perform_all_cons.
    destruct (IH (put view doc_id rq s))
      as [->|(rqs1 & rq' & rqs2 & -> & Hin & ->)]; [by left|].
    right. exists (rq :: rqs1), rq', rqs2. done.
  - right. exists [], rq, rqs. done.
Qed.

Lemma traced_fresh {A} (m : M A) (t : T A) s :
  traced view doc_id m t ->
  Forall (fun rq => rq_prefix rq ∈ app_prefixes) t.1 ->
  ids_fresh view s ->
  m s = (perform_all view doc_id t.1 s, t.2).
Proof.
  intros Hm Hall Hf. rewrite (traced_unfold _ _ _ _ s Hm).
  by rewrite run_all_fresh.
Qed.

Lemma traced_cases {A} (m : M A) (t : T A) s :
  traced view doc_id m t ->
  m s = (perform_all view doc_id t.1 s, t.2)
  ∨ exists rqs1 rq rqs2,
      t.1 = rqs1 ++ rq :: rqs2
      ∧ rq_prefix rq +:+ pretty (counter (perform_all view doc_id rqs1 s)
                                   (rq_prefix rq) + 1)%N
        ∈ (ann_id <$> view_annotations (perform_all view doc_id rqs1 s) view)
      ∧ m s = (bump (rq_prefix rq) (perform_all view doc_id rqs1 s),
               inl KeyError).
Proof.
  intros Hm. rewrite (traced_unfold _ _ _ _ s Hm).
  destruct (run_all_cases (t.1) s) as [->|(rqs1 & rq & rqs2 & Heq & Hin & ->)];
    [by left|].
  right. by exists rqs1, rq, rqs2.
Qed.

(** What a computation that returns has gone through. *)
Lemma traced_returns {A} (m : M A) (t : T A) s s' (a : A) :
  traced view doc_id m t -> m s = (s', inr a) ->
  t.2 = inr a ∧ s' = perform_all view doc_id t.1 s.
Proof.
  intros Hm Hrun.
  destruct (traced_cases m t s Hm) as [Heq|(rqs1 & rq & rqs2 & _ & _ & Heq)];
    rewrite Heq in Hrun; [|done].
  by injection Hrun as <- ->.
Qed.

Lemma stamp_app ids rqs1 rqs2 :
  stamp doc_id ids (rqs1 ++ rqs2)
  = stamp doc_id ids rqs1 ++ stamp doc_id (ids_after ids rqs1) rqs2.
Proof.
  revert ids. induction rqs1 as [|rq rqs1 IH]; intros ids; [done|].
  simpl. by rewrite IH.
Qed.

Lemma added_performed {A} (m : M A) rqs r s :
  m s = (perform_all view doc_id rqs s, r) ->
  (view < length (views (mmif s)))%nat ->
  added m s view = stamp doc_id (identifiers s) rqs.
Proof.
  intros Hm Hv. unfold added. rewrite Hm; simpl.
  rewrite perform_all_annotations by done. by rewrite drop_app_length.
Qed.

Lemma added_bumped {A} (m : M A) p rqs r s :
  m s = (bump p (perform_all view doc_id rqs s), r) ->
  (view < length (views (mmif s)))%nat ->
  added m s view = stamp doc_id (identifiers s) rqs.
Proof.
  intros Hm Hv. unfold added. rewrite Hm; simpl.
  rewrite view_annotations_bump.
  rewrite perform_all_annotations by done. by rewrite drop_app_length.
Qed.

Lemma added_traced {A} (m : M A) (t : T A) s :
  traced view doc_id m t ->
  Forall (fun rq => rq_prefix rq ∈ app_prefixes) t.1 ->
  ids_fresh view s ->
  (view < length (views (mmif s)))%nat ->
  added m s view = stamp doc_id (identifiers s) t.1.
Proof.
  intros Hm Hall Hf Hv.
  apply (added_performed m t.1 t.2); [|done]. by apply traced_fresh.
Qed.

(** On any view, what is added comes from the first of the requests. *)
Lemma added_traced_any {A} (m : M A) (t : T A) s :
  traced view doc_id m t ->
  (view < length (views (mmif s)))%nat ->
  exists rqs1 rqs2,
    t.1 = rqs1 ++ rqs2 ∧ added m s view = stamp doc_id (identifiers s) rqs1.
Proof.
  intros Hm Hv.
  destruct (traced_cases m t s Hm) as [Heq|(rqs1 & rq & rqs2 & Ht & _ & Heq)].
  - exists t.1, []. rewrite app_nil_r. split; [done|].
    by apply (added_performed m t.1 t.2).
  - exists rqs1, (rq :: rqs2). split; [done|].
    by apply (added_bumped m (rq_prefix rq) rqs1 (inl KeyError)).
Qed.

Lemma added_nothing {A} (m : M A) r s :
  m s = (s, r) -> added m s view = [].
Proof. intros Hm. unfold added. rewrite Hm; simpl. apply drop_all. Qed.

End Runs.

(** ** The entity-type lookup *)

Section EntityType.

Lemma find_dbpedia_type_caught ent e :
  find_dbpedia_type_try ent = inl e -> find_dbpedia_type ent = None.
Proof. unfold find_dbpedia_type. by intros ->. Qed.

Lemma entity_body_no_category view doc_id text_orig tok_idx entity_dict ent s :
  find_dbpedia_type ent = None ->
  entity_body view doc_id text_orig tok_idx entity_dict ent s
  = (s, inr entity_dict).
Proof. unfold entity_body. by intros ->. Qed.

(** C6. When the raw record of an entity is missing, or has no ['@types'],
    or has one that is not a string, the body of the [try] raises,
    [find_dbpedia_type] returns [None], and the entity loop neither adds an
    annotation (the state is unchanged) nor an entry to the registry. *)
Theorem lookup_failure_is_no_category (ent : Span) :
  (dbpedia_raw_result ent = None
   ∨ exists d, dbpedia_raw_result ent = Some d
       ∧ (d !! "@types" = None
          ∨ exists f, d !! "@types" = Some f ∧ forall s, f <> FStr s)) ->
  (exists e, find_dbpedia_type_try ent = inl e)
  ∧ find_dbpedia_type ent = None
  ∧ forall view doc_id text_orig tok_idx entity_dict s,
      entity_body view doc_id text_orig tok_idx entity_dict ent s
      = (s, inr entity_dict).
Proof.
  intros Hraw.
  assert (exists e, find_dbpedia_type_try ent = inl e) as [e He].
  { unfold find_dbpedia_type_try, raw_types.
    destruct Hraw as [->|(d & -> & [->|(f & -> & Hf)])]; simpl; eauto.
    destruct f; simpl; eauto. by destruct (Hf s). }
  pose proof (find_dbpedia_type_caught _ _ He) as Hnone.
  split; [eauto|]. split; [done|].
  intros. by apply entity_body_no_category.
Qed.

Lemma lookup_failure_is_no_category_witness :
  (exists d, dbpedia_raw_result Sample.ent_malformed = Some d
     ∧ exists f, d !! "@types" = Some f ∧ forall s, f <> FStr s)
  ∧ find_dbpedia_type Sample.ent_malformed = None.
Proof.
  assert (exists d, dbpedia_raw_result Sample.ent_malformed = Some d
     ∧ exists f, d !! "@types" = Some f ∧ forall s, f <> FStr s) as Hm.
  { eexists; split; [reflexivity|].
    exists (FList ["DBpedia:Organisation"]). split; [reflexivity|discriminate]. }
  split; [exact Hm|].
  apply (lookup_failure_is_no_category Sample.ent_malformed).
  right. destruct Hm as (d & Hd & f & Hf & Hs). exists d. eauto.
Defined.

End EntityType.

(** ** The offset table and the spans read from it *)

Section Offsets.

Lemma enumerate_snoc {A} (l : list A) x :
  enumerate (l ++ [x]) = enumerate l ++ [(Z.of_nat (length l), x)].
Proof.
  unfold enumerate. rewrite imap_app. simpl. by rewrite Nat.add_0_r.
Qed.

Lemma tok_idx_of_snoc toks t :
  tok_idx_of (toks ++ [t])
  = <[Z.of_nat (length toks) := tok_span t]> (tok_idx_of toks).
Proof. unfold tok_idx_of. rewrite enumerate_snoc, foldl_app. done. Qed.

Lemma tok_idx_of_lookup toks z :
  tok_idx_of toks !! z
  = if decide (0 <= z) then tok_span <$> toks !! Z.to_nat z else None.
Proof.
  induction toks as [|t toks IH] using rev_ind.
  - unfold tok_idx_of; simpl. rewrite lookup_empty. by case_decide.
  - rewrite tok_idx_of_snoc, lookup_insert.
    destruct (decide (Z.of_nat (length toks) = z)) as [<-|Hne].
    + rewrite decide_True by lia. rewrite Nat2Z.id.
      by rewrite list_lookup_middle.
    + rewrite IH. case_decide; [|done].
      destruct (decide (Z.to_nat z < length toks)%nat).
      * by rewrite lookup_app_l.
      * rewrite !lookup_ge_None_2; [done| |lia].
        rewrite length_app; simpl. lia.
Qed.

Lemma tok_idx_of_token toks (n : nat) t :
  toks !! n = Some t -> tok_idx_of toks !! Z.of_nat n = Some (tok_span t).
Proof.
  intros Ht. rewrite tok_idx_of_lookup, decide_True by lia.
  by rewrite Nat2Z.id, Ht.
Qed.

Lemma tok_idx_of_outside toks z :
  z < 0 ∨ Z.of_nat (length toks) <= z -> tok_idx_of toks !! z = None.
Proof.
  intros Hz. rewrite tok_idx_of_lookup. case_decide; [|done].
  rewrite lookup_ge_None_2; [done|lia].
Qed.

End Offsets.

Section OffsetPasses.
Context (view : nat) (doc_id : option string) (text_orig : string).

Lemma for_fold_T_total {A B} (xs : list A) (f : B -> A -> B) (g : A -> Req) acc :
  for_fold xs acc (fun acc x => emit (g x);; mret (f acc x) : T B)
  = (g <$> xs, inr (foldl f acc xs)).
Proof.
  revert acc. induction xs as [|x xs IH]; intros acc; [done|].
  simpl in IH |- *. by rewrite IH.
Qed.

Lemma fmap_enumerate_snd {A B} (g : A -> B) (l : list A) :
  (fun nx => g nx.2) <$> enumerate l = g <$> l.
Proof.
  unfold enumerate. apply list_eq. intros k.
  rewrite !list_lookup_fmap, list_lookup_imap. by destruct (l !! k).
Qed.

Lemma token_pass_T toks :
  for_fold (enumerate toks) ∅ (token_body_T text_orig)
  = (token_req text_orig <$> toks, inr (tok_idx_of toks)).
Proof.
  unfold token_body_T.
  rewrite (for_fold_T_total (enumerate toks)
             (fun m nt => <[nt.1 := (idx nt.2, idx nt.2 + len (text nt.2))]> m)
             (fun nt => token_req text_orig nt.2)).
  by rewrite fmap_enumerate_snd.
Qed.

Lemma token_reqs_prefixes toks :
  Forall (fun rq => rq_prefix rq ∈ app_prefixes) (token_req text_orig <$> toks).
Proof.
  apply Forall_fmap, Forall_forall. intros tok _. apply list_elem_of_here.
Qed.

Lemma token_pass_run toks s :
  ids_fresh view s ->
  for_fold (enumerate toks) ∅ (token_body view doc_id text_orig) s
  = (perform_all view doc_id (token_req text_orig <$> toks) s,
     inr (tok_idx_of toks)).
Proof.
  intros Hf.
  pose proof (traced_for_fold view doc_id (enumerate toks) _
                (token_body_T text_orig)
                (token_body_traced view doc_id text_orig) ∅) as Ht.
  rewrite (traced_fresh view doc_id _ _ s Ht).
  - by rewrite token_pass_T.
  - rewrite token_pass_T. apply token_reqs_prefixes.
  - done.
Qed.

Lemma token_pass_table toks s :
  ids_fresh view s ->
  (for_fold (enumerate toks) ∅ (token_body view doc_id text_orig) s).2
  = inr (tok_idx_of toks).
Proof. intros Hf. by rewrite token_pass_run. Qed.

Lemma token_pass_returned toks s tbl :
  (for_fold (enumerate toks) ∅ (token_body view doc_id text_orig) s).2
  = inr tbl ->
  tbl = tok_idx_of toks.
Proof.
  intros Hrun.
  destruct (for_fold (enumerate toks) ∅ (token_body view doc_id text_orig) s)
    as [s' r] eqn:Hr. simpl in Hrun. subst r.
  apply (traced_returns view doc_id _ _ _ _ _
           (traced_for_fold view doc_id (enumerate toks) _
              (token_body_T text_orig)
              (token_body_traced view doc_id text_orig) ∅)) in Hr as [Hr _].
  rewrite token_pass_T in Hr. by injection Hr as <-.
Qed.

Lemma span_offsets_inside toks span t1 t2 :
  0 <= start span -> 0 < end_ span ->
  toks !! Z.to_nat (start span) = Some t1 ->
  toks !! Z.to_nat (end_ span - 1) = Some t2 ->
  span_offsets (tok_idx_of toks) span = inr (idx t1, idx t2 + len (text t2)).
Proof.
  intros H0 H1 Ht1 Ht2. unfold span_offsets.
  rewrite !tok_idx_of_lookup, !decide_True by lia.
  by rewrite Ht1, Ht2.
Qed.

Lemma span_body_fails tbl ty pre span e s :
  span_offsets tbl span = inl e ->
  span_body view doc_id text_orig tbl ty pre span s = (s, inl e).
Proof. intros He. unfold span_body, mbind, M_bind, lift. by rewrite He. Qed.

End OffsetPasses.

Section SpanTheorems.
Context (view : nat) (doc_id : option string) (text_orig : string).

Lemma char_span_properties a p1 p2 ps :
  properties a = header doc_id (Some p1) (Some p2) ++ ps ->
  char_span a = Some (p1, p2).
Proof. unfold char_span. intros ->. by destruct doc_id. Qed.

Lemma span_props_fresh p1 p2 :
  fresh_props [("text", VStr (py_slice text_orig p1 p2))].
Proof.
  solve_fresh_props.
Qed.

Lemma entity_props_fresh p1 p2 category ent :
  fresh_props (entity_properties text_orig p1 p2 category ent).
Proof.
  solve_fresh_props.
Qed.

(** C7, as the code has it. For an empty range [start = end = k] the
    lookups of [k] and [k - 1] raise [KeyError] when [k <= 0] or [k] is not
    below the number of tokens, and the loop stops there with the state
    unchanged; for [0 < k] below the number of tokens both lookups succeed
    and the span is the start of token [k] and the end of token [k - 1].
    The table is the one the first loop leaves whenever it returns, and
    it returns on a view that refuses none of its identifiers. *)
Theorem empty_range_lookup (toks : list Token) (span : Span) :
  start span = end_ span ->
  (forall s, ids_fresh view s ->
     (for_fold (enumerate toks) ∅ (token_body view doc_id text_orig) s).2
     = inr (tok_idx_of toks))
  ∧ (forall s tok_idx,
       (for_fold (enumerate toks) ∅ (token_body view doc_id text_orig) s).2
       = inr tok_idx ->
       tok_idx = tok_idx_of toks)
  ∧ (start span <= 0 ∨ Z.of_nat (length toks) <= start span ->
       span_offsets (tok_idx_of toks) span = inl KeyError
       ∧ forall ty pre s,
           span_body view doc_id text_orig (tok_idx_of toks) ty pre span s
           = (s, inl KeyError))
  ∧ (forall t1 t0,
       0 < start span ->
       toks !! Z.to_nat (start span) = Some t1 ->
       toks !! Z.to_nat (start span - 1) = Some t0 ->
       span_offsets (tok_idx_of toks) span
       = inr (idx t1, idx t0 + len (text t0))).
Proof.
  intros Hempty. split; [intros s Hf; by apply token_pass_table|].
  split; [intros s tbl; by apply token_pass_returned|]. split.
  - intros Hk.
    assert (span_offsets (tok_idx_of toks) span = inl KeyError) as Hoff.
    { unfold span_offsets.
      destruct (decide (Z.of_nat (length toks) <= start span)).
      - rewrite (tok_idx_of_outside toks (start span)) by lia. done.
      - rewrite (tok_idx_of_outside toks (end_ span - 1)) by lia.
        by destruct (tok_idx_of toks !! start span). }
    split; [done|]. intros ty pre s. by apply span_body_fails.
  - intros t1 t0 Hpos Ht1 Ht0.
    apply span_offsets_inside; [lia|lia|done|]. by rewrite <-Hempty.
Qed.

End SpanTheorems.

Lemma empty_range_lookup_witness :
  start (Sample.plain_span 0 0 Sample.tok_IBM)
  = end_ (Sample.plain_span 0 0 Sample.tok_IBM)
  ∧ span_offsets (tok_idx_of (tokens Sample.doc_IBM))
      (Sample.plain_span 0 0 Sample.tok_IBM) = inl KeyError.
Proof.
  split; [reflexivity|].
  apply (empty_range_lookup 0 None "IBM builds computers"
           (tokens Sample.doc_IBM) (Sample.plain_span 0 0 Sample.tok_IBM));
    [reflexivity | left; simpl; lia].
Defined.

(** C7 fails as stated: an empty noun chunk between the first and the
    second token finds both of its table entries; no lookup raises, the
    chunk is annotated with the span (4, 3), and the document is processed
    to the end. *)
Lemma empty_range_inside_document_no_fault :
  start (Sample.plain_span 1 1 Sample.tok_builds)
  = end_ (Sample.plain_span 1 1 Sample.tok_builds)
  ∧ span_offsets (tok_idx_of (tokens Sample.doc_empty_chunk))
      (Sample.plain_span 1 1 Sample.tok_builds) = inr (4, 3)
  ∧ (annotate_doc 0 None "IBM builds computers" Sample.doc_empty_chunk
       Sample.state0).2 = inr tt.
Proof. repeat split; vm_compute; reflexivity. Qed.

(** ** Loops over requests *)

Section TLoops.

Lemma T_bind_fst {A B} (m : T A) (k : A -> T B) :
  (m ≫= k).1 = m.1 ++ match m.2 with inr a => (k a).1 | inl _ => [] end.
Proof. destruct m as [rqs [e|a]]; simpl; [by rewrite app_nil_r|done]. Qed.

Lemma T_bind_snd {A B} (m : T A) (k : A -> T B) :
  (m ≫= k).2 = match m.2 with inr a => (k a).2 | inl e => inl e end.
Proof. by destruct m as [rqs [e|a]]. Qed.

Lemma T_bind_Forall {A B} (P : Req -> Prop) (m : T A) (k : A -> T B) :
  Forall P m.1 -> (forall a, m.2 = inr a -> Forall P (k a).1) ->
  Forall P (m ≫= k).1.
Proof.
  intros Hm Hk. rewrite T_bind_fst. apply Forall_app. split; [done|].
  destruct m as [rqs [e|a]]; simpl in *; [constructor|by apply Hk].
Qed.

(** An invariant of the accumulator and a property of the requests go
    through a loop, failing or not. *)
Lemma for_fold_T_inv {A B} (I : B -> Prop) (P : Req -> Prop)
    (xs : list A) (body : B -> A -> T B) acc :
  (forall acc x, x ∈ xs -> I acc ->
     Forall P (body acc x).1 ∧ forall acc', (body acc x).2 = inr acc' -> I acc') ->
  I acc ->
  Forall P (for_fold xs acc body).1
  ∧ forall acc', (for_fold xs acc body).2 = inr acc' -> I acc'.
Proof.
  revert acc. induction xs as [|x xs IH]; intros acc Hb Hacc.
  - simpl. split; [constructor|]. by intros acc' [= <-].
  - simpl. destruct (Hb acc x (list_elem_of_here _ _) Hacc) as [HP HI].
    assert (forall a, (body acc x).2 = inr a ->
              Forall P (for_fold xs a body).1
              ∧ forall acc', (for_fold xs a body).2 = inr acc' -> I acc') as Hrest.
    { intros a Ha. apply IH; [|by apply HI].
      intros acc0 x0 Hx0. apply Hb. by apply list_elem_of_further. }
    split.
    + apply T_bind_Forall; [done|]. intros a Ha. by apply Hrest.
    + intros acc'. rewrite T_bind_snd.
      destruct ((body acc x).2) as [e|a] eqn:Ha; [done|].
      by apply Hrest.
Qed.

Lemma for_T_Forall {A} (P : Req -> Prop) (xs : list A) (body : A -> T unit) :
  (forall x, x ∈ xs -> Forall P (body x).1) -> Forall P (for_ xs body).1.
Proof.
  intros Hb. unfold for_.
  apply (for_fold_T_inv (fun _ => True) P xs (fun _ x => body x) tt); [|done].
  intros _ x Hx _. split; [by apply Hb|done].
Qed.

(** A loop whose body does not fail emits the requests of its iterations. *)
Lemma for_T_flat {A} (xs : list A) (body : A -> T unit) :
  (forall x, x ∈ xs -> (body x).2 = inr tt) ->
  for_ xs body = (xs ≫= fun x => (body x).1, inr tt).
Proof.
  unfold for_. induction xs as [|x xs IH]; intros Hb; [done|].
  simpl. pose proof (Hb x (list_elem_of_here _ _)) as Hx.
  destruct (body x) as [rqs r]; simpl in *. subst r. simpl.
  rewrite IH; [done|]. intros y Hy. apply Hb. by apply list_elem_of_further.
Qed.

End TLoops.

(** ** The pre-pass of the uncased model *)

Section Truecase.
Context `{Pipeline}.

Lemma for_fold_imap_snd {A B} (f : nat -> A -> Z * A) (l : list A) (acc : B)
    (body : B -> A -> Res B) :
  (forall n a, (f n a).2 = a) ->
  for_fold (imap f l) acc (fun acc nx => body acc nx.2)
  = for_fold l acc body.
Proof.
  revert f acc. induction l as [|x l IH]; intros f acc Hf; [done|].
  simpl. rewrite Hf. destruct (body acc x) as [e|acc']; simpl; [done|].
  apply IH. intros n a. apply Hf.
Qed.

Lemma py_index_inside (n : nat) (p : Z) :
  0 <= p < Z.of_nat n -> py_index n p = Some (Z.to_nat p).
Proof. intros Hp. unfold py_index. by rewrite decide_True. Qed.

Lemma upcase_start_marked l tok c :
  ent_type_ tok <> EmptyString ->
  0 <= idx tok < Z.of_nat (length l) ->
  l !! Z.to_nat (idx tok) = Some c ->
  upcase_start l tok = inr (<[Z.to_nat (idx tok) := str_upper c]> l).
Proof.
  intros Hent Hp Hc. unfold upcase_start, list_getitem, list_setitem.
  rewrite decide_True by done. rewrite py_index_inside by done.
  by rewrite Hc.
Qed.

Lemma upcase_start_unmarked l tok :
  ~ ent_type_ tok <> EmptyString -> upcase_start l tok = inr l.
Proof. intros Hent. unfold upcase_start. by rewrite decide_False. Qed.

Lemma upcase_fold toks (l : list string) :
  NoDup (entity_starts toks) ->
  (forall p, p ∈ entity_starts toks -> 0 <= p < Z.of_nat (length l)) ->
  for_fold toks l upcase_start = inr (imap (upcase_at (entity_starts toks)) l).
Proof.
  revert l. induction toks as [|tok toks IH]; intros l Hnd Hin.
  - simpl. unfold mret, Res_ret. f_equal. apply list_eq. intros k.
    rewrite list_lookup_imap. by destruct (l !! k).
  - simpl. unfold entity_starts in *.
    destruct (decide (ent_type_ tok <> EmptyString)) as [Hent|Hent].
    + rewrite filter_cons_True in Hnd, Hin |- * by done.
      rewrite fmap_cons in Hnd, Hin |- *.
      apply NoDup_cons in Hnd as [Hfresh Hnd].
      assert (0 <= idx tok < Z.of_nat (length l)) as Hp
        by (apply Hin, list_elem_of_here).
      destruct (lookup_lt_is_Some_2 l (Z.to_nat (idx tok))) as [c Hc]; [lia|].
      rewrite (upcase_start_marked l tok c) by done. simpl.
      rewrite IH; [|done|].
      * f_equal. apply list_eq. intros k. rewrite !list_lookup_imap.
        destruct (decide (k = Z.to_nat (idx tok))) as [->|Hk].
        -- rewrite list_lookup_insert_eq by lia. rewrite Hc. simpl.
           unfold upcase_at. rewrite Z2Nat.id by lia.
           rewrite bool_decide_eq_false_2 by done.
           rewrite bool_decide_eq_true_2; [done|apply list_elem_of_here].
        -- rewrite list_lookup_insert_ne by done.
           destruct (l !! k) as [x|]; [simpl|done]. f_equal.
           unfold upcase_at.
           match goal with
           | |- context [bool_decide (?a ∈ ?b :: ?l)] =>
               assert (a ∈ b :: l <-> a ∈ l) as Hiff
           end.
           { rewrite elem_of_cons. split; [|auto]. intros [?|?]; [lia|done]. }
           by rewrite (bool_decide_ext _ _ Hiff).
      * intros p Hp'. rewrite length_insert. apply Hin. by apply list_elem_of_further.
    + rewrite filter_cons_False in Hnd, Hin |- * by done.
      rewrite upcase_start_unmarked by done. simpl. by apply IH.
Qed.

Lemma py_list_length s : length (py_list s) = String.length s.
Proof. induction s; simpl; congruence. Qed.

(** C4, as the code has it. The text given to the main pipeline is the
    lowercased text in which the character at the start offset of each
    token the uncased model marks as part of an entity is uppercased, and
    no other: of a marked token only the first character is touched. The
    offsets of the marked tokens are distinct positions of the text, as
    spaCy has them. *)
Theorem truecase_uppercases_token_starts (ner_model : string -> Doc)
    (text_orig : string) :
  ner = Some ner_model ->
  NoDup (entity_starts (tokens (ner_model (str_lower text_orig)))) ->
  (forall p, p ∈ entity_starts (tokens (ner_model (str_lower text_orig))) ->
     0 <= p < len (str_lower text_orig)) ->
  input_text_of text_orig
  = inr (py_join
           (imap (fun k c =>
                    if bool_decide
                         (Z.of_nat k
                          ∈ entity_starts (tokens (ner_model (str_lower text_orig))))
                    then str_upper c else c)
              (py_list (str_lower text_orig)))).
Proof.
  intros Hner Hnd Hin. unfold input_text_of. rewrite Hner.
  assert (truecase ner_model text_orig
          = l ← for_fold (tokens (ner_model (str_lower text_orig)))
                  (py_list (str_lower text_orig)) upcase_start;
            mret (py_join l)) as ->.
  { rewrite <-(for_fold_imap_snd (fun n a => (Z.of_nat n, a))) by done.
    reflexivity. }
  rewrite upcase_fold; [done|done|].
  intros p Hp. rewrite py_list_length. by apply Hin.
Qed.

End Truecase.

Lemma truecase_uppercases_token_starts_witness :
  @ner Sample.uncased = Some Sample.sample_ner
  ∧ @input_text_of Sample.uncased "jim lehrer" = inr "Jim Lehrer".
Proof.
  split; [reflexivity|].
  rewrite (@truecase_uppercases_token_starts Sample.uncased Sample.sample_ner
             "jim lehrer").
  - vm_compute. reflexivity.
  - reflexivity.
  - apply (bool_decide_unpack _). vm_compute. exact I.
  - intros p Hp. vm_compute in Hp.
    apply elem_of_cons in Hp as [->|Hp]; [vm_compute; split; [discriminate|reflexivity]|].
    apply elem_of_cons in Hp as [->|Hp]; [vm_compute; split; [discriminate|reflexivity]|].
    by apply elem_of_nil in Hp.
Defined.

(** C4 fails as stated: of the two tokens of "jim lehrer" that the uncased
    model marks, the pre-pass uppercases the first characters only; the
    text with every covered position uppercased is another one. *)
Lemma truecase_leaves_rest_lowercase :
  @input_text_of Sample.uncased "jim lehrer" = inr "Jim Lehrer"
  ∧ @truecase_all_positions Sample.uncased Sample.sample_ner "jim lehrer"
    = "JIM LEHRER"
  ∧ @input_text_of Sample.uncased "jim lehrer"
    <> inr (@truecase_all_positions Sample.uncased Sample.sample_ner
              "jim lehrer").
Proof. repeat split; vm_compute; (reflexivity || discriminate). Qed.

(** ** The two registries *)

Section Registries.
Context (text_orig : string).

Lemma dict_set_Forall {K V} `{EqDecision K} (P : K * V -> Prop) k v
    (d : list (K * V)) :
  P (k, v) -> Forall P d -> Forall P (dict_set k v d).
Proof.
  intros Hkv. induction d as [|[k' v'] d IH]; intros Hd; simpl.
  - by constructor.
  - apply Forall_cons in Hd as [Hh Ht].
    destruct (decide (k = k')); constructor; auto.
Qed.

Lemma token_req_ok tok : req_ok text_orig (token_req text_orig tok).
Proof.
  split; [|split].
  - simpl. unfold app_prefixes. apply list_elem_of_here.
  - simpl. solve_fresh_props.
  - intros k v Hk Hkv. simpl in Hkv. split_elem Hkv; injection Hkv as -> ->.
    + refute_elem Hk.
    + refute_elem Hk.
    + eexists _, _. split; [done|]. by intros _.
    + refute_elem Hk.
Qed.

Lemma span_req_ok ty pre p :
  pre ∈ app_prefixes -> req_ok text_orig (span_req text_orig ty pre p).
Proof.
  intros Hpre. split; [done|split].
  - simpl. solve_fresh_props.
  - intros k v Hk Hkv. simpl in Hkv. split_elem Hkv; injection Hkv as -> ->.
    eexists _, _. split; [done|]. by intros _.
Qed.

Lemma entity_req_ok p c ent : req_ok text_orig (entity_req text_orig p c ent).
Proof.
  split; [|split].
  - simpl. unfold app_prefixes. do 3 apply list_elem_of_further.
    apply list_elem_of_here.
  - simpl. solve_fresh_props.
  - intros k v Hk Hkv. simpl in Hkv. split_elem Hkv; injection Hkv as -> ->.
    + eexists _, _. split; [done|]. by intros _.
    + refute_elem Hk.
    + refute_elem Hk.
    + eexists _, _. split; [done|]. discriminate.
    + refute_elem Hk.
Qed.

Lemma dependency_req_ok tok : req_ok text_orig (dependency_req text_orig tok).
Proof.
  split; [|split].
  - simpl. unfold app_prefixes. do 4 apply list_elem_of_further.
    apply list_elem_of_here.
  - simpl. solve_fresh_props.
  - intros k v Hk Hkv. simpl in Hkv. split_elem Hkv; injection Hkv as -> ->.
    + eexists _, _. split; [done|]. discriminate.
    + refute_elem Hk.
    + refute_elem Hk.
    + refute_elem Hk.
    + eexists _, _. split; [done|]. discriminate.
    + refute_elem Hk.
    + refute_elem Hk.
Qed.

(** *** The loop over the entities *)

Lemma span_pass_T_ok tbl ty pre spans :
  pre ∈ app_prefixes ->
  Forall (req_ok text_orig) (for_ spans (span_body_T text_orig tbl ty pre)).1.
Proof.
  intros Hpre. apply for_T_Forall. intros span _.
  unfold span_body_T, liftT. destruct (span_offsets tbl span) as [e|p]; simpl.
  - constructor.
  - constructor; [by apply span_req_ok|constructor].
Qed.

Lemma entity_pass_T_inv tbl (d : Doc) :
  Forall (req_ok text_orig)
    (for_fold (ents d) [] (entity_body_T text_orig tbl)).1
  ∧ forall ed, (for_fold (ents d) [] (entity_body_T text_orig tbl)).2 = inr ed ->
      NoDup (dict_keys ed) ∧ Forall (entity_entry text_orig d) ed.
Proof.
  apply (for_fold_T_inv
           (fun ed => NoDup (dict_keys ed) ∧ Forall (entity_entry text_orig d) ed)).
  - intros acc ent Hent [Hnd Hall]. unfold entity_body_T, liftT.
    destruct (find_dbpedia_type ent) as [c|] eqn:Hc; simpl.
    + destruct (span_offsets tbl ent) as [e|p]; simpl.
      * split; [constructor|done].
      * split; [constructor; [apply entity_req_ok|constructor]|].
        intros acc' [= <-]. split; [by apply dict_set_NoDup|].
        apply dict_set_Forall; [|done]. by exists ent, p, c.
    + split; [constructor|]. by intros acc' [= <-].
  - split; [apply NoDup_nil_2|constructor].
Qed.

(** *** The second loop over the tokens *)

Lemma dependency_pass_T ed toks :
  for_fold (enumerate toks) ∅ (dependency_body_T text_orig ed)
  = (dependency_req text_orig <$> toks, inr (governer_dict_of text_orig ed toks)).
Proof.
  unfold dependency_body_T.
  rewrite (for_fold_T_total (enumerate toks)
             (fun gd nt =>
                if bool_decide (i nt.2 ∈ dict_keys ed)
                then <[i nt.2 := properties_governer text_orig nt.2]> gd
                else gd)
             (fun nt => dependency_req text_orig nt.2)).
  by rewrite fmap_enumerate_snd.
Qed.

Lemma governer_dict_of_snoc ed toks t :
  governer_dict_of text_orig ed (toks ++ [t])
  = if bool_decide (i t ∈ dict_keys ed)
    then <[i t := properties_governer text_orig t]>
           (governer_dict_of text_orig ed toks)
    else governer_dict_of text_orig ed toks.
Proof. unfold governer_dict_of. by rewrite enumerate_snoc, foldl_app. Qed.

Lemma governer_dict_of_lookup ed toks k ps :
  governer_dict_of text_orig ed toks !! k = Some ps ->
  k ∈ dict_keys ed
  ∧ exists t, t ∈ toks ∧ i t = k ∧ ps = properties_governer text_orig t.
Proof.
  induction toks as [|t toks IH] using rev_ind.
  - unfold governer_dict_of; simpl. by rewrite lookup_empty.
  - rewrite governer_dict_of_snoc. case_bool_decide as Hin.
    + rewrite lookup_insert. case_decide as Hk.
      * intros [= <-]. subst k. split; [done|]. exists t.
        split; [|done]. apply elem_of_app. right. apply list_elem_of_here.
      * intros Hl. destruct (IH Hl) as (? & t' & ? & ? & ?). split; [done|].
        exists t'. split; [|done]. apply elem_of_app. by left.
    + intros Hl. destruct (IH Hl) as (? & t' & ? & ? & ?). split; [done|].
      exists t'. split; [|done]. apply elem_of_app. by left.
Qed.

Lemma governer_dict_of_covers ed toks t :
  t ∈ toks -> i t ∈ dict_keys ed ->
  is_Some (governer_dict_of text_orig ed toks !! i t).
Proof.
  induction toks as [|t' toks IH] using rev_ind.
  - by intros ?%elem_of_nil.
  - intros Ht Hk. rewrite governer_dict_of_snoc.
    apply elem_of_app in Ht as [Ht|Ht%list_elem_of_singleton].
    + case_bool_decide; [|by apply IH].
      rewrite lookup_insert. case_decide; [eauto|by apply IH].
    + subst t'. rewrite bool_decide_eq_true_2 by done.
      rewrite lookup_insert_eq. eauto.
Qed.

End Registries.

(** ** The relations *)

Section Relations.
Context (text_orig : string).

Lemma registries_registered (d : Doc) ed k :
  ents_rooted d ->
  Forall (entity_entry text_orig d) ed ->
  k ∈ dict_keys ed ->
  exists e p t,
    registered text_orig d ed (governer_dict_of text_orig ed (tokens d)) k e p t.
Proof.
  intros Hroot Hall Hk.
  destruct (dict_get_is_Some k ed Hk) as [ps Hps].
  pose proof (dict_get_Some _ _ _ Hps) as Hin.
  rewrite Forall_forall in Hall.
  destruct (Hall _ Hin) as (e & p & c & He & Hc & [= -> ->]).
  unfold ents_rooted in Hroot. rewrite Forall_forall in Hroot.
  destruct (proj1 (Exists_exists _ _) (Hroot e He)) as (t0 & Ht0 & Hi0).
  rewrite <-Hi0 in Hk.
  destruct (governer_dict_of_covers text_orig ed (tokens d) t0 Ht0 Hk)
    as [ps' Hps'].
  destruct (governer_dict_of_lookup text_orig _ _ _ _ Hps')
    as (_ & t & Ht & Hi & ->).
  exists e, p, t. unfold registered. rewrite <-Hi0.
  split; [done|]. split; [done|]. split; [done|]. split; [done|].
  split; [|done]. exists c. split; [done|]. by rewrite Hi0.
Qed.

Lemma relation_body_T_registered d ed gd i1 i2 e1 p1 t1 e2 p2 t2 :
  registered text_orig d ed gd i1 e1 p1 t1 ->
  registered text_orig d ed gd i2 e2 p2 t2 ->
  relation_body_T ed gd i1 i2
  = (if bool_decide (i1 < i2 ∧ i (head t1) = i (head t2))
     then [relation_req (relation_record text_orig t1 t2 e1 e2 p1 p2)]
     else [],
     inr tt).
Proof.
  intros (_ & _ & _ & _ & (c1 & _ & He1) & Hg1)
         (_ & _ & _ & _ & (c2 & _ & He2) & Hg2).
  unfold relation_body_T, relation_test, relation_properties,
    governer_attr, entity_attr.
  rewrite Hg1, Hg2, He1, He2. simpl.
  destruct (decide (i1 < i2)) as [Hlt|Hlt].
  - rewrite (bool_decide_eq_true_2 (i1 < i2)) by done. simpl.
    destruct (decide (i (head t1) = i (head t2))) as [Heq|Hne].
    + rewrite bool_decide_eq_true_2 by (by rewrite Heq).
      rewrite bool_decide_eq_true_2 by done. done.
    + rewrite bool_decide_eq_false_2 by (intros [=]; done).
      rewrite bool_decide_eq_false_2 by (intros [_ ?]; done). done.
  - rewrite (bool_decide_eq_false_2 (i1 < i2)) by done. simpl.
    rewrite bool_decide_eq_false_2 by (intros [? _]; done). done.
Qed.

Lemma relation_lookups_registered d ed gd i1 i2 e1 p1 t1 e2 p2 t2 :
  registered text_orig d ed gd i1 e1 p1 t1 ->
  registered text_orig d ed gd i2 e2 p2 t2 ->
  (exists b, relation_test gd i1 i2 = inr b)
  ∧ exists ps, relation_properties ed gd i1 i2 = inr ps.
Proof.
  intros (_ & _ & _ & _ & (c1 & _ & He1) & Hg1)
         (_ & _ & _ & _ & (c2 & _ & He2) & Hg2).
  unfold relation_test, relation_properties, governer_attr, entity_attr.
  rewrite Hg1, Hg2, He1, He2. simpl. split; [|eauto].
  destruct (bool_decide (i1 < i2)); simpl; eauto.
Qed.

Lemma relation_loop_T_flat d ed gd :
  (forall k, k ∈ dict_keys ed ->
     exists e p t, registered text_orig d ed gd k e p t) ->
  relation_loop_T ed gd
  = (dict_keys ed ≫= (fun i1 =>
       dict_keys ed ≫= (fun i2 => (relation_body_T ed gd i1 i2).1)),
     inr tt).
Proof.
  intros Hreg. unfold relation_loop_T.
  assert (forall i1, i1 ∈ dict_keys ed ->
            for_ (dict_keys ed) (fun i2 => relation_body_T ed gd i1 i2)
            = (dict_keys ed ≫= (fun i2 => (relation_body_T ed gd i1 i2).1),
               inr tt)) as Hinner.
  { intros i1 Hi1. apply for_T_flat. intros i2 Hi2.
    destruct (Hreg i1 Hi1) as (e1 & p1 & t1 & H1).
    destruct (Hreg i2 Hi2) as (e2 & p2 & t2 & H2).
    by rewrite (relation_body_T_registered d ed gd i1 i2 _ _ _ _ _ _ H1 H2). }
  rewrite for_T_flat.
  - f_equal. apply Forall_bind_ext, Forall_forall. intros i1 Hi1.
    by rewrite Hinner.
  - intros i1 Hi1. by rewrite Hinner.
Qed.

Lemma stamp_elem doc_id ids rqs a :
  a ∈ stamp doc_id ids rqs ->
  exists rq (n : N), rq ∈ rqs
    ∧ a = new_annotation (rq_type rq) (rq_prefix rq +:+ pretty n) doc_id
            (rq_start rq) (rq_end rq) (rq_props rq).
Proof.
  revert ids. induction rqs as [|rq rqs IH]; intros ids; simpl.
  - by intros ?%elem_of_nil.
  - intros [->|Ha]%elem_of_cons.
    + eexists rq, _. split; [apply list_elem_of_here|done].
    + destruct (IH _ Ha) as (rq' & n & Hin & ->).
      exists rq', n. split; [by apply list_elem_of_further|done].
Qed.






Lemma passes_registered view doc_id (d : Doc) tok_idx s s1 s2 ed gd :
  ents_rooted d ->
  for_fold (ents d) [] (entity_body view doc_id text_orig tok_idx) s
  = (s1, inr ed) ->
  for_fold (enumerate (tokens d)) ∅
    (dependency_body view doc_id text_orig ed) s1 = (s2, inr gd) ->
  NoDup (dict_keys ed)
  ∧ gd = governer_dict_of text_orig ed (tokens d)
  ∧ forall k, k ∈ dict_keys ed ->
      exists e p t, registered text_orig d ed gd k e p t.
Proof.
  intros Hroot Hed Hgd.
  apply (traced_returns view doc_id _ _ _ _ _
           (traced_for_fold view doc_id (ents d) _ (entity_body_T text_orig tok_idx)
              (entity_body_traced view doc_id text_orig tok_idx) [])) in Hed
    as [Hed _].
  destruct (entity_pass_T_inv text_orig tok_idx d) as [_ Hinv].
  destruct (Hinv ed Hed) as [Hnd Hall].
  apply (traced_returns view doc_id _ _ _ _ _
           (traced_for_fold view doc_id (enumerate (tokens d)) _
              (dependency_body_T text_orig ed)
              (dependency_body_traced view doc_id text_orig ed) ∅)) in Hgd
    as [Hgd _].
  rewrite dependency_pass_T in Hgd. injection Hgd as <-.
  split; [done|]. split; [done|].
  intros k Hk. by apply registries_registered.
Qed.




(** The requests of the relation loop; [Q] is whatever else is known of
    the entity and the token of a key. *)
Lemma relation_loop_T_reqs (Q : Z -> Span -> Z * Z -> Token -> Prop)
    (d : Doc) ed gd rq :
  (forall k, k ∈ dict_keys ed ->
     exists e p t, registered text_orig d ed gd k e p t ∧ Q k e p t) ->
  rq ∈ (relation_loop_T ed gd).1 ->
  exists i1 i2 e1 p1 t1 e2 p2 t2,
    i1 ∈ dict_keys ed ∧ i2 ∈ dict_keys ed
    ∧ registered text_orig d ed gd i1 e1 p1 t1
    ∧ registered text_orig d ed gd i2 e2 p2 t2
    ∧ Q i1 e1 p1 t1 ∧ Q i2 e2 p2 t2
    ∧ i1 < i2 ∧ i (head t1) = i (head t2)
    ∧ rq = relation_req (relation_record text_orig t1 t2 e1 e2 p1 p2).
Proof.
  intros Hreg.
  rewrite (relation_loop_T_flat d)
    by (intros k Hk; destruct (Hreg k Hk) as (e & p & t & Hr & _); eauto).
  simpl.
  intros (i1 & Hrq & Hi1)%list_elem_of_bind.
  apply list_elem_of_bind in Hrq as (i2 & Hrq & Hi2).
  destruct (Hreg i1 Hi1) as (e1 & p1 & t1 & H1 & HQ1).
  destruct (Hreg i2 Hi2) as (e2 & p2 & t2 & H2 & HQ2).
  rewrite (relation_body_T_registered d ed gd i1 i2 _ _ _ _ _ _ H1 H2) in Hrq.
  simpl in Hrq. case_bool_decide as Hc; [|by apply elem_of_nil in Hrq].
  apply list_elem_of_singleton in Hrq. destruct Hc as [Hlt Heq].
  exists i1, i2, e1, p1, t1, e2, p2, t2. done.
Qed.

Lemma relation_record_fresh t1 t2 e1 e2 p1 p2 :
  fresh_props (relation_record text_orig t1 t2 e1 e2 p1 p2).
Proof. solve_fresh_props. Qed.

End Relations.

(** ** Every request of a document *)

Section AllRequests.
Context `{Pipeline}.
Context (text_orig : string).

Lemma relation_properties_ok (d : Doc) ed gd i1 i2 ps :
  Forall (entity_entry text_orig d) ed ->
  (forall k g, gd !! k = Some g ->
     exists t, g = properties_governer text_orig t) ->
  relation_properties ed gd i1 i2 = inr ps ->
  req_ok text_orig (relation_req ps).
Proof.
  intros Hed Hgd Hps.
  assert (forall k e, dict_get k ed = Some e ->
            exists p c ent, e = entity_properties text_orig p.1 p.2 c ent) as Hed'.
  { intros k e He. apply dict_get_Some in He.
    rewrite Forall_forall in Hed.
    destruct (Hed _ He) as (ent & p & c & _ & _ & [= _ ->]). eauto. }
  unfold relation_properties, governer_attr, entity_attr in Hps.
  destruct (gd !! i1) as [g1|] eqn:Hg1; [|done].
  destruct (Hgd _ _ Hg1) as [t1 ->].
  destruct (dict_get i1 ed) as [e1|] eqn:He1; [|done].
  destruct (Hed' _ _ He1) as (p1 & c1 & ent1 & ->).
  destruct (gd !! i2) as [g2|] eqn:Hg2;
    [|simpl in Hps; destruct (dict_get i2 ed) as [e2|] eqn:He2; [|done];
      destruct (Hed' _ _ He2) as (p2 & c2 & ent2 & ->); done].
  destruct (Hgd _ _ Hg2) as [t2 ->].
  destruct (dict_get i2 ed) as [e2|] eqn:He2; [|done].
  destruct (Hed' _ _ He2) as (p2 & c2 & ent2 & ->).
  simpl in Hps. injection Hps as <-.
  split; [|split].
  - simpl. unfold app_prefixes. do 5 apply list_elem_of_further.
    apply list_elem_of_here.
  - simpl. solve_fresh_props.
  - intros k v Hk Hkv. simpl in Hkv.
    split_elem Hkv; injection Hkv as -> ->;
      first [refute_elem Hk
            |eexists _, _; split; [reflexivity|discriminate]].
Qed.

Lemma relation_loop_T_ok (d : Doc) ed gd :
  Forall (entity_entry text_orig d) ed ->
  (forall k g, gd !! k = Some g ->
     exists t, g = properties_governer text_orig t) ->
  Forall (req_ok text_orig) (relation_loop_T ed gd).1.
Proof.
  intros Hed Hgd. unfold relation_loop_T.
  apply for_T_Forall. intros i1 _. apply for_T_Forall. intros i2 _.
  unfold relation_body_T, liftT.
  destruct (relation_test gd i1 i2) as [e|[]]; simpl; [constructor| |constructor].
  destruct (relation_properties ed gd i1 i2) as [e|ps] eqn:Hps; simpl;
    [constructor|].
  constructor; [|constructor]. by apply (relation_properties_ok d ed gd i1 i2).
Qed.

Lemma annotate_doc_T_ok (d : Doc) :
  Forall (req_ok text_orig) (annotate_doc_T text_orig d).1.
Proof.
  unfold annotate_doc_T.
  apply T_bind_Forall.
  { rewrite token_pass_T. simpl. apply Forall_fmap, Forall_forall.
    intros tok _. apply token_req_ok. }
  intros tbl _. apply T_bind_Forall.
  { apply span_pass_T_ok. unfold app_prefixes.
    apply list_elem_of_further, list_elem_of_here. }
  intros _ _. apply T_bind_Forall.
  { apply span_pass_T_ok. unfold app_prefixes.
    do 2 apply list_elem_of_further. apply list_elem_of_here. }
  intros _ _.
  destruct (entity_pass_T_inv text_orig tbl d) as [Hrq Hinv].
  apply T_bind_Forall; [done|].
  intros ed Hed. destruct (Hinv ed Hed) as [_ Hall].
  rewrite dependency_pass_T.
  apply T_bind_Forall.
  { simpl. apply Forall_fmap, Forall_forall. intros tok _.
    apply dependency_req_ok. }
  intros gd [= <-]. apply (relation_loop_T_ok d); [done|].
  intros k g Hg.
  destruct (governer_dict_of_lookup text_orig _ _ _ _ Hg) as (_ & t & _ & _ & ->).
  eauto.
Qed.

End AllRequests.

(** ** The shape of the requests *)

Section Shapes.

Lemma annotate_doc_T_Forall (P : Req -> Prop) text_orig (d : Doc) :
  (forall tok, P (token_req text_orig tok)) ->
  (forall p, P (span_req text_orig NCHUNK "nc" p)) ->
  (forall p, P (span_req text_orig SENTENCE "s" p)) ->
  (forall p c e, P (entity_req text_orig p c e)) ->
  (forall tok, P (dependency_req text_orig tok)) ->
  (forall ed gd i1 i2 ps,
     relation_properties ed gd i1 i2 = inr ps -> P (relation_req ps)) ->
  Forall P (annotate_doc_T text_orig d).1.
Proof.
  intros Htok Hnc Hs Hne Hdep Hrel.
  assert (forall tbl ty pre spans,
            (forall p, P (span_req text_orig ty pre p)) ->
            Forall P (for_ spans (span_body_T text_orig tbl ty pre)).1) as Hspans.
  { intros tbl ty pre spans Hp. apply for_T_Forall. intros span _.
    unfold span_body_T, liftT. destruct (span_offsets tbl span); simpl;
      repeat constructor. apply Hp. }
  unfold annotate_doc_T.
  apply T_bind_Forall.
  { rewrite token_pass_T. simpl. apply Forall_fmap, Forall_forall.
    intros tok _. apply Htok. }
  intros tbl _. apply T_bind_Forall; [by apply Hspans|].
  intros _ _. apply T_bind_Forall; [by apply Hspans|].
  intros _ _. apply T_bind_Forall.
  { apply (for_fold_T_inv (fun _ => True) P); [|done].
    intros acc ent _ _. split; [|done]. unfold entity_body_T, liftT.
    destruct (find_dbpedia_type ent); simpl; [|constructor].
    destruct (span_offsets tbl ent); simpl; repeat constructor. apply Hne. }
  intros ed _. rewrite dependency_pass_T.
  apply T_bind_Forall.
  { simpl. apply Forall_fmap, Forall_forall. intros tok _. apply Hdep. }
  intros gd _. unfold relation_loop_T.
  apply for_T_Forall. intros i1 _. apply for_T_Forall. intros i2 _.
  unfold relation_body_T, liftT.
  destruct (relation_test gd i1 i2) as [e|[]]; simpl; [constructor| |constructor].
  destruct (relation_properties ed gd i1 i2) as [e|ps] eqn:Hps; simpl;
    repeat constructor. by apply (Hrel ed gd i1 i2).
Qed.

Lemma relation_properties_fresh ed gd i1 i2 ps :
  relation_properties ed gd i1 i2 = inr ps -> fresh_props ps.
Proof.
  unfold relation_properties. intros Hps.
  repeat match type of Hps with
         | (?m ≫= _) = inr _ =>
             destruct m as [?|?]; [discriminate Hps|];
             unfold mbind at 1 in Hps; unfold Res_bind at 1 in Hps
         end.
  injection Hps as <-. solve_fresh_props.
Qed.

Lemma annotate_doc_T_shapes text_orig (d : Doc) :
  Forall req_shape (annotate_doc_T text_orig d).1.
Proof.
  assert (forall rq, type_prefix (rq_type rq) = Some (rq_prefix rq) ->
            (rq_start rq = None ∧ rq_end rq = None
             ∧ has_offsets (rq_type rq) = false
             ∨ is_Some (rq_start rq) ∧ is_Some (rq_end rq)
               ∧ has_offsets (rq_type rq) = true) ->
            fresh_props (rq_props rq) -> req_shape rq) as Hshape.
  { intros rq Hp Hoff Hfresh. split; [done|]. split; [|split; [|done]].
    - destruct Hoff as [(-> & _ & ->)|(? & _ & ->)]; [|done].
      split; [by intros [? ?]|done].
    - destruct Hoff as [(_ & -> & ->)|(_ & ? & ->)]; [|done].
      split; [by intros [? ?]|done]. }
  apply annotate_doc_T_Forall.
  - intros tok. apply Hshape; [done|right; simpl; eauto|simpl; solve_fresh_props].
  - intros p. apply Hshape; [done|right; simpl; eauto|simpl; solve_fresh_props].
  - intros p. apply Hshape; [done|right; simpl; eauto|simpl; solve_fresh_props].
  - intros p c e.
    apply Hshape; [done|right; simpl; eauto|simpl; solve_fresh_props].
  - intros tok. apply Hshape; [done|by left|simpl; solve_fresh_props].
  - intros ed gd i1 i2 ps Hps. apply Hshape; [done|by left|].
    by apply (relation_properties_fresh ed gd i1 i2).
Qed.

Lemma type_prefix_app ty p : type_prefix ty = Some p -> p ∈ app_prefixes.
Proof.
  unfold app_prefixes. destruct ty; intros [= <-];
    repeat (first [apply list_elem_of_here|apply list_elem_of_further]).
Qed.

Lemma type_prefix_inj ty1 ty2 p :
  type_prefix ty1 = Some p -> type_prefix ty2 = Some p -> ty1 = ty2.
Proof. destruct ty1, ty2; intros [= <-] [=]; done. Qed.

End Shapes.
(** ** The requests of a parse, from the parse *)

Section Pinned.
Context (text_orig : string).

Lemma dict_get_foldl_set {A} (f : A -> Z) (g : A -> props) (es : list A)
    (acc : list (Z * props)) (k : Z) :
  dict_get k (foldl (fun ed e => dict_set (f e) (g e) ed) acc es)
  = match last (filter (fun e => f e = k) es) with
    | Some e => Some (g e)
    | None => dict_get k acc
    end.
Proof.
  revert acc. induction es as [|e es IH]; intros acc; [done|].
  simpl. rewrite IH, filter_cons, dict_get_set.
  destruct (decide (f e = k)) as [Hk|Hk].
  - rewrite last_cons. destruct (last (filter (fun e0 => f e0 = k) es)); [done|].
    by rewrite decide_True.
  - destruct (last (filter (fun e0 => f e0 = k) es)); [done|].
    by rewrite decide_False.
Qed.

Lemma dict_keys_foldl_set {A} (f : A -> Z) (g : A -> props) (es : list A)
    (acc : list (Z * props)) (k : Z) :
  k ∈ dict_keys (foldl (fun ed e => dict_set (f e) (g e) ed) acc es)
  <-> k ∈ dict_keys acc ∨ exists e, e ∈ es ∧ f e = k.
Proof.
  revert acc. induction es as [|e es IH]; intros acc.
  - simpl. split; [auto|]. intros [?|(e & ?%elem_of_nil & _)]; done.
  - simpl. rewrite IH, dict_set_keys_elem. split.
    + intros [[->|?]|(e' & He' & Hk)]; [|by left|].
      * right. exists e. split; [apply list_elem_of_here|done].
      * right. exists e'. split; [by apply list_elem_of_further|done].
    + intros [?|(e' & He' & Hk)]; [by left; right|].
      apply elem_of_cons in He' as [->|He']; [by left; left|].
      right. by exists e'.
Qed.


Lemma entity_at_filter (d : Doc) k :
  entity_at d k
  = last (filter (fun e => i (root e) = k) (filter categorized (ents d))).
Proof.
  unfold entity_at. rewrite list_filter_filter. f_equal.
  apply list_filter_iff. intros e. tauto.
Qed.

Lemma entity_at_elem (d : Doc) k e :
  entity_at d k = Some e -> e ∈ ents d ∧ categorized e ∧ i (root e) = k.
Proof.
  unfold entity_at. intros He%last_Some_elem_of.
  apply list_elem_of_filter in He. tauto.
Qed.

Lemma token_at_elem (d : Doc) k t :
  token_at d k = Some t -> t ∈ tokens d ∧ i t = k.
Proof.
  unfold token_at. intros Ht%last_Some_elem_of.
  apply list_elem_of_filter in Ht. tauto.
Qed.

Lemma token_at_is_Some (d : Doc) t :
  t ∈ tokens d -> is_Some (token_at d (i t)).
Proof.
  intros Ht. unfold token_at. apply last_is_Some. intros Hnil.
  by apply (filter_nil_not_elem_of _ _ t Hnil).
Qed.

Lemma entity_at_is_Some (d : Doc) e :
  e ∈ ents d -> categorized e -> is_Some (entity_at d (i (root e))).
Proof.
  intros He Hc. unfold entity_at. apply last_is_Some. intros Hnil.
  by apply (filter_nil_not_elem_of _ _ e Hnil).
Qed.

Lemma entity_dict_of_get (d : Doc) k :
  dict_get k (entity_dict_of text_orig d)
  = entity_record text_orig d <$> entity_at d k.
Proof.
  unfold entity_dict_of. rewrite dict_get_foldl_set, entity_at_filter.
  by destruct (last _).
Qed.

Lemma entity_dict_of_keys (d : Doc) k :
  k ∈ dict_keys (entity_dict_of text_orig d) <-> is_Some (entity_at d k).
Proof.
  unfold entity_dict_of. rewrite dict_keys_foldl_set. split.
  - intros [?%elem_of_nil|(e & He & Hk)]; [done|].
    apply list_elem_of_filter in He as [Hc He]. subst k.
    by apply entity_at_is_Some.
  - intros [e He]. right. exists e.
    apply entity_at_elem in He as (He & Hc & Hk).
    split; [|done]. by apply list_elem_of_filter.
Qed.


Lemma governer_dict_of_at ed (d : Doc) k :
  governer_dict_of text_orig ed (tokens d) !! k
  = if bool_decide (k ∈ dict_keys ed)
    then properties_governer text_orig <$> token_at d k
    else None.
Proof.
  unfold token_at. induction (tokens d) as [|t toks IH] using rev_ind.
  - unfold governer_dict_of; simpl. rewrite lookup_empty. by case_bool_decide.
  - rewrite governer_dict_of_snoc, filter_app, last_app, filter_cons, filter_nil.
    destruct (decide (k ∈ dict_keys ed)) as [Hk|Hk].
    + rewrite (bool_decide_eq_true_2 (k ∈ dict_keys ed)) in IH |- * by done.
      destruct (decide (i t = k)) as [Heq|Hne].
      * rewrite Heq, (bool_decide_eq_true_2 (k ∈ dict_keys ed)) by done.
        by rewrite lookup_insert_eq.
      * simpl. case_bool_decide; [by rewrite lookup_insert_ne|done].
    + rewrite (bool_decide_eq_false_2 (k ∈ dict_keys ed)) in IH |- * by done.
      case_bool_decide as Hin; [|done].
      rewrite lookup_insert_ne; [done|]. by intros <-.
Qed.

Lemma span_chars_in_doc (d : Doc) sp :
  span_in_doc d sp ->
  exists p, span_chars d sp = Some p
    ∧ span_offsets (tok_idx_of (tokens d)) sp = inr p.
Proof.
  intros [Hr He].
  destruct (lookup_lt_is_Some_2 (tokens d) (Z.to_nat (start sp))) as [t1 Ht1];
    [lia|].
  destruct (lookup_lt_is_Some_2 (tokens d) (Z.to_nat (end_ sp - 1))) as [t2 Ht2];
    [lia|].
  exists (idx t1, idx t2 + len (text t2)). split.
  - unfold span_chars. by rewrite Ht1, Ht2.
  - apply (span_offsets_inside (tokens d) sp t1 t2); (lia || done).
Qed.

Lemma span_offsets_in_doc (d : Doc) sp :
  span_in_doc d sp ->
  span_offsets (tok_idx_of (tokens d)) sp = inr (chars_of d sp).
Proof.
  intros Hsp. destruct (span_chars_in_doc d sp Hsp) as (p & Hc & ->).
  unfold chars_of. by rewrite Hc.
Qed.

Lemma span_chars_of (d : Doc) sp :
  span_in_doc d sp -> span_chars d sp = Some (chars_of d sp).
Proof.
  intros Hsp. destruct (span_chars_in_doc d sp Hsp) as (p & Hc & _).
  unfold chars_of. by rewrite Hc.
Qed.

Lemma category_of_Some e c : find_dbpedia_type e = Some c -> category_of e = c.
Proof. unfold category_of. by intros ->. Qed.

Lemma categorized_category e :
  categorized e -> find_dbpedia_type e = Some (category_of e).
Proof. intros [c Hc]. by rewrite (category_of_Some e c). Qed.

Lemma T_bind_ok {A B} rqs (a : A) (k : A -> T B) :
  ((rqs, inr a) : T A) ≫= k = (rqs ++ (k a).1, (k a).2).
Proof. done. Qed.

Lemma T_bind_fail {A B} rqs e (k : A -> T B) :
  ((rqs, inl e) : T A) ≫= k = (rqs, inl e).
Proof. done. Qed.

Lemma for_fold_T_cons {A B} (x : A) xs (acc : B) (body : B -> A -> T B) :
  for_fold (x :: xs) acc body = body acc x ≫= fun acc' => for_fold xs acc' body.
Proof. done. Qed.

Lemma span_body_T_in_doc (d : Doc) ty pre sp :
  span_in_doc d sp ->
  span_body_T text_orig (tok_idx_of (tokens d)) ty pre sp
  = ([span_req text_orig ty pre (chars_of d sp)], inr tt).
Proof.
  intros Hsp. unfold span_body_T, liftT.
  by rewrite (span_offsets_in_doc d sp Hsp).
Qed.

Lemma span_pass_T_wf (d : Doc) ty pre spans :
  Forall (span_in_doc d) spans ->
  for_ spans (span_body_T text_orig (tok_idx_of (tokens d)) ty pre)
  = ((fun sp => span_req text_orig ty pre (chars_of d sp)) <$> spans, inr tt).
Proof.
  intros Hall. rewrite for_T_flat.
  - f_equal. induction Hall as [|sp spans Hsp _ IH]; [done|].
    rewrite bind_cons, fmap_cons, IH, span_body_T_in_doc by done. done.
  - intros sp Hsp. rewrite Forall_forall in Hall.
    by rewrite span_body_T_in_doc by auto.
Qed.

Lemma entity_body_T_in_doc (d : Doc) acc e :
  span_in_doc d e ->
  entity_body_T text_orig (tok_idx_of (tokens d)) acc e
  = if decide (categorized e)
    then ([entity_req text_orig (chars_of d e) (category_of e) e],
          inr (dict_set (i (root e)) (entity_record text_orig d e) acc))
    else ([], inr acc).
Proof.
  intros Hsp. unfold entity_body_T, liftT, entity_record.
  rewrite (span_offsets_in_doc d e Hsp).
  destruct (decide (categorized e)) as [Hcat|Hcat].
  - rewrite (categorized_category e Hcat). done.
  - destruct (find_dbpedia_type e) as [c|] eqn:Hc; [|done].
    destruct Hcat. unfold categorized. rewrite Hc. eauto.
Qed.

Lemma entity_pass_T_wf (d : Doc) es acc :
  Forall (span_in_doc d) es ->
  for_fold es acc (entity_body_T text_orig (tok_idx_of (tokens d)))
  = ((fun e => entity_req text_orig (chars_of d e) (category_of e) e)
       <$> filter categorized es,
     inr (foldl (fun ed e => dict_set (i (root e)) (entity_record text_orig d e) ed)
            acc (filter categorized es))).
Proof.
  intros Hall. revert acc. induction Hall as [|e es He _ IH]; intros acc; [done|].
  rewrite for_fold_T_cons, entity_body_T_in_doc, filter_cons by done.
  destruct (decide (categorized e)); rewrite T_bind_ok, IH; done.
Qed.

(** On a well-formed parse every key of the entity registry is in both
    registries, for the entity and the token the parse has at that index. *)
Lemma registered_wf (d : Doc) k :
  doc_wf d ->
  k ∈ dict_keys (entity_dict_of text_orig d) ->
  exists e p t,
    registered text_orig d (entity_dict_of text_orig d)
      (governer_dict_of text_orig (entity_dict_of text_orig d) (tokens d))
      k e p t
    ∧ pinned d k e p t.
Proof.
  intros (_ & _ & Hents & Hroot) Hk.
  pose proof Hk as [e He]%entity_dict_of_keys.
  pose proof (entity_at_elem d k e He) as (Hin & Hc & Hroot_k).
  rewrite Forall_forall in Hents. pose proof (Hents e Hin) as Hsp.
  unfold ents_rooted in Hroot. rewrite Forall_forall in Hroot.
  destruct (proj1 (Exists_exists _ _) (Hroot e Hin)) as (t0 & Ht0 & Hi0).
  destruct (token_at_is_Some d t0 Ht0) as [t Ht].
  rewrite Hi0, Hroot_k in Ht.
  pose proof (token_at_elem d k t Ht) as [Htin Hti].
  exists e, (chars_of d e), t. split.
  - split; [done|]. split; [done|]. split; [done|]. split; [done|].
    split.
    + exists (category_of e). split; [by apply categorized_category|].
      by rewrite entity_dict_of_get, He.
    + rewrite governer_dict_of_at, bool_decide_eq_true_2 by done.
      by rewrite Ht.
  - split; [done|]. split; [done|]. by apply span_chars_of.
Qed.

(** The requests of a well-formed parse. *)
Lemma annotate_doc_T_wf (d : Doc) :
  doc_wf d -> annotate_doc_T text_orig d = (expected_reqs text_orig d, inr tt).
Proof.
  intros Hwf. pose proof Hwf as (Hchunks & Hsents & Hents & Hroot).
  unfold annotate_doc_T, expected_reqs.
  rewrite token_pass_T, T_bind_ok.
  rewrite span_pass_T_wf, T_bind_ok by done.
  rewrite span_pass_T_wf, T_bind_ok by done.
  rewrite entity_pass_T_wf, T_bind_ok by done.
  fold (entity_dict_of text_orig d).
  rewrite dependency_pass_T, T_bind_ok.
  rewrite (relation_loop_T_flat text_orig d).
  - done.
  - intros k Hk. destruct (registered_wf d k Hwf Hk) as (e & p & t & Hr & _).
    eauto.
Qed.

Lemma expected_reqs_prefixes (d : Doc) :
  doc_wf d ->
  Forall (fun rq => rq_prefix rq ∈ app_prefixes) (expected_reqs text_orig d).
Proof.
  intros Hwf. pose proof (annotate_doc_T_ok text_orig d) as Hok.
  rewrite annotate_doc_T_wf in Hok by done.
  eapply Forall_impl; [exact Hok|]. by intros rq [? _].
Qed.

End Pinned.
(** ** A call of [_add_tool_output] *)

Section Calls.
Context `{Pipeline}.

Lemma read_text_state doc s : (_read_text doc s).1 = s.
Proof. unfold _read_text. by destruct (truthy (location doc)). Qed.

Lemma read_text_any_state doc s s' : (_read_text doc s).2 = (_read_text doc s').2.
Proof. unfold _read_text. by destruct (truthy (location doc)). Qed.

Lemma add_tool_output_read_fails doc view doc_id s e :
  (_read_text doc s).2 = inl e ->
  _add_tool_output doc view doc_id s = (s, inl e).
Proof.
  intros Hr. unfold _add_tool_output, mbind, M_bind.
  pose proof (read_text_state doc s) as Hs.
  destruct (_read_text doc s) as [s' r]; simpl in *. by subst.
Qed.

Lemma add_tool_output_prepass_fails doc view doc_id s text_orig e :
  (_read_text doc s).2 = inr text_orig ->
  input_text_of text_orig = inl e ->
  _add_tool_output doc view doc_id s = (s, inl e).
Proof.
  intros Hr Hi. unfold _add_tool_output, mbind, M_bind.
  pose proof (read_text_state doc s) as Hs.
  destruct (_read_text doc s) as [s' r]; simpl in *. subst.
  unfold lift. by rewrite Hi.
Qed.

Lemma add_tool_output_parse doc view doc_id s text_orig input_text :
  (_read_text doc s).2 = inr text_orig ->
  input_text_of text_orig = inr input_text ->
  _add_tool_output doc view doc_id s
  = annotate_doc view doc_id text_orig (nlp input_text) s.
Proof.
  intros Hr Hi. unfold _add_tool_output, mbind, M_bind.
  pose proof (read_text_state doc s) as Hs.
  destruct (_read_text doc s) as [s' r]; simpl in *. subst.
  unfold lift. by rewrite Hi.
Qed.

Lemma annotate_doc_T_prefixes text_orig (d : Doc) :
  Forall (fun rq => rq_prefix rq ∈ app_prefixes) (annotate_doc_T text_orig d).1.
Proof.
  pose proof (annotate_doc_T_ok text_orig d) as Hok.
  eapply Forall_impl; [exact Hok|]. by intros rq [? _].
Qed.

(** On a view that refuses nothing, the call performs the requests of the
    parse. *)
Lemma add_tool_output_run doc view doc_id s text_orig input_text :
  ids_fresh view s ->
  (_read_text doc s).2 = inr text_orig ->
  input_text_of text_orig = inr input_text ->
  _add_tool_output doc view doc_id s
  = (perform_all view doc_id (annotate_doc_T text_orig (nlp input_text)).1 s,
     (annotate_doc_T text_orig (nlp input_text)).2).
Proof.
  intros Hf Hr Hi.
  rewrite (add_tool_output_parse doc view doc_id s text_orig input_text Hr Hi).
  apply traced_fresh;
    [apply annotate_doc_traced|apply annotate_doc_T_prefixes|done].
Qed.

Lemma add_tool_output_wf doc view doc_id s text_orig input_text :
  ids_fresh view s ->
  (_read_text doc s).2 = inr text_orig ->
  input_text_of text_orig = inr input_text ->
  doc_wf (nlp input_text) ->
  _add_tool_output doc view doc_id s
  = (perform_all view doc_id (expected_reqs text_orig (nlp input_text)) s,
     inr tt).
Proof.
  intros Hf Hr Hi Hwf.
  rewrite (add_tool_output_run doc view doc_id s text_orig input_text Hf Hr Hi).
  by rewrite annotate_doc_T_wf.
Qed.

Lemma added_wf doc (view : nat) doc_id s text_orig input_text :
  (view < length (views (mmif s)))%nat ->
  ids_fresh view s ->
  (_read_text doc s).2 = inr text_orig ->
  input_text_of text_orig = inr input_text ->
  doc_wf (nlp input_text) ->
  added (_add_tool_output doc view doc_id) s view
  = stamp doc_id (identifiers s) (expected_reqs text_orig (nlp input_text)).
Proof.
  intros Hv Hf Hr Hi Hwf.
  apply (added_performed view doc_id _ _ (inr tt)); [|done].
  by apply add_tool_output_wf.
Qed.

(** On a view that refuses nothing, whatever the parse: the call performs
    requests of which [P] holds, when it holds of the requests of every
    parse. *)
Lemma add_tool_output_fresh (P : Req -> Prop) doc (view : nat) doc_id s :
  (forall text_orig input_text,
     (_read_text doc s).2 = inr text_orig ->
     Forall P (annotate_doc_T text_orig (nlp input_text)).1) ->
  ids_fresh view s ->
  exists rqs,
    _add_tool_output doc view doc_id s
    = (perform_all view doc_id rqs s, (_add_tool_output doc view doc_id s).2)
    ∧ Forall (fun rq => rq_prefix rq ∈ app_prefixes) rqs
    ∧ Forall P rqs.
Proof.
  intros HP Hf.
  destruct ((_read_text doc s).2) as [e|text_orig] eqn:Hread.
  { exists []. rewrite (add_tool_output_read_fails doc view doc_id s e Hread).
    split; [done|]. split; constructor. }
  destruct (input_text_of text_orig) as [e|input_text] eqn:Hin.
  { exists [].
    rewrite (add_tool_output_prepass_fails doc view doc_id s text_orig e Hread Hin).
    split; [done|]. split; constructor. }
  exists (annotate_doc_T text_orig (nlp input_text)).1.
  rewrite (add_tool_output_run doc view doc_id s text_orig input_text Hf Hread Hin).
  split; [done|]. split; [apply annotate_doc_T_prefixes|by apply HP].
Qed.

(** On any view: the call performs the first of the requests of the parse,
    up to one that the view refuses; a refusal leaves the counter of its
    prefix moved. *)
Lemma add_tool_output_any (P : Req -> Prop) doc (view : nat) doc_id s :
  (forall text_orig input_text,
     (_read_text doc s).2 = inr text_orig ->
     Forall P (annotate_doc_T text_orig (nlp input_text)).1) ->
  exists rqs,
    Forall P rqs
    ∧ ((_add_tool_output doc view doc_id s).1 = perform_all view doc_id rqs s
       ∨ exists p, (_add_tool_output doc view doc_id s).1
                   = bump p (perform_all view doc_id rqs s)).
Proof.
  intros HP.
  destruct ((_read_text doc s).2) as [e|text_orig] eqn:Hread.
  { exists []. rewrite (add_tool_output_read_fails doc view doc_id s e Hread).
    split; [constructor|by left]. }
  destruct (input_text_of text_orig) as [e|input_text] eqn:Hin.
  { exists [].
    rewrite (add_tool_output_prepass_fails doc view doc_id s text_orig e Hread Hin).
    split; [constructor|by left]. }
  rewrite (add_tool_output_parse doc view doc_id s text_orig input_text Hread Hin).
  specialize (HP text_orig input_text eq_refl).
  destruct (traced_cases view doc_id _ _ s
              (annotate_doc_traced view doc_id text_orig (nlp input_text)))
    as [->|(rqs1 & rq & rqs2 & Heq & _ & ->)].
  - eexists. split; [exact HP|by left].
  - exists rqs1. rewrite Heq in HP. apply Forall_app in HP as [HP1 _].
    split; [done|]. right. by exists (rq_prefix rq).
Qed.

Lemma added_any (P : Req -> Prop) doc (view : nat) doc_id s :
  (forall text_orig input_text,
     (_read_text doc s).2 = inr text_orig ->
     Forall P (annotate_doc_T text_orig (nlp input_text)).1) ->
  (view < length (views (mmif s)))%nat ->
  exists rqs,
    Forall P rqs
    ∧ added (_add_tool_output doc view doc_id) s view
      = stamp doc_id (identifiers s) rqs.
Proof.
  intros HP Hv.
  destruct (add_tool_output_any P doc view doc_id s HP) as (rqs & Hall & Hs).
  exists rqs. split; [done|].
  destruct Hs as [Hs|[p Hs]].
  - apply (added_performed view doc_id _ rqs (_add_tool_output doc view doc_id s).2);
      [|done].
    rewrite <-Hs. by destruct (_add_tool_output doc view doc_id s).
  - apply (added_bumped view doc_id _ p rqs (_add_tool_output doc view doc_id s).2);
      [|done].
    rewrite <-Hs. by destruct (_add_tool_output doc view doc_id s).
Qed.

End Calls.
(** ** The annotations of a well-formed parse *)

Section Stamps.
Context (doc_id : option string).

Lemma stamp_length ids rqs : length (stamp doc_id ids rqs) = length rqs.
Proof.
  revert ids. induction rqs as [|rq rqs IH]; intros ids; [done|].
  simpl. by rewrite IH.
Qed.

Lemma stamp_types ids rqs :
  at_type <$> stamp doc_id ids rqs = rq_type <$> rqs.
Proof.
  revert ids. induction rqs as [|rq rqs IH]; intros ids; [done|].
  simpl. rewrite new_annotation_type. f_equal. apply IH.
Qed.

Lemma stamp_lookup ids rqs (k : nat) rq :
  rqs !! k = Some rq ->
  exists n : N,
    stamp doc_id ids rqs !! k
    = Some (new_annotation (rq_type rq) (rq_prefix rq +:+ pretty n) doc_id
              (rq_start rq) (rq_end rq) (rq_props rq)).
Proof.
  revert ids k. induction rqs as [|rq' rqs IH]; intros ids k Hk; [done|].
  destruct k as [|k].
  - injection Hk as ->. eexists. reflexivity.
  - apply (IH (<[rq_prefix rq' := (default 0 (ids !! rq_prefix rq') + 1)%N]> ids) k Hk).
Qed.

Lemma stamp_app_lookup ids rqs1 rqs2 (k : nat) :
  (k < length rqs1)%nat ->
  stamp doc_id ids (rqs1 ++ rqs2) !! k = stamp doc_id ids rqs1 !! k.
Proof.
  intros Hk. rewrite stamp_app, lookup_app_l; [done|].
  by rewrite stamp_length.
Qed.

Lemma stamp_uniform p ids rqs (k : nat) :
  Forall (fun rq => rq_prefix rq = p) rqs ->
  stamp doc_id ids rqs !! k
  = (fun rq =>
       new_annotation (rq_type rq)
         (p +:+ pretty (default 0 (ids !! p) + N.of_nat k + 1)%N) doc_id
         (rq_start rq) (rq_end rq) (rq_props rq)) <$> rqs !! k.
Proof.
  revert ids k. induction rqs as [|rq rqs IH]; intros ids k Hall; [done|].
  apply Forall_cons in Hall as [Hp Hall]. destruct k as [|k].
  - change (Some (new_annotation (rq_type rq)
              (rq_prefix rq +:+ pretty (default 0 (ids !! rq_prefix rq) + 1)%N)
              doc_id (rq_start rq) (rq_end rq) (rq_props rq))
            = Some (new_annotation (rq_type rq)
              (p +:+ pretty (default 0 (ids !! p) + N.of_nat 0 + 1)%N)
              doc_id (rq_start rq) (rq_end rq) (rq_props rq))).
    rewrite Hp. replace (default 0 (ids !! p) + N.of_nat 0 + 1)%N
      with (default 0 (ids !! p) + 1)%N by lia. done.
  - change (stamp doc_id (<[rq_prefix rq := (default 0 (ids !! rq_prefix rq) + 1)%N]> ids) rqs !! k
            = (fun rq0 => new_annotation (rq_type rq0)
                 (p +:+ pretty (default 0 (ids !! p) + N.of_nat (S k) + 1)%N)
                 doc_id (rq_start rq0) (rq_end rq0) (rq_props rq0)) <$> rqs !! k).
    rewrite (IH _ k Hall), Hp, lookup_insert_eq.
    destruct (rqs !! k) as [rq'|]; [|done].
    change (Some (new_annotation (rq_type rq')
              (p +:+ pretty (default 0 (ids !! p) + 1 + N.of_nat k + 1)%N)
              doc_id (rq_start rq') (rq_end rq') (rq_props rq'))
            = Some (new_annotation (rq_type rq')
              (p +:+ pretty (default 0 (ids !! p) + N.of_nat (S k) + 1)%N)
              doc_id (rq_start rq') (rq_end rq') (rq_props rq'))).
    replace (default 0 (ids !! p) + 1 + N.of_nat k + 1)%N
      with (default 0 (ids !! p) + N.of_nat (S k) + 1)%N by lia. done.
Qed.

Lemma fmap_replicate_Forall {A B} (f : A -> B) (y : B) (l : list A) :
  Forall (fun x => f x = y) l -> f <$> l = replicate (length l) y.
Proof.
  induction 1 as [|x l Hx _ IH]; [done|].
  rewrite fmap_cons, Hx, IH. done.
Qed.

Lemma lookup_app_plus {A} (l1 l2 : list A) (n k : nat) :
  length l1 = n -> (l1 ++ l2) !! (n + k)%nat = l2 !! k.
Proof.
  intros <-. rewrite lookup_app_r by lia. f_equal. lia.
Qed.

Lemma dict_get_header_text st en k ps :
  k ∈ text_keys ->
  dict_get k (header doc_id st en ++ ps) = dict_get k ps.
Proof.
  intros Hk. rewrite dict_get_app.
  assert (dict_get k (header doc_id st en) = None) as ->; [|done].
  assert (k <> "document" ∧ k <> "start" ∧ k <> "end") as (H1 & H2 & H3).
  { repeat split; intros ->; refute_elem Hk. }
  destruct doc_id, st, en; simpl;
    repeat (destruct (decide _); [done|]); done.
Qed.

End Stamps.

Section Expected.
Context (text_orig : string) (d : Doc).

Lemma expected_token (k : nat) t :
  tokens d !! k = Some t ->
  expected_reqs text_orig d !! k = Some (token_req text_orig t).
Proof.
  intros Ht. unfold expected_reqs. rewrite lookup_app_l.
  - by rewrite list_lookup_fmap, Ht.
  - rewrite length_fmap. by apply lookup_lt_is_Some_1.
Qed.

Lemma expected_chunk (k : nat) sp :
  noun_chunks d !! k = Some sp ->
  expected_reqs text_orig d !! (length (tokens d) + k)%nat
  = Some (span_req text_orig NCHUNK "nc" (chars_of d sp)).
Proof.
  intros Hsp. unfold expected_reqs.
  rewrite lookup_app_plus by apply length_fmap.
  rewrite lookup_app_l.
  - by rewrite list_lookup_fmap, Hsp.
  - rewrite length_fmap. by apply lookup_lt_is_Some_1.
Qed.

Lemma expected_sent (k : nat) sp :
  sents d !! k = Some sp ->
  expected_reqs text_orig d
    !! (length (tokens d) + length (noun_chunks d) + k)%nat
  = Some (span_req text_orig SENTENCE "s" (chars_of d sp)).
Proof.
  intros Hsp. unfold expected_reqs.
  rewrite <-Nat.add_assoc.
  rewrite lookup_app_plus by apply length_fmap.
  rewrite lookup_app_plus by apply length_fmap.
  rewrite lookup_app_l.
  - by rewrite list_lookup_fmap, Hsp.
  - rewrite length_fmap. by apply lookup_lt_is_Some_1.
Qed.

Lemma expected_entity (k : nat) e :
  filter categorized (ents d) !! k = Some e ->
  expected_reqs text_orig d
    !! (length (tokens d) + length (noun_chunks d) + length (sents d) + k)%nat
  = Some (entity_req text_orig (chars_of d e) (category_of e) e).
Proof.
  intros He. unfold expected_reqs.
  rewrite <-!Nat.add_assoc.
  rewrite lookup_app_plus by apply length_fmap.
  rewrite lookup_app_plus by apply length_fmap.
  rewrite lookup_app_plus by apply length_fmap.
  rewrite lookup_app_l.
  - by rewrite list_lookup_fmap, He.
  - rewrite length_fmap. by apply lookup_lt_is_Some_1.
Qed.

Lemma expected_dependency (k : nat) t :
  tokens d !! k = Some t ->
  expected_reqs text_orig d
    !! (length (tokens d) + length (noun_chunks d) + length (sents d)
        + length (filter categorized (ents d)) + k)%nat
  = Some (dependency_req text_orig t).
Proof.
  intros Ht. unfold expected_reqs.
  rewrite <-!Nat.add_assoc.
  rewrite lookup_app_plus by apply length_fmap.
  rewrite lookup_app_plus by apply length_fmap.
  rewrite lookup_app_plus by apply length_fmap.
  rewrite lookup_app_plus by apply length_fmap.
  rewrite lookup_app_l.
  - by rewrite list_lookup_fmap, Ht.
  - rewrite length_fmap. by apply lookup_lt_is_Some_1.
Qed.

(** A request of the parse is one of the six. *)
Lemma expected_elem rq :
  rq ∈ expected_reqs text_orig d ->
  (exists t, t ∈ tokens d ∧ rq = token_req text_orig t)
  ∨ (exists sp, sp ∈ noun_chunks d
       ∧ rq = span_req text_orig NCHUNK "nc" (chars_of d sp))
  ∨ (exists sp, sp ∈ sents d
       ∧ rq = span_req text_orig SENTENCE "s" (chars_of d sp))
  ∨ (exists e, e ∈ ents d ∧ categorized e
       ∧ rq = entity_req text_orig (chars_of d e) (category_of e) e)
  ∨ (exists t, t ∈ tokens d ∧ rq = dependency_req text_orig t)
  ∨ rq ∈ relation_reqs (entity_dict_of text_orig d)
           (governer_dict_of text_orig (entity_dict_of text_orig d) (tokens d)).
Proof.
  unfold expected_reqs. rewrite !elem_of_app.
  intros [Hin|[Hin|[Hin|[Hin|[Hin|Hin]]]]].
  - apply list_elem_of_fmap in Hin as (t & -> & Ht). left. eauto.
  - apply list_elem_of_fmap in Hin as (sp & -> & Hsp). right; left. eauto.
  - apply list_elem_of_fmap in Hin as (sp & -> & Hsp). do 2 right; left. eauto.
  - apply list_elem_of_fmap in Hin as (e & -> & He).
    apply list_elem_of_filter in He as [Hc He]. do 3 right; left. eauto.
  - apply list_elem_of_fmap in Hin as (t & -> & Ht). do 4 right; left. eauto.
  - by do 5 right.
Qed.

End Expected.

Section Output.
Context `{Pipeline}.
Context (doc : Document) (view : nat) (doc_id : option string) (s : State).
Context (text_orig input_text : string).

(** The annotation at a position is made of the request at that position,
    and every annotation is made of a request. *)
Lemma out_lookup (k : nat) rq :
  (view < length (views (mmif s)))%nat ->
  ids_fresh view s ->
  (_read_text doc s).2 = inr text_orig ->
  input_text_of text_orig = inr input_text ->
  doc_wf (nlp input_text) ->
  expected_reqs text_orig (nlp input_text) !! k = Some rq ->
  exists a (n : N),
    added (_add_tool_output doc view doc_id) s view !! k = Some a
    ∧ at_type a = rq_type rq
    ∧ ann_id a = rq_prefix rq +:+ pretty n
    ∧ properties a = header doc_id (rq_start rq) (rq_end rq) ++ rq_props rq.
Proof.
  intros Hv Hf Hr Hi Hwf Hk.
  rewrite (added_wf doc view doc_id s text_orig input_text) by done.
  destruct (stamp_lookup doc_id (identifiers s) _ k rq Hk) as [n Hn].
  eexists _, n. split; [exact Hn|].
  rewrite new_annotation_type, new_annotation_id. split; [done|]. split; [done|].
  apply new_annotation_properties.
  pose proof (annotate_doc_T_ok text_orig (nlp input_text)) as Hok.
  rewrite annotate_doc_T_wf in Hok by done. rewrite Forall_forall in Hok.
  apply list_elem_of_lookup_2 in Hk. by destruct (Hok rq Hk) as (_ & ? & _).
Qed.

Lemma out_elem a :
  (view < length (views (mmif s)))%nat ->
  ids_fresh view s ->
  (_read_text doc s).2 = inr text_orig ->
  input_text_of text_orig = inr input_text ->
  doc_wf (nlp input_text) ->
  a ∈ added (_add_tool_output doc view doc_id) s view ->
  exists rq (n : N),
    rq ∈ expected_reqs text_orig (nlp input_text)
    ∧ at_type a = rq_type rq
    ∧ ann_id a = rq_prefix rq +:+ pretty n
    ∧ properties a = header doc_id (rq_start rq) (rq_end rq) ++ rq_props rq.
Proof.
  intros Hv Hf Hr Hi Hwf Ha.
  rewrite (added_wf doc view doc_id s text_orig input_text) in Ha by done.
  apply stamp_elem in Ha as (rq & n & Hrq & ->).
  exists rq, n. split; [done|].
  rewrite new_annotation_type, new_annotation_id. split; [done|]. split; [done|].
  apply new_annotation_properties.
  pose proof (annotate_doc_T_ok text_orig (nlp input_text)) as Hok.
  rewrite annotate_doc_T_wf in Hok by done. rewrite Forall_forall in Hok.
  by destruct (Hok rq Hrq) as (_ & ? & _).
Qed.

End Output.
(** ** The registries and the relation loop *)

Section RelationTheorems.
Context (view : nat) (doc_id : option string) (text_orig : string).

Lemma dependency_reqs_prefixes (toks : list Token) :
  Forall (fun rq => rq_prefix rq ∈ app_prefixes)
    (dependency_req text_orig <$> toks).
Proof.
  apply Forall_fmap, Forall_forall. intros tok _.
  do 4 apply list_elem_of_further. apply list_elem_of_here.
Qed.

(** The second loop over the tokens raises nothing on a view that refuses
    none of its identifiers. *)
Lemma dependency_pass_run (d : Doc) ed s :
  ids_fresh view s ->
  for_fold (enumerate (tokens d)) ∅
    (dependency_body view doc_id text_orig ed) s
  = (perform_all view doc_id (dependency_req text_orig <$> tokens d) s,
     inr (governer_dict_of text_orig ed (tokens d))).
Proof.
  intros Hf.
  pose proof (traced_for_fold view doc_id (enumerate (tokens d)) _
                (dependency_body_T text_orig ed)
                (dependency_body_traced view doc_id text_orig ed) ∅) as Ht.
  rewrite (traced_fresh view doc_id _ _ s Ht).
  - by rewrite dependency_pass_T.
  - rewrite dependency_pass_T. apply dependency_reqs_prefixes.
  - done.
Qed.

Lemma entity_pass_fresh (d : Doc) tok_idx s s1 ed :
  ids_fresh view s ->
  for_fold (ents d) [] (entity_body view doc_id text_orig tok_idx) s
  = (s1, inr ed) ->
  ids_fresh view s1.
Proof.
  intros Hf Hed.
  apply (traced_returns view doc_id _ _ _ _ _
           (traced_for_fold view doc_id (ents d) _ (entity_body_T text_orig tok_idx)
              (entity_body_traced view doc_id text_orig tok_idx) [])) in Hed
    as [_ ->].
  apply perform_all_fresh; [|done].
  destruct (entity_pass_T_inv text_orig tok_idx d) as [Hok _].
  eapply Forall_impl; [exact Hok|]. by intros rq [? _].
Qed.

Lemma relation_loop_returns (d : Doc) ed gd s :
  (forall k, k ∈ dict_keys ed ->
     exists e p t, registered text_orig d ed gd k e p t) ->
  Forall (entity_entry text_orig d) ed ->
  gd = governer_dict_of text_orig ed (tokens d) ->
  ids_fresh view s ->
  (relation_loop view doc_id ed gd s).2 = inr tt.
Proof.
  intros Hreg Hall -> Hf.
  rewrite (traced_fresh view doc_id _ _ s (relation_loop_traced view doc_id ed _)).
  - simpl. by rewrite (relation_loop_T_flat text_orig d).
  - pose proof (relation_loop_T_ok text_orig d ed
                  (governer_dict_of text_orig ed (tokens d)) Hall) as Hok.
    eapply Forall_impl; [apply Hok|by intros rq [? _]].
    intros k g Hg.
    destruct (governer_dict_of_lookup text_orig _ _ _ _ Hg) as (_ & t & _ & _ & ->).
    eauto.
  - done.
Qed.

(** C10. On a view that refuses none of the identifiers, the second loop
    over the tokens raises nothing, and the governor registry it leaves
    has an entry for every key of the entity registry, and for no other
    index: the loop visits every token of the document, the root of each
    entity among them, and records the governor of exactly those whose
    index is a key of the entity registry. So no lookup of the relation
    loop raises, for any two keys and in any state, and the loop returns
    on every view that refuses none of the identifiers. *)
Theorem governor_registry_covers_entities (d : Doc) tok_idx s s1
    (entity_dict : list (Z * props)) :
  ents_rooted d ->
  ids_fresh view s ->
  for_fold (ents d) [] (entity_body view doc_id text_orig tok_idx) s
  = (s1, inr entity_dict) ->
  exists s2 (governer_dict : gmap Z props),
    for_fold (enumerate (tokens d)) ∅
      (dependency_body view doc_id text_orig entity_dict) s1
    = (s2, inr governer_dict)
    ∧ (forall k, k ∈ dict_keys entity_dict -> is_Some (governer_dict !! k))
    ∧ (forall k, is_Some (governer_dict !! k) -> k ∈ dict_keys entity_dict)
    ∧ (forall i1 i2,
         i1 ∈ dict_keys entity_dict -> i2 ∈ dict_keys entity_dict ->
         (exists b, relation_test governer_dict i1 i2 = inr b)
         ∧ exists ps,
             relation_properties entity_dict governer_dict i1 i2 = inr ps)
    ∧ forall s', ids_fresh view s' ->
        (relation_loop view doc_id entity_dict governer_dict s').2 = inr tt.
Proof.
  intros Hroot Hf Hed.
  pose proof (entity_pass_fresh d tok_idx s s1 entity_dict Hf Hed) as Hf1.
  pose proof (dependency_pass_run d entity_dict s1 Hf1) as Hgd.
  eexists _, _. split; [exact Hgd|].
  destruct (passes_registered text_orig view doc_id d tok_idx s s1 _
              entity_dict _ Hroot Hed Hgd) as (Hnd & _ & Hreg).
  split; [|split; [|split]].
  - intros k Hk. destruct (Hreg k Hk) as (e & p & t & Hr).
    destruct Hr as (_ & _ & _ & _ & _ & ->). eauto.
  - intros k [ps Hps].
    by destruct (governer_dict_of_lookup text_orig _ _ _ _ Hps).
  - intros i1 i2 Hi1 Hi2.
    destruct (Hreg i1 Hi1) as (e1 & p1 & t1 & H1).
    destruct (Hreg i2 Hi2) as (e2 & p2 & t2 & H2).
    by apply (relation_lookups_registered text_orig d _ _ i1 i2
                e1 p1 t1 e2 p2 t2).
  - intros s' Hf'. apply (relation_loop_returns d); [done| |done|done].
    apply (traced_returns view doc_id _ _ _ _ _
             (traced_for_fold view doc_id (ents d) _ (entity_body_T text_orig tok_idx)
                (entity_body_traced view doc_id text_orig tok_idx) [])) in Hed
      as [Hed _].
    destruct (entity_pass_T_inv text_orig tok_idx d) as [_ Hinv].
    by destruct (Hinv entity_dict Hed).
Qed.

End RelationTheorems.

Lemma governor_registry_covers_entities_witness :
  ents_rooted Sample.doc_IBM
  ∧ ids_fresh 0 Sample.state0
  ∧ exists s2 (governer_dict : gmap Z props),
      for_fold (enumerate (tokens Sample.doc_IBM)) ∅
        (dependency_body 0 None Sample.text_IBM Sample.entity_dict)
        Sample.entity_pass.1
      = (s2, inr governer_dict)
      ∧ (forall k, k ∈ dict_keys Sample.entity_dict ->
           is_Some (governer_dict !! k))
      ∧ (forall k, is_Some (governer_dict !! k) ->
           k ∈ dict_keys Sample.entity_dict)
      ∧ (forall i1 i2,
           i1 ∈ dict_keys Sample.entity_dict ->
           i2 ∈ dict_keys Sample.entity_dict ->
           (exists b, relation_test governer_dict i1 i2 = inr b)
           ∧ exists ps,
               relation_properties Sample.entity_dict governer_dict i1 i2
               = inr ps)
      ∧ forall s', ids_fresh 0 s' ->
          (relation_loop 0 None Sample.entity_dict governer_dict s').2 = inr tt.
Proof.
  assert (ids_fresh 0 Sample.state0) as Hf by (by apply ids_fresh_empty).
  split; [apply (bool_decide_unpack _); vm_compute; exact I|].
  split; [exact Hf|].
  apply (governor_registry_covers_entities 0 None Sample.text_IBM
           Sample.doc_IBM (tok_idx_of (tokens Sample.doc_IBM)) Sample.state0
           Sample.entity_pass.1 Sample.entity_dict).
  - apply (bool_decide_unpack _); vm_compute; exact I.
  - exact Hf.
  - vm_compute. reflexivity.
Defined.
(** ** What [_add_tool_output] adds for a well-formed parse *)

Section OutputTheorems.
Context `{Pipeline}.
Context (doc : Document) (view : nat) (doc_id : option string) (s : State).
Context (text_orig input_text : string).

Lemma chars_of_table (d : Doc) sp :
  span_in_doc d sp ->
  exists first last,
    tok_idx_of (tokens d) !! start sp = Some first
    ∧ tok_idx_of (tokens d) !! (end_ sp - 1) = Some last
    ∧ span_chars d sp = Some (first.1, last.2)
    ∧ chars_of d sp = (first.1, last.2).
Proof.
  intros [Hr He].
  destruct (lookup_lt_is_Some_2 (tokens d) (Z.to_nat (start sp))) as [t1 Ht1];
    [lia|].
  destruct (lookup_lt_is_Some_2 (tokens d) (Z.to_nat (end_ sp - 1))) as [t2 Ht2];
    [lia|].
  exists (tok_span t1), (tok_span t2).
  rewrite !tok_idx_of_lookup, !decide_True by lia. rewrite Ht1, Ht2.
  unfold chars_of, span_chars. rewrite Ht1, Ht2. done.
Qed.


Lemma relation_reqs_types ed gd rq :
  rq ∈ relation_reqs ed gd -> rq_type rq = GENERIC_RELATION.
Proof.
  unfold relation_reqs. intros (i1 & Hrq & _)%list_elem_of_bind.
  apply list_elem_of_bind in Hrq as (i2 & Hrq & _).
  unfold relation_body_T, liftT in Hrq.
  destruct (relation_test gd i1 i2) as [e|[]]; simpl in Hrq;
    [by apply elem_of_nil in Hrq| |by apply elem_of_nil in Hrq].
  destruct (relation_properties ed gd i1 i2); simpl in Hrq;
    [by apply elem_of_nil in Hrq|].
  by apply list_elem_of_singleton in Hrq as ->.
Qed.

Lemma relation_loop_T_wf (d : Doc) :
  doc_wf d ->
  relation_loop_T (entity_dict_of text_orig d)
    (governer_dict_of text_orig (entity_dict_of text_orig d) (tokens d))
  = (relation_reqs (entity_dict_of text_orig d)
       (governer_dict_of text_orig (entity_dict_of text_orig d) (tokens d)),
     inr tt).
Proof.
  intros Hwf. apply (relation_loop_T_flat text_orig d).
  intros k Hk. destruct (registered_wf text_orig d k Hwf Hk) as (e & p & t & Hr & _).
  eauto.
Qed.



(** A relation the call adds, from the parse. *)
Lemma out_relation a :
  (view < length (views (mmif s)))%nat ->
  ids_fresh view s ->
  (_read_text doc s).2 = inr text_orig ->
  input_text_of text_orig = inr input_text ->
  doc_wf (nlp input_text) ->
  a ∈ added (_add_tool_output doc view doc_id) s view ->
  at_type a = GENERIC_RELATION ->
  exists e1 p1 t1 e2 p2 t2,
    pinned (nlp input_text) (i (root e1)) e1 p1 t1
    ∧ pinned (nlp input_text) (i (root e2)) e2 p2 t2
    ∧ i (root e1) < i (root e2) ∧ i (head t1) = i (head t2)
    ∧ properties a
      = header doc_id None None
        ++ relation_record text_orig t1 t2 e1 e2 p1 p2.
Proof.
  intros Hv Hf Hr Hi Hwf Ha Hty.
  destruct (out_elem doc view doc_id s text_orig input_text a Hv Hf Hr Hi Hwf Ha)
    as (rq & n & Hrq & Hty' & _ & Hps).
  rewrite Hty in Hty'.
  apply expected_elem in Hrq
    as [(t & _ & ->)|[(sp & _ & ->)|[(sp & _ & ->)|[(e & _ & _ & ->)
        |[(t & _ & ->)|Hrq]]]]]; try discriminate Hty'.
  assert (rq ∈ (relation_loop_T (entity_dict_of text_orig (nlp input_text))
                  (governer_dict_of text_orig
                     (entity_dict_of text_orig (nlp input_text))
                     (tokens (nlp input_text)))).1) as Hrq'
    by (by rewrite relation_loop_T_wf).
  apply (relation_loop_T_reqs text_orig (pinned (nlp input_text))
           (nlp input_text)) in Hrq'
    as (i1 & i2 & e1 & p1 & t1 & e2 & p2 & t2
        & _ & _ & H1 & H2 & HQ1 & HQ2 & Hlt & Hg & ->);
    [|intros k Hk; by apply registered_wf].
  destruct H1 as (_ & _ & <- & _), H2 as (_ & _ & <- & _).
  exists e1, p1, t1, e2, p2, t2. done.
Qed.


(** C8, as the code has it. A relation record has the text, the lemma and
    the token index of the governor (the head of the token at the head
    position of the first entity), and of each of the two entities the
    text (the slice of the text read at the characters the entity covers),
    the index of its root, the knowledge-base identifier and the
    dependency label of the token at its head position: eleven properties
    after the document identifier, none of them the lemma of an entity. *)
Theorem relation_record_attributes (a : Annotation) :
  (view < length (views (mmif s)))%nat ->
  ids_fresh view s ->
  (_read_text doc s).2 = inr text_orig ->
  input_text_of text_orig = inr input_text ->
  doc_wf (nlp input_text) ->
  a ∈ added (_add_tool_output doc view doc_id) s view ->
  at_type a = GENERIC_RELATION ->
  (exists e1 e2 t1 t2 p1 p2,
     entity_at (nlp input_text) (i (root e1)) = Some e1
     ∧ entity_at (nlp input_text) (i (root e2)) = Some e2
     ∧ token_at (nlp input_text) (i (root e1)) = Some t1
     ∧ token_at (nlp input_text) (i (root e2)) = Some t2
     ∧ span_chars (nlp input_text) e1 = Some p1
     ∧ span_chars (nlp input_text) e2 = Some p2
     ∧ properties a
       = header doc_id None None
         ++ [("rel_text", VStr (py_slice text_orig (idx (head t1))
                                  (idx (head t1) + len (text (head t1)))));
             ("rel_lemma", VStr (lemma_ (head t1)));
             ("rel_i", VInt (i (head t1)));
             ("e1_text", VStr (py_slice text_orig p1.1 p1.2));
             ("e1_root_i", VInt (i (root e1)));
             ("e1_kb_id", VStr (kb_id_ e1));
             ("e1_dep", VStr (dep_ t1));
             ("e2_text", VStr (py_slice text_orig p2.1 p2.2));
             ("e2_root_i", VInt (i (root e2)));
             ("e2_kb_id", VStr (kb_id_ e2));
             ("e2_dep", VStr (dep_ t2))])
  ∧ (properties a).*1
    = (header doc_id None None).*1
      ++ ["rel_text"; "rel_lemma"; "rel_i";
          "e1_text"; "e1_root_i"; "e1_kb_id"; "e1_dep";
          "e2_text"; "e2_root_i"; "e2_kb_id"; "e2_dep"].
Proof.
  intros Hv Hf Hr Hi Hwf Ha Hty.
  destruct (out_relation a Hv Hf Hr Hi Hwf Ha Hty)
    as (e1 & p1 & t1 & e2 & p2 & t2 & (He1 & Ht1 & Hp1) & (He2 & Ht2 & Hp2)
        & Hlt & Hg & Hps).
  split.
  - exists e1, e2, t1, t2, p1, p2. done.
  - rewrite Hps, fmap_app. done.
Qed.

Lemma out_unit (k : nat) ty pre p :
  (view < length (views (mmif s)))%nat ->
  ids_fresh view s ->
  (_read_text doc s).2 = inr text_orig ->
  input_text_of text_orig = inr input_text ->
  doc_wf (nlp input_text) ->
  expected_reqs text_orig (nlp input_text) !! k
  = Some (span_req text_orig ty pre p) ->
  exists a,
    added (_add_tool_output doc view doc_id) s view !! k = Some a
    ∧ at_type a = ty ∧ char_span a = Some p
    ∧ dict_get "text" (properties a) = text_at text_orig p.
Proof.
  intros Hv Hf Hr Hi Hwf Hk.
  destruct (out_lookup doc view doc_id s text_orig input_text k _
              Hv Hf Hr Hi Hwf Hk) as (a & n & Ha & Hty & _ & Hps).
  exists a. split; [done|]. split; [done|]. simpl in Hps. split.
  - rewrite (char_span_properties doc_id a _ _ _ Hps). by destruct p.
  - rewrite Hps, dict_get_header_text by (apply list_elem_of_here). done.
Qed.

Lemma out_entity (k : nat) e :
  (view < length (views (mmif s)))%nat ->
  ids_fresh view s ->
  (_read_text doc s).2 = inr text_orig ->
  input_text_of text_orig = inr input_text ->
  doc_wf (nlp input_text) ->
  filter categorized (ents (nlp input_text)) !! k = Some e ->
  exists a,
    added (_add_tool_output doc view doc_id) s view
      !! (length (tokens (nlp input_text))
          + length (noun_chunks (nlp input_text))
          + length (sents (nlp input_text)) + k)%nat = Some a
    ∧ at_type a = NE
    ∧ span_in_doc (nlp input_text) e
    ∧ char_span a = Some (chars_of (nlp input_text) e)
    ∧ dict_get "text" (properties a)
      = text_at text_orig (chars_of (nlp input_text) e)
    ∧ dict_get "root_text" (properties a)
      = text_at text_orig (tok_span (root e)).
Proof.
  intros Hv Hf Hr Hi Hwf He.
  destruct (out_lookup doc view doc_id s text_orig input_text _ _
              Hv Hf Hr Hi Hwf (expected_entity text_orig _ k e He))
    as (a & n & Ha & Hty & _ & Hps).
  exists a. split; [done|]. split; [done|]. simpl in Hps.
  split; [|split; [|split]].
  - destruct Hwf as (_ & _ & Hents & _). rewrite Forall_forall in Hents.
    apply Hents. apply list_elem_of_lookup_2 in He.
    by apply list_elem_of_filter in He as [_ ?].
  - rewrite (char_span_properties doc_id a _ _ _ Hps).
    by destruct (chars_of (nlp input_text) e).
  - rewrite Hps, dict_get_header_text by (apply list_elem_of_here). done.
  - rewrite Hps, dict_get_header_text
      by (apply list_elem_of_further, list_elem_of_here). done.
Qed.

(** C2. The first loop leaves the table that maps each token index [n] to
    the token's character start and that start plus the length of its
    text. On a well-formed parse, on a view that refuses none of the
    identifiers, [_add_tool_output] adds after the token annotations one
    annotation for each noun chunk, then one for each sentence, then one
    for each entity that has a category, in the order of the parse; the
    span of each is the first component of the table's entry for [start]
    and the second component of its entry for [end - 1]. *)
Theorem spans_from_offset_table :
  (view < length (views (mmif s)))%nat ->
  ids_fresh view s ->
  (_read_text doc s).2 = inr text_orig ->
  input_text_of text_orig = inr input_text ->
  doc_wf (nlp input_text) ->
  exists tok_idx,
    (for_fold (enumerate (tokens (nlp input_text))) ∅
       (token_body view doc_id text_orig) s).2 = inr tok_idx
    ∧ (forall (n : nat) t, tokens (nlp input_text) !! n = Some t ->
         tok_idx !! Z.of_nat n = Some (idx t, idx t + len (text t)))
    ∧ (forall (k : nat) sp, noun_chunks (nlp input_text) !! k = Some sp ->
         exists a first last,
           added (_add_tool_output doc view doc_id) s view
             !! (length (tokens (nlp input_text)) + k)%nat = Some a
           ∧ at_type a = NCHUNK
           ∧ tok_idx !! start sp = Some first
           ∧ tok_idx !! (end_ sp - 1) = Some last
           ∧ char_span a = Some (first.1, last.2))
    ∧ (forall (k : nat) sp, sents (nlp input_text) !! k = Some sp ->
         exists a first last,
           added (_add_tool_output doc view doc_id) s view
             !! (length (tokens (nlp input_text))
                 + length (noun_chunks (nlp input_text)) + k)%nat = Some a
           ∧ at_type a = SENTENCE
           ∧ tok_idx !! start sp = Some first
           ∧ tok_idx !! (end_ sp - 1) = Some last
           ∧ char_span a = Some (first.1, last.2))
    ∧ (forall (k : nat) e,
         filter categorized (ents (nlp input_text)) !! k = Some e ->
         exists a first last,
           added (_add_tool_output doc view doc_id) s view
             !! (length (tokens (nlp input_text))
                 + length (noun_chunks (nlp input_text))
                 + length (sents (nlp input_text)) + k)%nat = Some a
           ∧ at_type a = NE
           ∧ tok_idx !! start e = Some first
           ∧ tok_idx !! (end_ e - 1) = Some last
           ∧ char_span a = Some (first.1, last.2)).
Proof.
  intros Hv Hf Hr Hi Hwf. pose proof Hwf as (Hchunks & Hsents & Hents & _).
  exists (tok_idx_of (tokens (nlp input_text))).
  split; [by apply token_pass_table|].
  split; [intros n t Ht; by apply tok_idx_of_token|].
  split; [|split].
  - intros k sp Hsp.
    destruct (out_unit _ _ _ _ Hv Hf Hr Hi Hwf
                (expected_chunk text_orig _ k sp Hsp)) as (a & Ha & Hty & Hsp' & _).
    rewrite Forall_forall in Hchunks.
    destruct (chars_of_table _ sp (Hchunks sp (list_elem_of_lookup_2 _ _ _ Hsp)))
      as (first & last & H1 & H2 & _ & Hc).
    exists a, first, last. by rewrite <-Hc.
  - intros k sp Hsp.
    destruct (out_unit _ _ _ _ Hv Hf Hr Hi Hwf
                (expected_sent text_orig _ k sp Hsp)) as (a & Ha & Hty & Hsp' & _).
    rewrite Forall_forall in Hsents.
    destruct (chars_of_table _ sp (Hsents sp (list_elem_of_lookup_2 _ _ _ Hsp)))
      as (first & last & H1 & H2 & _ & Hc).
    exists a, first, last. by rewrite <-Hc.
  - intros k e He.
    destruct (out_entity k e Hv Hf Hr Hi Hwf He)
      as (a & Ha & Hty & Hin & Hsp' & _).
    destruct (chars_of_table _ e Hin) as (first & last & H1 & H2 & _ & Hc).
    exists a, first, last. by rewrite <-Hc.
Qed.

(** C9. Whatever text was given to the pipeline, the text attributes of
    the annotations that [_add_tool_output] adds are slices of the text
    read from the document, at the characters the parse gives: for a
    token, those of the token; for a noun chunk, a sentence and an entity,
    those the unit covers, and for the root of an entity those of the
    root; for a dependency, those of the token and those of its head; for
    a relation, those of the governor and those the two entities cover.
    No value is lowercased again. *)
Theorem text_attributes_from_original :
  (view < length (views (mmif s)))%nat ->
  ids_fresh view s ->
  (_read_text doc s).2 = inr text_orig ->
  input_text_of text_orig = inr input_text ->
  doc_wf (nlp input_text) ->
  (forall (k : nat) t, tokens (nlp input_text) !! k = Some t ->
     exists a,
       added (_add_tool_output doc view doc_id) s view !! k = Some a
       ∧ at_type a = TOKEN
       ∧ dict_get "text" (properties a) = text_at text_orig (tok_span t))
  ∧ (forall (k : nat) sp, noun_chunks (nlp input_text) !! k = Some sp ->
       exists a p,
         added (_add_tool_output doc view doc_id) s view
           !! (length (tokens (nlp input_text)) + k)%nat = Some a
         ∧ at_type a = NCHUNK
         ∧ span_chars (nlp input_text) sp = Some p
         ∧ dict_get "text" (properties a) = text_at text_orig p)
  ∧ (forall (k : nat) sp, sents (nlp input_text) !! k = Some sp ->
       exists a p,
         added (_add_tool_output doc view doc_id) s view
           !! (length (tokens (nlp input_text))
               + length (noun_chunks (nlp input_text)) + k)%nat = Some a
         ∧ at_type a = SENTENCE
         ∧ span_chars (nlp input_text) sp = Some p
         ∧ dict_get "text" (properties a) = text_at text_orig p)
  ∧ (forall (k : nat) e,
       filter categorized (ents (nlp input_text)) !! k = Some e ->
       exists a p,
         added (_add_tool_output doc view doc_id) s view
           !! (length (tokens (nlp input_text))
               + length (noun_chunks (nlp input_text))
               + length (sents (nlp input_text)) + k)%nat = Some a
         ∧ at_type a = NE
         ∧ span_chars (nlp input_text) e = Some p
         ∧ dict_get "text" (properties a) = text_at text_orig p
         ∧ dict_get "root_text" (properties a)
           = text_at text_orig (tok_span (root e)))
  ∧ (forall (k : nat) t, tokens (nlp input_text) !! k = Some t ->
       exists a,
         added (_add_tool_output doc view doc_id) s view
           !! (length (tokens (nlp input_text))
               + length (noun_chunks (nlp input_text))
               + length (sents (nlp input_text))
               + length (filter categorized (ents (nlp input_text))) + k)%nat
         = Some a
         ∧ at_type a = DEPENDENCY
         ∧ dict_get "dependent_text" (properties a)
           = text_at text_orig (tok_span t)
         ∧ dict_get "governer_text" (properties a)
           = text_at text_orig (tok_span (head t)))
  ∧ (forall a,
       a ∈ added (_add_tool_output doc view doc_id) s view ->
       at_type a = GENERIC_RELATION ->
       exists e1 e2 t1 p1 p2,
         entity_at (nlp input_text) (i (root e1)) = Some e1
         ∧ entity_at (nlp input_text) (i (root e2)) = Some e2
         ∧ token_at (nlp input_text) (i (root e1)) = Some t1
         ∧ span_chars (nlp input_text) e1 = Some p1
         ∧ span_chars (nlp input_text) e2 = Some p2
         ∧ dict_get "rel_text" (properties a)
           = text_at text_orig (tok_span (head t1))
         ∧ dict_get "e1_text" (properties a) = text_at text_orig p1
         ∧ dict_get "e2_text" (properties a) = text_at text_orig p2).
Proof.
  intros Hv Hf Hr Hi Hwf. pose proof Hwf as (Hchunks & Hsents & Hents & _).
  split; [|split; [|split; [|split; [|split]]]].
  - intros k t Ht.
    destruct (out_lookup doc view doc_id s text_orig input_text _ _
                Hv Hf Hr Hi Hwf (expected_token text_orig _ k t Ht))
      as (a & n & Ha & Hty & _ & Hps).
    exists a. split; [done|]. split; [done|].
    rewrite Hps, dict_get_header_text by (apply list_elem_of_here). done.
  - intros k sp Hsp.
    destruct (out_unit _ _ _ _ Hv Hf Hr Hi Hwf
                (expected_chunk text_orig _ k sp Hsp)) as (a & Ha & Hty & _ & Htx).
    exists a, (chars_of (nlp input_text) sp).
    rewrite Forall_forall in Hchunks.
    rewrite span_chars_of by (apply Hchunks; by eapply list_elem_of_lookup_2).
    done.
  - intros k sp Hsp.
    destruct (out_unit _ _ _ _ Hv Hf Hr Hi Hwf
                (expected_sent text_orig _ k sp Hsp)) as (a & Ha & Hty & _ & Htx).
    exists a, (chars_of (nlp input_text) sp).
    rewrite Forall_forall in Hsents.
    rewrite span_chars_of by (apply Hsents; by eapply list_elem_of_lookup_2).
    done.
  - intros k e He.
    destruct (out_entity k e Hv Hf Hr Hi Hwf He)
      as (a & Ha & Hty & Hin & _ & Htx & Hroot).
    exists a, (chars_of (nlp input_text) e).
    by rewrite span_chars_of.
  - intros k t Ht.
    destruct (out_lookup doc view doc_id s text_orig input_text _ _
                Hv Hf Hr Hi Hwf (expected_dependency text_orig _ k t Ht))
      as (a & n & Ha & Hty & _ & Hps).
    exists a. split; [done|]. split; [done|].
    rewrite Hps.
    rewrite !dict_get_header_text
      by (unfold text_keys; repeat (first [apply list_elem_of_here
                                          |apply list_elem_of_further])).
    done.
  - intros a Ha Hty.
    destruct (out_relation a Hv Hf Hr Hi Hwf Ha Hty)
      as (e1 & p1 & t1 & e2 & p2 & t2 & (He1 & Ht1 & Hp1) & (He2 & Ht2 & Hp2)
          & Hlt & Hg & Hps).
    exists e1, e2, t1, p1, p2.
    rewrite Hps.
    rewrite !dict_get_header_text
      by (unfold text_keys; repeat (first [apply list_elem_of_here
                                          |apply list_elem_of_further])).
    done.
Qed.

End OutputTheorems.

Lemma relation_record_attributes_witness :
  ids_fresh 0 Sample.state0
  ∧ doc_wf (@nlp Sample.cased "IBM builds computers")
  ∧ Sample.relation_IBM_computers
    ∈ added (@_add_tool_output Sample.cased Sample.text_doc 0 None)
        Sample.state0 0
  ∧ (properties Sample.relation_IBM_computers).*1
    = ["rel_text"; "rel_lemma"; "rel_i";
       "e1_text"; "e1_root_i"; "e1_kb_id"; "e1_dep";
       "e2_text"; "e2_root_i"; "e2_kb_id"; "e2_dep"].
Proof.
  assert (ids_fresh 0 Sample.state0) as Hf by (by apply ids_fresh_empty).
  assert (doc_wf (@nlp Sample.cased "IBM builds computers")) as Hwf
    by (apply (bool_decide_unpack _); vm_compute; exact I).
  assert (Sample.relation_IBM_computers
          ∈ added (@_add_tool_output Sample.cased Sample.text_doc 0 None)
              Sample.state0 0) as Hin
    by (apply (bool_decide_unpack _); vm_compute; exact I).
  split; [exact Hf|]. split; [exact Hwf|]. split; [exact Hin|].
  destruct (@relation_record_attributes Sample.cased Sample.text_doc 0 None
              Sample.state0 "IBM builds computers" "IBM builds computers"
              Sample.relation_IBM_computers) as [_ Hkeys];
    [simpl; lia|exact Hf|reflexivity|reflexivity|exact Hwf|exact Hin
    |reflexivity|exact Hkeys].
Defined.

(** C8 fails as stated: the relation between "IBM" and "computers" has
    the lemma of the governor, "build", and no property whose value is
    "computer", the lemma of the second entity. *)
Lemma relation_record_has_no_entity_lemma :
  filter (of_type GENERIC_RELATION)
    (added (@_add_tool_output Sample.cased Sample.text_doc 0 None)
       Sample.state0 0)
  = [Sample.relation_IBM_computers]
  ∧ lemma_ (root Sample.ent_computers) = "computer"
  ∧ Forall (fun kv => kv.2 <> VStr (lemma_ (root Sample.ent_computers)))
      (properties Sample.relation_IBM_computers).
Proof.
  split; [vm_compute; reflexivity|]. split; [reflexivity|].
  simpl. repeat (constructor; [discriminate|]). constructor.
Qed.

Lemma spans_from_offset_table_witness :
  ids_fresh 0 Sample.state0
  ∧ doc_wf (@nlp Sample.cased "IBM builds computers")
  ∧ (exists a,
       added (@_add_tool_output Sample.cased Sample.text_doc 0 None)
         Sample.state0 0 !! 4%nat = Some a
       ∧ at_type a = NCHUNK ∧ char_span a = Some (11, 20))
  ∧ (exists a,
       added (@_add_tool_output Sample.cased Sample.text_doc 0 None)
         Sample.state0 0 !! 5%nat = Some a
       ∧ at_type a = SENTENCE ∧ char_span a = Some (0, 20))
  ∧ (exists a,
       added (@_add_tool_output Sample.cased Sample.text_doc 0 None)
         Sample.state0 0 !! 7%nat = Some a
       ∧ at_type a = NE ∧ char_span a = Some (11, 20)).
Proof.
  assert (ids_fresh 0 Sample.state0) as Hf by (by apply ids_fresh_empty).
  assert (doc_wf (@nlp Sample.cased "IBM builds computers")) as Hwf
    by (apply (bool_decide_unpack _); vm_compute; exact I).
  split; [exact Hf|]. split; [exact Hwf|].
  destruct (@spans_from_offset_table Sample.cased Sample.text_doc 0 None
              Sample.state0 "IBM builds computers" "IBM builds computers")
    as (tbl & _ & Htbl & Hchunk & Hsent & Hent);
    [simpl; lia|exact Hf|reflexivity|reflexivity|exact Hwf|].
  pose proof (Htbl 0%nat Sample.tok_IBM eq_refl) as H0.
  pose proof (Htbl 2%nat Sample.tok_computers eq_refl) as H2.
  split; [|split].
  - destruct (Hchunk 1%nat (Sample.plain_span 2 3 Sample.tok_computers) eq_refl)
      as (a & first & last & Ha & Hty & Hfirst & Hlast & Hsp).
    exists a. split; [exact Ha|]. split; [exact Hty|].
    change (tbl !! 2 = Some first) in Hfirst.
    change (tbl !! 2 = Some last) in Hlast.
    change (tbl !! 2 = Some (11, 20)) in H2.
    rewrite H2 in Hfirst, Hlast.
    injection Hfirst as <-. injection Hlast as <-. exact Hsp.
  - destruct (Hsent 0%nat (Sample.plain_span 0 3 Sample.tok_builds) eq_refl)
      as (a & first & last & Ha & Hty & Hfirst & Hlast & Hsp).
    exists a. split; [exact Ha|]. split; [exact Hty|].
    change (tbl !! 0 = Some first) in Hfirst.
    change (tbl !! 2 = Some last) in Hlast.
    change (tbl !! 0 = Some (0, 3)) in H0.
    change (tbl !! 2 = Some (11, 20)) in H2.
    rewrite H0 in Hfirst. rewrite H2 in Hlast.
    injection Hfirst as <-. injection Hlast as <-. exact Hsp.
  - destruct (Hent 1%nat Sample.ent_computers eq_refl)
      as (a & first & last & Ha & Hty & Hfirst & Hlast & Hsp).
    exists a. split; [exact Ha|]. split; [exact Hty|].
    change (tbl !! 2 = Some first) in Hfirst.
    change (tbl !! 2 = Some last) in Hlast.
    change (tbl !! 2 = Some (11, 20)) in H2.
    rewrite H2 in Hfirst, Hlast.
    injection Hfirst as <-. injection Hlast as <-. exact Hsp.
Defined.

Lemma text_attributes_from_original_witness :
  ids_fresh 0 Sample.state0
  ∧ (@_read_text Sample.uncased Sample.capitals_doc Sample.state0).2
    = inr "JIM LEHRER"
  ∧ @input_text_of Sample.uncased "JIM LEHRER" = inr "Jim Lehrer"
  ∧ doc_wf (@nlp Sample.uncased "Jim Lehrer")
  ∧ (exists a,
       added (@_add_tool_output Sample.uncased Sample.capitals_doc 0 None)
         Sample.state0 0 !! 1%nat = Some a
       ∧ at_type a = TOKEN
       ∧ dict_get "text" (properties a) = Some (VStr "LEHRER"))
  ∧ (exists a,
       added (@_add_tool_output Sample.uncased Sample.capitals_doc 0 None)
         Sample.state0 0 !! 5%nat = Some a
       ∧ at_type a = DEPENDENCY
       ∧ dict_get "dependent_text" (properties a) = Some (VStr "JIM")
       ∧ dict_get "governer_text" (properties a) = Some (VStr "LEHRER")).
Proof.
  assert (ids_fresh 0 Sample.state0) as Hf by (by apply ids_fresh_empty).
  assert (doc_wf (@nlp Sample.uncased "Jim Lehrer")) as Hwf
    by (apply (bool_decide_unpack _); vm_compute; exact I).
  split; [exact Hf|]. split; [reflexivity|]. split; [reflexivity|].
  split; [exact Hwf|].
  destruct (@text_attributes_from_original Sample.uncased Sample.capitals_doc
              0 None Sample.state0 "JIM LEHRER" "Jim Lehrer")
    as (Htok & _ & _ & _ & Hdep & _);
    [simpl; lia|exact Hf|reflexivity|reflexivity|exact Hwf|].
  split.
  - destruct (Htok 1%nat Sample.tok_Lehrer eq_refl) as (a & Ha & Hty & Htx).
    exists a. split; [exact Ha|]. split; [exact Hty|exact Htx].
  - destruct (Hdep 0%nat Sample.tok_Jim eq_refl) as (a & Ha & Hty & Hd & Hg).
    exists a. split; [exact Ha|]. split; [exact Hty|].
    split; [exact Hd|exact Hg].
Defined.

(** The pipeline is given "Jim Lehrer" and the tokens are annotated with
    the capitals of the document. *)
Example token_text_is_original :
  @input_text_of Sample.uncased "JIM LEHRER" = inr "Jim Lehrer"
  ∧ (fun a => dict_get "text" (properties a))
    <$> filter (of_type TOKEN)
          (added (@_add_tool_output Sample.uncased Sample.capitals_doc 0 None)
             Sample.state0 0)
    = [Some (VStr "JIM"); Some (VStr "LEHRER")].
Proof. split; vm_compute; reflexivity. Qed.

(** ** The identifiers of a batch *)

Section Batch.
Context `{Pipeline}.

Lemma batch_ids_anns k s : batch_ids k s = ann_id <$> batch_anns k s.
Proof.
  unfold batch_ids, batch_anns.
  induction (drop k (views (mmif s))) as [|v l IH]; [done|].
  rewrite !bind_cons, fmap_app. by rewrite IH.
Qed.

Lemma anns_alter_add (l : list View) (j : nat) (a : Annotation) :
  alter (view_add a) j l ≫= annotations
  ≡ₚ (if bool_decide (j < length l)%nat then [a] else [])
     ++ (l ≫= annotations).
Proof.
  revert j. induction l as [|v l IH]; intros j; [done|].
  destruct j as [|j].
  - assert (alter (view_add a) 0%nat (v :: l) = view_add a v :: l) as -> by done.
    rewrite !bind_cons, bool_decide_eq_true_2 by (simpl; lia).
    rewrite annotations_view_add, <-app_assoc. simpl.
    symmetry. apply Permutation_middle.
  - assert (alter (view_add a) (S j) (v :: l) = v :: alter (view_add a) j l)
      as -> by done.
    rewrite !bind_cons, IH.
    rewrite (bool_decide_ext (S j < length (v :: l))%nat (j < length l)%nat)
      by (simpl; lia).
    case_bool_decide; simpl; [|done].
    symmetry. apply Permutation_middle.
Qed.

Lemma batch_anns_put (k view : nat) doc_id rq s :
  (k <= view < length (views (mmif s)))%nat ->
  batch_anns k (put view doc_id rq s)
  ≡ₚ new_annotation (rq_type rq)
       (rq_prefix rq +:+ pretty (counter s (rq_prefix rq) + 1)%N) doc_id
       (rq_start rq) (rq_end rq) (rq_props rq)
     :: batch_anns k s.
Proof.
  intros [Hk Hv]. unfold batch_anns, put. simpl.
  rewrite drop_alter_ge by done. rewrite anns_alter_add.
  rewrite bool_decide_eq_true_2; [done|]. rewrite length_drop. lia.
Qed.

Lemma view_annotations_batch (k view : nat) s a :
  (k <= view)%nat -> a ∈ view_annotations s view -> a ∈ batch_anns k s.
Proof.
  intros Hk. unfold view_annotations, batch_anns.
  destruct (views (mmif s) !! view) as [v|] eqn:Hv; simpl;
    [|by intros ?%elem_of_nil].
  intros Ha. apply list_elem_of_bind. exists v. split; [done|].
  apply list_elem_of_lookup. exists (view - k)%nat.
  rewrite lookup_drop. by replace (k + (view - k))%nat with view by lia.
Qed.

Lemma batch_numbered_fresh (k view : nat) s :
  (k <= view)%nat -> batch_numbered k s -> ids_fresh view s.
Proof.
  intros Hk (_ & _ & Hids & _) p n Hp Hin.
  apply list_elem_of_fmap in Hin as (a & Heq & Ha).
  apply (view_annotations_batch k) in Ha; [|done].
  destruct (Hids a Ha) as (p' & n' & Hty & Hid & Hn).
  rewrite Hid in Heq.
  destruct (identifier_inj p p' n n') as [-> ->]; [| |done|lia].
  - by apply app_prefixes_no_digit.
  - apply app_prefixes_no_digit. by apply (type_prefix_app (at_type a)).
Qed.

Lemma put_numbered (k view : nat) doc_id rq s :
  req_shape rq -> batch_view k view s -> batch_view k view (put view doc_id rq s).
Proof.
  intros (Hty & _) [(Hk & Hnd & Hids & Hcnt) Hv].
  set (n := (counter s (rq_prefix rq) + 1)%N).
  set (a := new_annotation (rq_type rq) (rq_prefix rq +:+ pretty n) doc_id
              (rq_start rq) (rq_end rq) (rq_props rq)).
  pose proof (batch_anns_put k view doc_id rq s Hv) as Hperm.
  fold n a in Hperm.
  assert (at_type a = rq_type rq) as Hat by apply new_annotation_type.
  assert (ann_id a = rq_prefix rq +:+ pretty n) as Hid
    by apply new_annotation_id.
  assert (forall q, counter (put view doc_id rq s) q
                    = if decide (q = rq_prefix rq) then n else counter s q) as Hc.
  { intros q. rewrite counter_put. by destruct (decide (q = rq_prefix rq)) as [->|?]. }
  split; [|simpl; rewrite length_alter; lia].
  split; [simpl; rewrite length_alter; lia|].
  split; [|split].
  - rewrite Hperm. rewrite fmap_cons. apply NoDup_cons. split; [|done].
    intros Hin. apply list_elem_of_fmap in Hin as (b & Heq & Hb).
    destruct (Hids b Hb) as (p & m & Hp & Hbid & Hm).
    rewrite Hid, Hbid in Heq.
    destruct (identifier_inj (rq_prefix rq) p n m) as [<- <-]; [| |done|].
    + apply app_prefixes_no_digit. by apply (type_prefix_app (rq_type rq)).
    + apply app_prefixes_no_digit. by apply (type_prefix_app (at_type b)).
    + unfold n in Hm. lia.
  - intros b. rewrite Hperm. intros [->|Hb]%elem_of_cons.
    + exists (rq_prefix rq), n. rewrite Hat, Hc, decide_True by done.
      split; [done|]. split; [done|]. unfold n. lia.
    + destruct (Hids b Hb) as (p & m & Hp & Hbid & Hm).
      exists p, m. split; [done|]. split; [done|]. rewrite Hc.
      destruct (decide (p = rq_prefix rq)) as [->|?]; unfold n; lia.
  - intros ty p Hp. rewrite Hperm, Hc.
    destruct (decide (p = rq_prefix rq)) as [->|Hne].
    + pose proof (type_prefix_inj _ _ _ Hp Hty) as ->.
      rewrite filter_cons_True by done. simpl.
      unfold n. rewrite (Hcnt _ _ Hty). lia.
    + rewrite filter_cons_False; [by apply Hcnt|].
      unfold of_type. rewrite Hat. intros <-. congruence.
Qed.

Lemma perform_all_numbered (k view : nat) doc_id rqs s :
  Forall req_shape rqs ->
  batch_view k view s -> batch_view k view (perform_all view doc_id rqs s).
Proof.
  revert s. induction rqs as [|rq rqs IH]; intros s Hall Hinv; [done|].
  apply Forall_cons in Hall as [Hrq Hall].
  rewrite perform_all_cons. apply IH; [done|]. by apply put_numbered.
Qed.

Lemma batch_view_fresh (k view : nat) s : batch_view k view s -> ids_fresh view s.
Proof. intros [Hn [Hk _]]. by apply (batch_numbered_fresh k). Qed.

Lemma add_tool_output_numbered (k view : nat) doc doc_id s :
  batch_view k view s -> batch_view k view (_add_tool_output doc view doc_id s).1.
Proof.
  intros Hinv.
  destruct (add_tool_output_fresh req_shape doc view doc_id s)
    as (rqs & -> & _ & Hall).
  - intros text_orig input_text _. apply annotate_doc_T_shapes.
  - by apply (batch_view_fresh k).
  - simpl. by apply perform_all_numbered.
Qed.

(** A document that is read and parsed without a fault is annotated
    without a fault in a view of the batch. *)
Lemma add_tool_output_ok (k view : nat) doc doc_id s :
  doc_ok doc -> batch_view k view s ->
  (_add_tool_output doc view doc_id s).2 = inr tt.
Proof.
  intros (text_orig & input_text & Hread & Hin & Hwf) Hinv.
  rewrite (add_tool_output_wf doc view doc_id s text_orig input_text);
    [done|by apply (batch_view_fresh k)|apply Hread|done|done].
Qed.

Lemma new_view_numbered (k : nat) docid s :
  batch_numbered k s ->
  batch_view k (length (views (mmif s))) (_new_view docid s).1.
Proof.
  intros (Hk & Hnd & Hids & Hcnt).
  assert (batch_anns k (_new_view docid s).1 = batch_anns k s) as Heq.
  { unfold batch_anns, _new_view. simpl. rewrite drop_app_le by done.
    rewrite bind_app. simpl. by rewrite app_nil_r. }
  split; [|simpl; rewrite length_app; simpl; lia].
  split; [simpl; rewrite length_app; lia|].
  rewrite Heq. done.
Qed.

Lemma batch_numbered_reset (m : Mmif) :
  batch_numbered (length (views m)) (mkState ∅ m).
Proof.
  assert (batch_anns (length (views m)) (mkState ∅ m) = []) as Heq.
  { unfold batch_anns. simpl. by rewrite drop_all. }
  split; [done|]. rewrite Heq. split; [constructor|].
  split; [by intros a ?%elem_of_nil|]. done.
Qed.

(** An invariant of the state goes through a loop, failing or not. *)
Lemma for_M_preserves {A} (I : State -> Prop) (xs : list A)
    (body : A -> M unit) :
  (forall x s, I s -> I (body x s).1) ->
  forall s, I s -> I (for_ xs body s).1.
Proof.
  intros Hb. unfold for_. induction xs as [|x xs IH]; intros s Hs; [done|].
  simpl. unfold mbind, M_bind. specialize (Hb x s Hs).
  destruct (body x s) as [s' [e|[]]]; simpl in *; [done|]. by apply IH.
Qed.

(** A loop whose bodies keep the invariant and return, returns. *)
Lemma for_M_returns {A} (I : State -> Prop) (xs : list A)
    (body : A -> M unit) :
  (forall x s, x ∈ xs -> I s -> I (body x s).1 ∧ (body x s).2 = inr tt) ->
  forall s, I s -> I (for_ xs body s).1 ∧ (for_ xs body s).2 = inr tt.
Proof.
  unfold for_. induction xs as [|x xs IH]; intros Hb s Hs; [done|].
  simpl. unfold mbind, M_bind.
  destruct (Hb x s (list_elem_of_here _ _) Hs) as [Hs' Hr].
  destruct (body x s) as [s' r]; simpl in *. subst r.
  apply IH; [|done]. intros y s0 Hy. apply Hb. by apply list_elem_of_further.
Qed.

(** A loop raises what its first failing body raises. *)
Lemma for_M_first_failure {A} (I : State -> Prop) (xs ys : list A) (x : A)
    (body : A -> M unit) (e : Exn) :
  (forall y s, y ∈ xs -> I s -> I (body y s).1 ∧ (body y s).2 = inr tt) ->
  (forall s, I s -> (body x s).2 = inl e) ->
  forall s, I s -> (for_ (xs ++ x :: ys) body s).2 = inl e.
Proof.
  unfold for_. induction xs as [|y xs IH]; intros Hb Hx s Hs.
  - simpl. unfold mbind, M_bind. specialize (Hx s Hs).
    destruct (body x s) as [s' r]; simpl in *. by subst r.
  - simpl. unfold mbind, M_bind.
    destruct (Hb y s (list_elem_of_here _ _) Hs) as [Hs' Hr].
    destruct (body y s) as [s' r]; simpl in *. subst r.
    apply IH; [|done|done]. intros z s0 Hz. apply Hb.
    by apply list_elem_of_further.
Qed.

(** A loop with a body that raises in every state raises. *)
Lemma for_M_raises {A} (xs : list A) (x : A) (body : A -> M unit) :
  x ∈ xs -> (forall s, exists e, (body x s).2 = inl e) ->
  forall s, exists e, (for_ xs body s).2 = inl e.
Proof.
  unfold for_. intros Hin Hx. induction xs as [|y xs IH]; intros s.
  { by apply elem_of_nil in Hin. }
  simpl. unfold mbind, M_bind.
  destruct (body y s) as [s' [e|[]]] eqn:Hy; simpl; [by exists e|].
  apply elem_of_cons in Hin as [->|Hin]; [|by apply IH].
  destruct (Hx s) as [e He]. rewrite Hy in He. done.
Qed.

Lemma annotate_unfold (m : Mmif) :
  _annotate m
  = (Identifiers.reset;;
     set_mmif m;;
     for_ (text_documents (documents m)) top_level_step;;
     vs ← get_views;
     for_ vs view_step;;
     get_mmif).
Proof. reflexivity. Qed.

(** The two loops of [_annotate]. *)
Lemma annotate_run (m : Mmif) s :
  let s0 := mkState ∅ m in
  let r1 := for_ (text_documents (documents m)) top_level_step s0 in
  let r2 := for_ (views (mmif r1.1)) view_step r1.1 in
  _annotate m s
  = match r1.2 with
    | inl e => (r1.1, inl e)
    | inr _ =>
        match r2.2 with
        | inl e => (r2.1, inl e)
        | inr _ => (r2.1, inr (mmif r2.1))
        end
    end.
Proof.
  intros s0 r1 r2. rewrite annotate_unfold.
  unfold mbind at 1 2. unfold M_bind at 1 2. simpl.
  unfold mbind at 1. unfold M_bind at 1. fold s0. fold r1.
  destruct r1 as [s1 [e|[]]] eqn:Hr1; simpl; [done|].
  unfold mbind at 1. unfold M_bind at 1. unfold get_views at 1. simpl.
  unfold mbind at 1. unfold M_bind at 1.
  subst r2. simpl.
  by destruct (for_ (views (mmif s1)) view_step s1) as [s2 [e|[]]].
Qed.

Lemma top_level_step_run doc s :
  top_level_step doc s
  = _add_tool_output doc (length (views (mmif s))) None
      (_new_view (Some (doc_id_of doc)) s).1.
Proof. done. Qed.

Lemma view_step_run view s :
  view_step view s
  = if bool_decide (view_documents view <> []) then
      for_ (view_documents view) (fun doc =>
        _add_tool_output doc (length (views (mmif s)))
          (Some (view_id view +:+ ":" +:+ doc_id_of doc)))
        (_new_view None s).1
    else (s, inr tt).
Proof. unfold view_step. destruct (bool_decide (view_documents view <> [])); reflexivity. Qed.

(** An invariant that [_new_view] establishes for the view it adds, and
    that [_add_tool_output] keeps for that view, holds after each of the
    loops of [_annotate]. *)
Lemma annotate_inv (I : State -> Prop) (J : nat -> State -> Prop)
    (m : Mmif) s :
  I (mkState ∅ m) ->
  (forall docid s0, I s0 -> J (length (views (mmif s0))) (_new_view docid s0).1) ->
  (forall doc v did s0, J v s0 -> J v (_add_tool_output doc v did s0).1) ->
  (forall v s0, J v s0 -> I s0) ->
  I (for_ (text_documents (documents m)) top_level_step (mkState ∅ m)).1
  ∧ I (_annotate m s).1.
Proof.
  intros H0 Hnew Hadd Hweak.
  assert (forall doc s0, I s0 -> I (top_level_step doc s0).1) as Htop.
  { intros doc s0 Hs0. rewrite top_level_step_run.
    eapply Hweak, Hadd, Hnew, Hs0. }
  assert (forall view s0, I s0 -> I (view_step view s0).1) as Hview.
  { intros view s0 Hs0. rewrite view_step_run. case_bool_decide; [|done].
    apply (Hweak (length (views (mmif s0)))).
    apply (for_M_preserves (J (length (views (mmif s0))))); [|by apply Hnew].
    intros doc s1 Hs1. by apply Hadd. }
  pose proof (for_M_preserves I (text_documents (documents m)) top_level_step
                Htop (mkState ∅ m) H0) as H1.
  split; [done|].
  rewrite annotate_run.
  destruct (for_ (text_documents (documents m)) top_level_step (mkState ∅ m))
    as [s1 [e|[]]]; simpl in *; [done|].
  pose proof (for_M_preserves I (views (mmif s1)) view_step Hview s1 H1) as H2.
  by destruct (for_ (views (mmif s1)) view_step s1) as [s2 [e|[]]].
Qed.

Lemma annotate_numbered (m : Mmif) s :
  batch_numbered (length (views m)) (_annotate m s).1.
Proof.
  apply (annotate_inv (batch_numbered (length (views m)))
           (batch_view (length (views m)))).
  - apply batch_numbered_reset.
  - intros docid s0. apply new_view_numbered.
  - intros doc v did s0. apply add_tool_output_numbered.
  - by intros v s0 [? _].
Qed.

Lemma annotate_any_state (m : Mmif) s s' : _annotate m s = _annotate m s'.
Proof. done. Qed.

End Batch.

(** C3, as the code has it. After a reset every counter is zero, and the
    identifiers that a sequence of calls of [Identifiers.new] returns are
    each the prefix followed by the number of calls with that prefix so
    far; they are pairwise distinct when no prefix ends in a decimal digit,
    which holds of the six prefixes of the app. [_annotate] resets the
    counters before anything else, so its result does not depend on the
    state it is called in; the identifiers of the annotations it adds,
    over all the views of the batch, are pairwise distinct, and each is
    the prefix of the type of its annotation followed by a number between
    1 and the number of annotations of that type in the batch. *)
Theorem identifiers_unique_in_batch `{Pipeline} (ps : list string)
    (m : Mmif) (s : State) :
  Forall (fun p => ends_in_digit p = false) ps ->
  (forall p, counter (Identifiers.reset s).1 p = 0%N)
  ∧ (exists ids,
       ((Identifiers.reset;; mapM Identifiers.new ps) s).2 = inr ids
       ∧ NoDup ids
       ∧ forall (k : nat) p, ps !! k = Some p ->
           ids !! k = Some (p +:+ pretty (occurrences p (take (S k) ps))))
  ∧ Forall (fun p => ends_in_digit p = false) app_prefixes
  ∧ (forall s', _annotate m s' = _annotate m s)
  ∧ NoDup (batch_ids (length (views m)) (_annotate m s).1)
  ∧ forall a, a ∈ batch_anns (length (views m)) (_annotate m s).1 ->
      exists p (n : N),
        type_prefix (at_type a) = Some p ∧ ann_id a = p +:+ pretty n
        ∧ (1 <= n
           <= N.of_nat (length (filter (of_type (at_type a))
                                  (batch_anns (length (views m))
                                     (_annotate m s).1))))%N.
Proof.
  intros Hps. split; [|split; [|split; [|split; [|split]]]].
  - intros p. apply counter_reset.
  - destruct (news_spec ps (Identifiers.reset s).1 Hps)
      as (ids & s' & Hrun & Hnd & _).
    destruct (news_numbered ps (Identifiers.reset s).1)
      as (ids' & s'' & Hrun' & _ & Hnum).
    rewrite Hrun in Hrun'. injection Hrun' as <- <-.
    exists ids. split; [|split; [done|]].
    + change ((Identifiers.reset;; mapM Identifiers.new ps) s)
        with (mapM Identifiers.new ps (Identifiers.reset s).1).
      by rewrite Hrun.
    + intros k p Hp. rewrite (Hnum k p Hp). do 3 f_equal.
  - apply Forall_forall. intros p. apply app_prefixes_no_digit.
  - intros s'. apply annotate_any_state.
  - rewrite batch_ids_anns. by destruct (annotate_numbered m s) as (_ & Hnd & _).
  - intros a Ha. destruct (annotate_numbered m s) as (_ & _ & Hids & Hcnt).
    destruct (Hids a Ha) as (p & n & Hp & Hid & Hn).
    exists p, n. split; [done|]. split; [done|].
    by rewrite <-(Hcnt _ _ Hp).
Qed.

Lemma identifiers_unique_in_batch_witness :
  Forall (fun p => ends_in_digit p = false) ["t"; "nc"; "t"]
  ∧ (exists ids,
       ((Identifiers.reset;; mapM Identifiers.new ["t"; "nc"; "t"])
          Sample.state0).2 = inr ids
       ∧ NoDup ids
       ∧ ids !! 2%nat = Some "t2")
  ∧ NoDup (batch_ids 0
             (@_annotate Sample.cased (mkMmif [Sample.text_doc] [])
                Sample.state0).1).
Proof.
  assert (Forall (fun p => ends_in_digit p = false) ["t"; "nc"; "t"]) as Hps
    by (repeat constructor).
  split; [exact Hps|].
  destruct (@identifiers_unique_in_batch Sample.cased ["t"; "nc"; "t"]
              (mkMmif [Sample.text_doc] []) Sample.state0 Hps)
    as (_ & (ids & Hrun & Hnd & Hnum) & _ & _ & Hbatch & _).
  split; [|exact Hbatch].
  exists ids. split; [exact Hrun|]. split; [exact Hnd|].
  exact (Hnum 2%nat "t" eq_refl).
Defined.

(** C3 fails as stated: the eleventh identifier of the prefix "t" and the
    first of the prefix "t1" are the same string. *)
Lemma identifiers_collide_for_digit_prefix :
  exists ids,
    ((Identifiers.reset;;
      mapM Identifiers.new (replicate 11 "t" ++ ["t1"])) Sample.state0).2
    = inr ids
    ∧ ids !! 10%nat = Some "t11" ∧ ids !! 11%nat = Some "t11"
    ∧ ~ NoDup ids.
Proof.
  eexists. split; [vm_compute; reflexivity|].
  split; [reflexivity|]. split; [reflexivity|].
  intros Hnd. apply (bool_decide_pack _) in Hnd. vm_compute in Hnd. exact Hnd.
Qed.

(** ** What [_annotate] keeps of its input *)

Section Input.
Context `{Pipeline}.

Lemma perform_all_input_kept (m : Mmif) (v : nat) did rqs s :
  (length (views m) <= v)%nat ->
  input_kept m s -> input_kept m (perform_all v did rqs s).
Proof.
  intros Hv (Hd & Ht & Hn).
  rewrite perform_all_state. unfold input_kept. simpl.
  split; [done|]. split.
  - by rewrite take_alter_ge.
  - rewrite drop_alter_ge by done. apply Forall_alter; [done|].
    intros vw _ Hvw. by rewrite view_documents_view_extend.
Qed.

Lemma add_tool_output_input_kept (m : Mmif) doc (v : nat) did s :
  (length (views m) <= v)%nat ->
  input_kept m s -> input_kept m (_add_tool_output doc v did s).1.
Proof.
  intros Hv Hs.
  destruct (add_tool_output_any (fun _ => True) doc v did s)
    as (rqs & _ & [->| [p ->]]).
  - intros text_orig input_text _. apply Forall_forall. done.
  - by apply perform_all_input_kept.
  - by apply (perform_all_input_kept m v did rqs s).
Qed.

Lemma new_view_input_kept (m : Mmif) docid s :
  input_kept m s ->
  input_kept m (_new_view docid s).1
  ∧ (length (views m) <= length (views (mmif s)))%nat.
Proof.
  intros (Hd & Ht & Hn).
  assert (length (views m) <= length (views (mmif s)))%nat as Hk.
  { rewrite <-Ht at 1. rewrite length_take. lia. }
  split; [|done]. unfold input_kept. simpl.
  split; [done|]. split.
  - by rewrite take_app_le.
  - rewrite drop_app_le by done. apply Forall_app. split; [done|].
    by repeat constructor.
Qed.

Lemma annotate_input_kept (m : Mmif) s :
  input_kept m
    (for_ (text_documents (documents m)) top_level_step (mkState ∅ m)).1
  ∧ input_kept m (_annotate m s).1.
Proof.
  apply (annotate_inv (input_kept m)
           (fun v s0 => input_kept m s0 ∧ (length (views m) <= v)%nat)).
  - unfold input_kept. simpl. rewrite firstn_all, drop_all. done.
  - intros docid s0 Hs0. by apply new_view_input_kept.
  - intros doc v did s0 [Hs0 Hv]. split; [|done].
    by apply add_tool_output_input_kept.
  - by intros v s0 [? _].
Qed.

(** The views the second loop of [_annotate] goes through begin with the
    views of the input. *)
Lemma annotate_views_prefix (m : Mmif) :
  exists extra,
    views (mmif (for_ (text_documents (documents m)) top_level_step
                   (mkState ∅ m)).1)
    = views m ++ extra.
Proof.
  destruct (annotate_input_kept m (mkState ∅ m)) as [(_ & Ht & _) _].
  eexists. etransitivity; [symmetry; apply (take_drop (length (views m)))|].
  by rewrite Ht.
Qed.

End Input.

(** ** Failures of reading a document *)

Section ReadFailures.
Context `{Pipeline}.

Lemma read_text_remote doc l s :
  location doc = Some l -> l <> EmptyString ->
  _read_text doc s = (s, urlopen l).
Proof.
  intros Hl Hne. unfold _read_text, truthy. rewrite Hl; simpl.
  by rewrite bool_decide_eq_true_2.
Qed.

Lemma app_split_at {A} (l1 l2 before after : list A) (x : A) :
  l1 ++ l2 = before ++ x :: after ->
  (exists k, l1 = before ++ x :: k ∧ after = k ++ l2)
  ∨ (exists k, before = l1 ++ k ∧ l2 = k ++ x :: after).
Proof.
  intros [(k & Hl1 & Hk)|(k & Hb & Hl2)]%app_eq_inv.
  - destruct k as [|y k].
    + right. exists []. rewrite app_nil_r in Hl1. by rewrite app_nil_r.
    + injection Hk as <- ->. left. by exists k.
  - right. by exists k.
Qed.

Section Failing.
Context (doc : Document) (e : Exn).
Hypothesis Hread : forall s, (_read_text doc s).2 = inl e.

Lemma add_tool_output_fails view doc_id s :
  _add_tool_output doc view doc_id s = (s, inl e).
Proof. apply add_tool_output_read_fails, Hread. Qed.

Lemma top_level_step_fails s : (top_level_step doc s).2 = inl e.
Proof. rewrite top_level_step_run. by rewrite add_tool_output_fails. Qed.

Lemma top_level_step_ok (k : nat) d s :
  doc_ok d -> batch_numbered k s ->
  batch_numbered k (top_level_step d s).1 ∧ (top_level_step d s).2 = inr tt.
Proof.
  intros Hd Hs. rewrite top_level_step_run.
  pose proof (new_view_numbered k (Some (doc_id_of d)) s Hs) as Hv.
  split.
  - by destruct (add_tool_output_numbered k _ d None _ Hv).
  - by apply (add_tool_output_ok k).
Qed.

Lemma view_step_ok (k : nat) view s :
  Forall doc_ok (view_documents view) -> batch_numbered k s ->
  batch_numbered k (view_step view s).1 ∧ (view_step view s).2 = inr tt.
Proof.
  intros Hds Hs. rewrite view_step_run. case_bool_decide; [|done].
  pose proof (new_view_numbered k None s Hs) as Hv.
  destruct (for_M_returns (batch_view k (length (views (mmif s))))
              (view_documents view)
              (fun d => _add_tool_output d (length (views (mmif s)))
                          (Some (view_id view +:+ ":" +:+ doc_id_of d)))) with
    (s := (_new_view None s).1) as [[Hn _] Hr]; [|done|done].
  intros d s0 Hd Hs0. split.
  - by apply add_tool_output_numbered.
  - apply (add_tool_output_ok k); [|done].
    by apply (proj1 (Forall_forall _ _) Hds).
Qed.

Lemma view_step_fails (k : nat) view before after s :
  view_documents view = before ++ doc :: after ->
  Forall doc_ok before -> batch_numbered k s ->
  (view_step view s).2 = inl e.
Proof.
  intros Hds Hb Hs. rewrite view_step_run.
  rewrite bool_decide_eq_true_2 by (rewrite Hds; by destruct before).
  rewrite Hds.
  pose proof (new_view_numbered k None s Hs) as Hv.
  apply (for_M_first_failure (batch_view k (length (views (mmif s)))));
    [| |done].
  - intros d s0 Hd Hs0. split.
    + by apply add_tool_output_numbered.
    + apply (add_tool_output_ok k); [|done].
      by apply (proj1 (Forall_forall _ _) Hb).
  - intros s0 _. by rewrite add_tool_output_fails.
Qed.

Lemma view_step_raises view s :
  doc ∈ view_documents view -> exists e', (view_step view s).2 = inl e'.
Proof.
  intros Hin. rewrite view_step_run.
  rewrite bool_decide_eq_true_2
    by (intros Hnil; rewrite Hnil in Hin; by apply elem_of_nil in Hin).
  apply (for_M_raises (view_documents view) doc); [done|].
  intros s0. exists e. by rewrite add_tool_output_fails.
Qed.

Lemma for_cons_run {A} (x : A) xs (body : A -> M unit) s :
  (body x s).2 = inr tt ->
  for_ (x :: xs) body s = for_ xs body (body x s).1.
Proof.
  intros Hb. unfold for_; simpl. unfold mbind, M_bind.
  destruct (body x s) as [s' r]; simpl in *. by subst r.
Qed.

Lemma for_cons_raises {A} (x : A) xs (body : A -> M unit) s e' :
  (body x s).2 = inl e' -> (for_ (x :: xs) body s).2 = inl e'.
Proof.
  intros Hb. unfold for_; simpl. unfold mbind, M_bind.
  destruct (body x s) as [s' r]; simpl in *. by subst r.
Qed.

Lemma views_loop_fails (k : nat) (vs extra : list View) before after s :
  vs ≫= view_documents = before ++ doc :: after ->
  Forall doc_ok before -> batch_numbered k s ->
  (for_ (vs ++ extra) view_step s).2 = inl e.
Proof.
  revert before s. induction vs as [|v vs IH]; intros before s Hds Hb Hs.
  { by destruct before. }
  rewrite bind_cons in Hds.
  change ((v :: vs) ++ extra) with (v :: (vs ++ extra)).
  apply app_split_at in Hds as [(rest & Hv & _)|(rest & -> & Hvs)].
  - apply for_cons_raises. by apply (view_step_fails k v before rest).
  - apply Forall_app in Hb as [Hb1 Hb2].
    destruct (view_step_ok k v s Hb1 Hs) as [Hs' Hr].
    rewrite for_cons_run by done. by apply (IH rest).
Qed.

Lemma annotate_fails m before after s :
  processed m = before ++ doc :: after -> Forall doc_ok before ->
  (_annotate m s).2 = inl e.
Proof.
  intros Hds Hb. rewrite annotate_run. unfold processed in Hds.
  apply app_split_at in Hds as [(rest & Hv & _)|(rest & -> & Hvs)].
  - rewrite Hv.
    rewrite (for_M_first_failure (batch_numbered (length (views m)))
               before rest doc top_level_step e); [done| | |].
    + intros d s0 Hd Hs0. apply top_level_step_ok; [|done].
      by apply (proj1 (Forall_forall _ _) Hb).
    + intros s0 _. apply top_level_step_fails.
    + apply batch_numbered_reset.
  - apply Forall_app in Hb as [Hb1 Hb2].
    destruct (annotate_views_prefix m) as [extra Hvs'].
    destruct (for_M_returns (batch_numbered (length (views m)))
                (text_documents (documents m)) top_level_step)
      with (s := mkState ∅ m) as [Hs1 Hr1].
    { intros d s0 Hd Hs0. apply top_level_step_ok; [|done].
      by apply (proj1 (Forall_forall _ _) Hb1). }
    { apply batch_numbered_reset. }
    rewrite Hr1, Hvs'.
    by rewrite (views_loop_fails (length (views m)) (views m) extra rest after).
Qed.

Lemma annotate_raises m s :
  doc ∈ processed m -> exists e', (_annotate m s).2 = inl e'.
Proof.
  intros Hin. rewrite annotate_run. unfold processed in Hin.
  apply elem_of_app in Hin as [Hin|Hin].
  - destruct (for_M_raises (text_documents (documents m)) doc top_level_step
                Hin) with (s := mkState ∅ m) as [e' He'].
    { intros s0. exists e. apply top_level_step_fails. }
    rewrite He'. by exists e'.
  - apply list_elem_of_bind in Hin as (view & Hdoc & Hview).
    destruct (annotate_views_prefix m) as [extra Hvs].
    destruct (for_ (text_documents (documents m)) top_level_step (mkState ∅ m))
      as [s1 [e1|[]]]; simpl in *; [by exists e1|].
    destruct (for_M_raises (views (mmif s1)) view view_step) with (s := s1)
      as [e' He'].
    { rewrite Hvs. apply elem_of_app. by left. }
    { intros s0. by apply view_step_raises. }
    rewrite He'. by exists e'.
Qed.

End Failing.

(** C5, as the code has it. No handler surrounds the call of
    [urllib.request.urlopen]: when fetching the location of a document
    fails, the exception leaves [_read_text] and [_add_tool_output]
    unhandled, the state untouched by the failing call, and [_annotate]
    raises for every input that has the document among those it goes
    through, at the top level or in a view; it raises this very exception
    when the documents before it are read and parsed without a fault. The
    one handler of the app is in [find_dbpedia_type]: an exception of the
    entity-type lookup gives [None]. *)
Theorem network_error_propagates (doc : Document) (l : string) (e : Exn) :
  location doc = Some l -> l <> EmptyString -> urlopen l = inl e ->
  (forall s, _read_text doc s = (s, inl e))
  ∧ (forall view doc_id s, _add_tool_output doc view doc_id s = (s, inl e))
  ∧ (forall m s, doc ∈ processed m -> exists e', (_annotate m s).2 = inl e')
  ∧ (forall m before after s,
       processed m = before ++ doc :: after -> Forall doc_ok before ->
       (_annotate m s).2 = inl e)
  ∧ (forall ent e', find_dbpedia_type_try ent = inl e' ->
       find_dbpedia_type ent = None).
Proof.
  intros Hl Hne Hu.
  assert (forall s, _read_text doc s = (s, inl e)) as Hread.
  { intros s. rewrite (read_text_remote doc l s) by done. by rewrite Hu. }
  assert (forall s, (_read_text doc s).2 = inl e) as Hread2
    by (intros s; by rewrite Hread).
  split; [done|]. split; [|split; [|split]].
  - intros view doc_id s. by apply add_tool_output_fails.
  - intros m s. by apply (annotate_raises doc e).
  - intros m before after s. by apply (annotate_fails doc e).
  - apply find_dbpedia_type_caught.
Qed.

End ReadFailures.

Lemma network_error_propagates_witness :
  location Sample.remote_doc = Some "http://example.org/transcript.txt"
  ∧ @_add_tool_output Sample.offline Sample.remote_doc 0%nat None Sample.state0
    = (Sample.state0, inl URLError)
  ∧ (@_annotate Sample.offline
       (mkMmif [] [mkView "v1" [] [] [Sample.remote_doc]]) Sample.state0).2
    = inl URLError.
Proof.
  split; [reflexivity|].
  destruct (@network_error_propagates Sample.offline Sample.remote_doc
              "http://example.org/transcript.txt" URLError)
    as (_ & Hadd & _ & Hann & _);
    [reflexivity | discriminate | reflexivity |].
  split; [apply Hadd|].
  apply (Hann (mkMmif [] [mkView "v1" [] [] [Sample.remote_doc]]) [] []);
    [reflexivity|constructor].
Defined.

(** C5 fails as stated: with the network down, the caller of [_annotate]
    gets the [URLError] of the first remote document. *)
Lemma network_error_reaches_caller :
  (@_read_text Sample.offline Sample.remote_doc Sample.state0).2 = inl URLError
  ∧ (@_annotate Sample.offline (mkMmif [Sample.remote_doc] []) Sample.state0).2
    = inl URLError.
Proof. split; vm_compute; reflexivity. Qed.

(** * Further properties of the code *)

(** ** A well-formed parse is processed to the end *)

Section Returns.
Context `{Pipeline}.

(** X10. On a text whose parse is well formed (the ranges of its chunks,
    sentences and entities are non-empty and inside the document, the
    roots of its entities are tokens of it), and in a view none of whose
    identifiers is ahead of the counters, [_add_tool_output] raises
    nothing. *)
Theorem add_tool_output_returns (doc : Document) (view : nat)
    (doc_id : option string) (s : State) (text_orig input_text : string) :
  ids_fresh view s ->
  (_read_text doc s).2 = inr text_orig ->
  input_text_of text_orig = inr input_text ->
  doc_wf (nlp input_text) ->
  (_add_tool_output doc view doc_id s).2 = inr tt.
Proof.
  intros Hf Hread Hin Hwf.
  by rewrite (add_tool_output_wf doc view doc_id s text_orig input_text).
Qed.

End Returns.

Lemma add_tool_output_returns_witness :
  ids_fresh 0 Sample.state0
  ∧ doc_wf (@nlp Sample.cased "IBM builds computers")
  ∧ (@_add_tool_output Sample.cased Sample.text_doc 0 None Sample.state0).2
    = inr tt.
Proof.
  assert (ids_fresh 0 Sample.state0) as Hf by (by apply ids_fresh_empty).
  assert (doc_wf (@nlp Sample.cased "IBM builds computers")) as Hwf
    by (apply (bool_decide_unpack _); vm_compute; exact I).
  split; [exact Hf|]. split; [exact Hwf|].
  apply (@add_tool_output_returns Sample.cased Sample.text_doc 0 None
           Sample.state0 "IBM builds computers" "IBM builds computers");
    [exact Hf|reflexivity|reflexivity|exact Hwf].
Defined.

(** ** Strings *)

Section StringFacts.

Lemma append_nil_r s : s +:+ EmptyString = s.
Proof. induction s as [|c s IH]; [done|]. unfold String.app in *. simpl. by rewrite IH. Qed.

Lemma append_assoc s1 s2 s3 : (s1 +:+ s2) +:+ s3 = s1 +:+ (s2 +:+ s3).
Proof.
  induction s1 as [|c s1 IH]; [done|]. unfold String.app in *. simpl.
  by rewrite IH.
Qed.

Lemma length_append s1 s2 :
  String.length (s1 +:+ s2) = (String.length s1 + String.length s2)%nat.
Proof.
  induction s1 as [|c s1 IH]; [done|]. unfold String.app in *. simpl.
  by rewrite IH.
Qed.

Lemma prefix_spec p s :
  String.prefix p s = true <-> exists rest, s = p +:+ rest.
Proof.
  revert p. induction s as [|b s IH]; intros [|a p]; simpl.
  - split; [by exists EmptyString|done].
  - split; [done|]. by intros [rest ?].
  - split; [by exists (String b s)|done].
  - destruct (ascii_dec a b) as [->|Hne].
    + rewrite IH. split.
      * intros [rest ->]. by exists rest.
      * intros [rest Heq]. exists rest.
        change (String b s = String b (p +:+ rest)) in Heq. congruence.
    + split; [done|]. intros [rest Heq].
      change (String b s = String a (p +:+ rest)) in Heq. congruence.
Qed.

Lemma str_contains_spec sub s :
  str_contains sub s = true <-> occurs_in sub s.
Proof.
  unfold occurs_in. induction s as [|c s IH].
  - change (str_contains sub EmptyString)
      with (String.prefix sub EmptyString || false).
    rewrite orb_false_r, prefix_spec. split.
    + intros [rest Hr]. by exists EmptyString, rest.
    + intros ([|a pre] & post & Heq); [by exists post|done].
  - change (str_contains sub (String c s))
      with (String.prefix sub (String c s) || str_contains sub s).
    rewrite orb_true_iff, prefix_spec, IH. split.
    + intros [[rest Hr]|(pre & post & ->)].
      * by exists EmptyString, rest.
      * by exists (String c pre), post.
    + intros ([|a pre] & post & Heq).
      * left. by exists post.
      * right. exists pre, post.
        change (String c s = String a (pre +:+ sub +:+ post)) in Heq.
        congruence.
Qed.

End StringFacts.

(** ** The category of an entity *)

Section Categories.

(** X3. For an entity whose raw record has a string under ['@types'],
    [find_dbpedia_type] returns the first of Person, Place, Organisation,
    Device whose name with the prefix ["DBpedia:"] occurs somewhere in that
    string, and [None] when none does. *)
Theorem find_dbpedia_type_first_category (ent : Span)
    (d : gmap string field) (types : string) :
  dbpedia_raw_result ent = Some d ->
  d !! "@types" = Some (FStr types) ->
  find_dbpedia_type ent = hd_error (categories_in types)
  ∧ forall c, c ∈ categories_in types
      <-> c ∈ interested_types ∧ occurs_in ("DBpedia:" +:+ c) types.
Proof.
  intros Hd Ht. split.
  - unfold find_dbpedia_type, find_dbpedia_type_try, raw_types, categories_in.
    rewrite Hd, Ht. unfold interested_types. simpl.
    rewrite !filter_cons, filter_nil.
    destruct (str_contains (prefix +:+ "Person") types); [done|].
    destruct (str_contains (prefix +:+ "Place") types); [done|].
    destruct (str_contains (prefix +:+ "Organisation") types); [done|].
    destruct (str_contains (prefix +:+ "Device") types); done.
  - intros c. unfold categories_in. rewrite list_elem_of_filter.
    rewrite str_contains_spec. unfold prefix. tauto.
Qed.

Lemma find_dbpedia_type_first_category_witness :
  dbpedia_raw_result Sample.ent_IBM
  = Some {[ "@types" :=
              FStr "DBpedia:Agent,DBpedia:Organisation,DBpedia:Company" ]}
  ∧ find_dbpedia_type Sample.ent_IBM = Some "Organisation".
Proof.
  split; [reflexivity|].
  destruct (find_dbpedia_type_first_category Sample.ent_IBM
              {[ "@types" :=
                   FStr "DBpedia:Agent,DBpedia:Organisation,DBpedia:Company" ]}
              "DBpedia:Agent,DBpedia:Organisation,DBpedia:Company")
    as [-> _]; reflexivity.
Defined.

End Categories.

(** ** The numbers in the identifiers *)

Section IdentifierNumbers.

(** X1. After a reset, the [k]-th call of [Identifiers.new] returns its
    prefix followed by the number of calls with that prefix so far, this
    one included: the numbers of a prefix are 1, 2, 3, ... in the order
    of the calls, whatever other prefixes come in between. *)
Theorem identifiers_numbered (ps : list string) (s : State) :
  exists ids,
    ((Identifiers.reset;; mapM Identifiers.new ps) s).2 = inr ids
    ∧ length ids = length ps
    ∧ forall (k : nat) p, ps !! k = Some p ->
        ids !! k = Some (p +:+ pretty (occurrences p (take (S k) ps))).
Proof.
  destruct (news_numbered ps (Identifiers.reset s).1)
    as (ids & s' & Hrun & Hlen & Hids).
  exists ids. split; [|split; [done|]].
  - change ((Identifiers.reset;; mapM Identifiers.new ps) s)
      with (mapM Identifiers.new ps (Identifiers.reset s).1).
    by rewrite Hrun.
  - intros k p Hp. rewrite (Hids k p Hp). do 3 f_equal.
Qed.

End IdentifierNumbers.

(** ** The keys of the offset table *)

Section TableKeys.
Context (view : nat) (doc_id : option string) (text_orig : string).

(** X2. In a view none of whose identifiers is ahead of the counters, the
    first loop over the tokens raises nothing, and the keys of the table
    it leaves are the token indices [0 .. n-1], no other integer. *)
Theorem offset_table_keys (d : Doc) (s : State) :
  ids_fresh view s ->
  exists tok_idx,
    (for_fold (enumerate (tokens d)) ∅ (token_body view doc_id text_orig) s).2
    = inr tok_idx
    ∧ forall z, is_Some (tok_idx !! z)
        <-> 0 <= z < Z.of_nat (length (tokens d)).
Proof.
  intros Hf. exists (tok_idx_of (tokens d)).
  split; [by apply token_pass_table|].
  intros z. rewrite tok_idx_of_lookup. case_decide as Hz.
  - rewrite fmap_is_Some, lookup_lt_is_Some. lia.
  - split; [by intros [? ?]|lia].
Qed.

End TableKeys.

Lemma offset_table_keys_witness :
  ids_fresh 0 Sample.state0
  ∧ exists tok_idx,
      (for_fold (enumerate (tokens Sample.doc_IBM)) ∅
         (token_body 0 None Sample.text_IBM) Sample.state0).2 = inr tok_idx
      ∧ is_Some (tok_idx !! 2).
Proof.
  assert (ids_fresh 0 Sample.state0) as Hf by (by apply ids_fresh_empty).
  split; [exact Hf|].
  destruct (offset_table_keys 0 None Sample.text_IBM Sample.doc_IBM
              Sample.state0 Hf) as (tbl & Hrun & Hkeys).
  exists tbl. split; [exact Hrun|]. apply Hkeys. simpl. lia.
Defined.

(** ** The text documents of the input *)

Section TextDocuments.

Lemma substring_append pre post m :
  String.substring (String.length pre) m (pre +:+ post)
  = String.substring 0 m post.
Proof. induction pre as [|c pre IH]; [done|]. exact IH. Qed.

Lemma substring_all s : String.substring 0 (String.length s) s = s.
Proof. induction s as [|c s IH]; [done|]. simpl. by rewrite IH. Qed.

Lemma string_split s (n : nat) :
  (n <= String.length s)%nat ->
  exists pre post, s = pre +:+ post ∧ String.length pre = n.
Proof.
  revert n. induction s as [|c s IH]; intros n Hn.
  - exists EmptyString, EmptyString. simpl in *. split; [done|lia].
  - destruct n as [|n]; [by exists EmptyString, (String c s)|].
    destruct (IH n) as (pre & post & -> & Hlen); [simpl in Hn; lia|].
    exists (String c pre), post. split; [done|]. simpl. by rewrite Hlen.
Qed.

Lemma endswith_spec s suffix : endswith s suffix = true <-> ends_with s suffix.
Proof.
  unfold endswith, ends_with. rewrite bool_decide_eq_true. unfold py_slice, len.
  split.
  - intros [Hsl Hle]. unfold slice_bound in Hsl.
    rewrite !decide_False in Hsl by lia.
    rewrite Z.min_l, Z.min_id in Hsl by lia.
    destruct (string_split s (String.length s - String.length suffix))
      as (pre & post & -> & Hpre); [lia|].
    exists pre. f_equal. rewrite length_append in Hsl, Hpre, Hle.
    replace (Z.to_nat (Z.of_nat (String.length pre + String.length post)
                       - Z.of_nat (String.length suffix)))
      with (String.length pre) in Hsl by lia.
    rewrite substring_append in Hsl.
    replace (Z.to_nat _) with (String.length post) in Hsl by lia.
    by rewrite substring_all in Hsl.
  - intros [pre ->]. rewrite length_append. split; [|lia].
    unfold slice_bound. rewrite !decide_False by lia.
    rewrite Z.min_l, Z.min_id by lia.
    replace (Z.to_nat (Z.of_nat (String.length pre + String.length suffix)
                       - Z.of_nat (String.length suffix)))
      with (String.length pre) by lia.
    rewrite substring_append.
    replace (Z.to_nat _) with (String.length suffix) by lia.
    apply substring_all.
Qed.

(** X4. [text_documents] keeps, in their order, exactly the documents
    whose type ends in ["TextDocument"]. *)
Theorem text_documents_spec (docs : list Document) :
  sublist (text_documents docs) docs
  ∧ forall doc, doc ∈ text_documents docs
      <-> doc ∈ docs ∧ ends_with (doc_at_type doc) "TextDocument".
Proof.
  split; [apply sublist_filter|].
  intros doc. unfold text_documents. rewrite list_elem_of_filter.
  rewrite endswith_spec. unfold TEXT_DOCUMENT. tauto.
Qed.

End TextDocuments.

(** ** The shape of the annotations *)

Section AnnotationShapes.
Context `{Pipeline}.

Lemma dict_get_fresh {K V} `{EqDecision K} (k : K) (d : list (K * V)) :
  k ∉ d.*1 -> dict_get k d = None.
Proof.
  induction d as [|[k' v'] d IH]; [done|]. simpl.
  intros [Hne Hk]%not_elem_of_cons. destruct (decide (k = k')); [done|auto].
Qed.

(** X9. Every annotation that [_add_tool_output] adds is a token, a noun
    chunk, a sentence, a named entity, a dependency or a relation (never
    of the types POS or LEMMA that the view also declares); its identifier
    is the prefix of its type followed by a number; it has a start and an
    end exactly when it is of one of the first four types. *)
Theorem annotation_shapes (doc : Document) (view : nat)
    (doc_id : option string) (s : State) (a : Annotation) :
  (view < length (views (mmif s)))%nat ->
  a ∈ added (_add_tool_output doc view doc_id) s view ->
  (exists p (n : N),
     type_prefix (at_type a) = Some p ∧ ann_id a = p +:+ pretty n)
  ∧ (is_Some (int_attr "start" (properties a))
     <-> has_offsets (at_type a) = true)
  ∧ (is_Some (int_attr "end" (properties a))
     <-> has_offsets (at_type a) = true).
Proof.
  intros Hv Ha.
  destruct (added_any req_shape doc view doc_id s) as (rqs & Hall & Hadd);
    [intros ? ? _; apply annotate_doc_T_shapes|done|].
  rewrite Hadd in Ha.
  apply stamp_elem in Ha as (rq & n & Hrq & ->).
  rewrite Forall_forall in Hall.
  destruct (Hall rq Hrq) as (Hp & Hst & Hen & Hfresh).
  rewrite new_annotation_type, new_annotation_id.
  rewrite new_annotation_properties by done.
  destruct Hfresh as (_ & _ & Hs & He).
  split; [by exists (rq_prefix rq), n|].
  split; [rewrite <-Hst|rewrite <-Hen]; unfold int_attr.
  - rewrite dict_get_app, (dict_get_fresh "start" (rq_props rq)) by done.
    destruct doc_id, (rq_start rq), (rq_end rq); simpl;
      (split; intros [? ?]; (done || eauto)).
  - rewrite dict_get_app, (dict_get_fresh "end" (rq_props rq)) by done.
    destruct doc_id, (rq_start rq), (rq_end rq); simpl;
      (split; intros [? ?]; (done || eauto)).
Qed.

(** X8. Every annotation that [_add_tool_output] adds has the document
    identifier it was called with under ["document"], and no such property
    when it was called with none. *)
Theorem annotation_document (doc : Document) (view : nat)
    (doc_id : option string) (s : State) (a : Annotation) :
  (view < length (views (mmif s)))%nat ->
  a ∈ added (_add_tool_output doc view doc_id) s view ->
  dict_get "document" (properties a) = VStr <$> doc_id.
Proof.
  intros Hv Ha.
  destruct (added_any req_shape doc view doc_id s) as (rqs & Hall & Hadd);
    [intros ? ? _; apply annotate_doc_T_shapes|done|].
  rewrite Hadd in Ha.
  apply stamp_elem in Ha as (rq & n & Hrq & ->).
  rewrite Forall_forall in Hall.
  destruct (Hall rq Hrq) as (_ & _ & _ & Hfresh).
  rewrite new_annotation_properties by done.
  destruct Hfresh as (_ & Hd & _ & _).
  rewrite dict_get_app, (dict_get_fresh "document" (rq_props rq)) by done.
  by destruct doc_id, (rq_start rq), (rq_end rq).
Qed.

End AnnotationShapes.

Lemma annotation_shapes_witness :
  Sample.relation_IBM_computers
  ∈ added (@_add_tool_output Sample.cased Sample.text_doc 0 None)
      Sample.state0 0
  ∧ (is_Some (int_attr "start" (properties Sample.relation_IBM_computers))
     <-> has_offsets (at_type Sample.relation_IBM_computers) = true).
Proof.
  assert (Sample.relation_IBM_computers
          ∈ added (@_add_tool_output Sample.cased Sample.text_doc 0 None)
              Sample.state0 0) as Hin
    by (apply (bool_decide_unpack _); vm_compute; exact I).
  split; [exact Hin|].
  destruct (@annotation_shapes Sample.cased Sample.text_doc 0 None
              Sample.state0 Sample.relation_IBM_computers) as (_ & Hs & _);
    [simpl; lia|exact Hin|exact Hs].
Defined.

Lemma annotation_document_witness :
  Sample.token_IBM_of_transcript
  ∈ added (@_add_tool_output Sample.cased Sample.text_doc 0 (Some "v1:d1"))
      Sample.state0 0
  ∧ dict_get "document" (properties Sample.token_IBM_of_transcript)
    = Some (VStr "v1:d1").
Proof.
  assert (Sample.token_IBM_of_transcript
          ∈ added (@_add_tool_output Sample.cased Sample.text_doc 0
                     (Some "v1:d1")) Sample.state0 0) as Hin
    by (apply (bool_decide_unpack _); vm_compute; exact I).
  split; [exact Hin|].
  apply (@annotation_document Sample.cased Sample.text_doc 0 (Some "v1:d1")
           Sample.state0); [simpl; lia|exact Hin].
Defined.


(** ** What a call leaves of the state it finds *)

Section Appends.
Context `{Pipeline}.

(** The documents and views a call of [_add_tool_output] leaves, raising
    or not: those it found, the view extended. *)
Lemma add_tool_output_mmif doc (view : nat) doc_id s :
  exists anns,
    documents (mmif (_add_tool_output doc view doc_id s).1)
    = documents (mmif s)
    ∧ length (views (mmif (_add_tool_output doc view doc_id s).1))
      = length (views (mmif s))
    ∧ views (mmif (_add_tool_output doc view doc_id s).1)
      = alter (view_extend anns) view (views (mmif s)).
Proof.
  destruct (add_tool_output_any (fun _ => True) doc view doc_id s)
    as (rqs & _ & Hs).
  { intros ? ? _. by apply Forall_forall. }
  exists (stamp doc_id (identifiers s) rqs).
  assert (mmif (_add_tool_output doc view doc_id s).1
          = mmif (perform_all view doc_id rqs s)) as ->.
  { by destruct Hs as [->|[p ->]]. }
  rewrite perform_all_state. simpl. split; [done|].
  split; [apply length_alter|done].
Qed.

(** X16. [_add_tool_output] only appends to the view it is given: the
    documents, the number of views and every other view stay as they are,
    and the view itself keeps its identifier, its documents and its
    annotations, those added coming after them. This holds also when the
    call raises, be it for the text, for the parse or because the view
    refuses an identifier. *)
Theorem add_tool_output_only_appends (doc : Document) (view : nat)
    (doc_id : option string) (s : State) (vw : View) :
  views (mmif s) !! view = Some vw ->
  let s' := (_add_tool_output doc view doc_id s).1 in
  documents (mmif s') = documents (mmif s)
  ∧ length (views (mmif s')) = length (views (mmif s))
  ∧ (forall v, v <> view -> views (mmif s') !! v = views (mmif s) !! v)
  ∧ exists vw',
      views (mmif s') !! view = Some vw'
      ∧ view_id vw' = view_id vw
      ∧ view_documents vw' = view_documents vw
      ∧ annotations vw'
        = annotations vw ++ added (_add_tool_output doc view doc_id) s view.
Proof.
  intros Hvw s'.
  destruct (add_tool_output_mmif doc view doc_id s) as (anns & Hd & Hl & Hvs).
  fold s' in Hd, Hl, Hvs.
  split; [done|]. split; [done|]. split.
  - intros v Hne. by rewrite Hvs, list_lookup_alter_ne.
  - exists (view_extend anns vw).
    assert (views (mmif s') !! view = Some (view_extend anns vw)) as Hvw'
      by (by rewrite Hvs, list_lookup_alter_eq, Hvw).
    split; [done|]. split; [apply view_id_view_extend|].
    split; [apply view_documents_view_extend|].
    unfold added, view_annotations. fold s'. rewrite Hvw', Hvw. simpl.
    rewrite annotations_view_extend. by rewrite drop_app_length.
Qed.

(** X5. [_annotate] never touches what it is given: in the state it
    leaves, raising or not, the documents are those of the input, the
    views of the input come first and are unchanged, and the views after
    them hold no documents. What it returns is the [Mmif] of that state. *)
Theorem annotate_keeps_input (m : Mmif) (s : State) :
  documents (mmif (_annotate m s).1) = documents m
  ∧ take (length (views m)) (views (mmif (_annotate m s).1)) = views m
  ∧ Forall (fun v => view_documents v = [])
      (drop (length (views m)) (views (mmif (_annotate m s).1)))
  ∧ forall mm, (_annotate m s).2 = inr mm -> mm = mmif (_annotate m s).1.
Proof.
  destruct (annotate_input_kept m s) as [_ (Hd & Ht & Hn)].
  split; [done|]. split; [done|]. split; [done|].
  intros mm. rewrite annotate_run.
  destruct (for_ (text_documents (documents m)) top_level_step (mkState ∅ m))
    as [s1 [e|[]]]; simpl; [done|].
  destruct (for_ (views (mmif s1)) view_step s1) as [s2 [e|[]]]; simpl; [done|].
  by intros [= <-].
Qed.

End Appends.

Lemma add_tool_output_only_appends_witness :
  views (mmif Sample.stale_state) !! 0%nat = Some Sample.stale_view
  ∧ (@_add_tool_output Sample.cased Sample.text_doc 0 None
       Sample.stale_state).2 = inl KeyError
  ∧ exists vw',
      views (mmif (@_add_tool_output Sample.cased Sample.text_doc 0 None
                     Sample.stale_state).1) !! 0%nat = Some vw'
      ∧ view_id vw' = "v_0"
      ∧ annotations vw'
        = annotations Sample.stale_view
          ++ added (@_add_tool_output Sample.cased Sample.text_doc 0 None)
               Sample.stale_state 0.
Proof.
  split; [reflexivity|]. split; [reflexivity|].
  destruct (@add_tool_output_only_appends Sample.cased Sample.text_doc 0 None
              Sample.stale_state Sample.stale_view eq_refl)
    as (_ & _ & _ & vw' & Hvw' & Hid & _ & Hanns).
  exists vw'. split; [exact Hvw'|]. split; [exact Hid|exact Hanns].
Defined.

(** ** The views a call adds *)

Section ViewCount.
Context `{Pipeline}.

Lemma for_M_count {A} (f : A -> nat) (xs : list A) (body : A -> M unit) :
  (forall x s, views_of (body x s).1 = (views_of s + f x)%nat) ->
  forall s s', for_ xs body s = (s', inr tt) ->
    views_of s' = (views_of s + sum_list_with f xs)%nat.
Proof.
  intros Hb. unfold for_. induction xs as [|x xs IH]; intros s s' Hrun.
  - injection Hrun as <-. simpl. lia.
  - simpl in Hrun. unfold mbind, M_bind in Hrun. specialize (Hb x s).
    destruct (body x s) as [s1 [e|[]]]; simpl in *; [done|].
    rewrite (IH s1 s' Hrun). lia.
Qed.

Lemma add_tool_output_views doc (v : nat) did s :
  views_of (_add_tool_output doc v did s).1 = views_of s.
Proof.
  unfold views_of.
  by destruct (add_tool_output_mmif doc v did s) as (anns & _ & -> & _).
Qed.

Lemma top_level_step_views doc s :
  views_of (top_level_step doc s).1 = (views_of s + 1)%nat.
Proof.
  change (top_level_step doc s)
    with (_add_tool_output doc (length (views (mmif s))) None
            (_new_view (Some (doc_id_of doc)) s).1).
  rewrite add_tool_output_views. unfold views_of. simpl.
  rewrite length_app. done.
Qed.

Lemma view_step_views view s :
  views_of (view_step view s).1
  = (views_of s + if bool_decide (holds_documents view) then 1 else 0)%nat.
Proof.
  unfold view_step, holds_documents.
  destruct (decide (view_documents view <> [])) as [Hd|Hd].
  2:{ rewrite !bool_decide_eq_false_2 by done.
      change (views_of s = (views_of s + 0)%nat). lia. }
  rewrite !bool_decide_eq_true_2 by done.
  match goal with
  | |- context [(?m ≫= ?k) s] =>
      change ((m ≫= k) s)
        with (k (length (views (mmif s))) (_new_view None s).1)
  end.
  assert (views_of (_new_view None s).1 = (views_of s + 1)%nat) as <-.
  { unfold views_of. simpl. by rewrite length_app. }
  generalize (_new_view None s).1. intros s1.
  apply (for_M_preserves (fun s2 => views_of s2 = views_of s1)); [|done].
  intros doc s2 Hs2. by rewrite add_tool_output_views.
Qed.

Lemma sum_holds_documents (vs : list View) :
  sum_list_with (fun v => if bool_decide (holds_documents v) then 1 else 0)%nat vs
  = length (filter holds_documents vs).
Proof.
  induction vs as [|v vs IH]; [done|]. simpl. rewrite filter_cons, IH.
  case_bool_decide.
  - by rewrite decide_True.
  - by rewrite decide_False.
Qed.

Lemma sum_ones {A} (l : list A) :
  sum_list_with (fun _ => 1%nat) l = length l.
Proof. induction l as [|x l IH]; simpl; [done|]. by rewrite IH. Qed.

(** X6. When [_annotate] returns, the document it returns has, after the
    views of the input, one new view for each text document of the input
    and one for each view of the input that holds documents. *)
Theorem annotate_view_count (m mm : Mmif) (s : State) :
  (_annotate m s).2 = inr mm ->
  length (views mm)
  = (length (views m) + length (text_documents (documents m))
     + length (filter holds_documents (views m)))%nat.
Proof.
  rewrite annotate_run.
  destruct (annotate_input_kept m s) as [(_ & Ht & Hn) _].
  destruct (for_ (text_documents (documents m)) top_level_step (mkState ∅ m))
    as [s1 [e|[]]] eqn:Hr1; simpl in *; [done|].
  destruct (for_ (views (mmif s1)) view_step s1) as [s2 [e|[]]] eqn:Hr2;
    simpl; [done|].
  intros [= <-].
  pose proof (for_M_count (fun _ => 1%nat) _ _ top_level_step_views _ _ Hr1) as H1.
  pose proof (for_M_count _ _ _ view_step_views _ _ Hr2) as H2.
  unfold views_of in *. simpl in H1. rewrite H2, H1.
  rewrite sum_holds_documents.
  rewrite <-(take_drop (length (views m)) (views (mmif s1))), Ht.
  rewrite filter_app.
  assert (filter holds_documents (drop (length (views m)) (views (mmif s1))) = [])
    as ->.
  { clear -Hn. induction Hn as [|v vs Hv _ IH]; [done|].
    rewrite filter_cons, decide_False; [done|]. unfold holds_documents.
    rewrite Hv. intros Hc. by apply Hc. }
  rewrite app_nil_r.
  rewrite sum_ones. lia.
Qed.

Lemma for_M_skip {A} (xs : list A) (body : A -> M unit) s :
  (forall x, x ∈ xs -> body x s = (s, inr tt)) ->
  for_ xs body s = (s, inr tt).
Proof.
  unfold for_. induction xs as [|x xs IH]; intros Hb; [done|].
  simpl. unfold mbind, M_bind. rewrite (Hb x) by apply list_elem_of_here.
  apply IH. intros y Hy. apply Hb. by apply list_elem_of_further.
Qed.

(** X7. On an input without text documents and without documents in its
    views, [_annotate] adds nothing: it returns the input as it is, the
    counters reset. *)
Theorem annotate_nothing_to_do (m : Mmif) (s : State) :
  text_documents (documents m) = [] ->
  Forall (fun v => view_documents v = []) (views m) ->
  _annotate m s = (mkState ∅ m, inr m).
Proof.
  intros Htd Hvs. rewrite annotate_run. rewrite Htd. simpl.
  rewrite for_M_skip; [done|].
  intros v Hv. rewrite Forall_forall in Hvs. unfold view_step.
  rewrite (Hvs v Hv). done.
Qed.

End ViewCount.

Lemma annotate_view_count_witness :
  exists mm,
    (@_annotate Sample.cased Sample.mmif_with_transcript Sample.state0).2
    = inr mm
    ∧ length (views mm) = 2%nat.
Proof.
  assert ((@_annotate Sample.cased Sample.mmif_with_transcript Sample.state0).2
          = inr (mmif (@_annotate Sample.cased Sample.mmif_with_transcript
                         Sample.state0).1)) as Hrun
    by (vm_compute; reflexivity).
  eexists. split; [exact Hrun|].
  rewrite (@annotate_view_count Sample.cased _ _ _ Hrun). reflexivity.
Defined.

Lemma annotate_nothing_to_do_witness :
  text_documents (documents (mkMmif [] [Sample.empty_view])) = []
  ∧ @_annotate Sample.cased (mkMmif [] [Sample.empty_view]) Sample.state0
    = (mkState ∅ (mkMmif [] [Sample.empty_view]),
       inr (mkMmif [] [Sample.empty_view])).
Proof.
  split; [reflexivity|].
  apply (@annotate_nothing_to_do Sample.cased); [reflexivity|].
  repeat constructor.
Defined.


(** ** The order of the annotations *)

Section Order.
Context (view : nat) (doc_id : option string) (text_orig : string).

Lemma annotate_doc_T_tokens_first (d : Doc) :
  exists rest,
    (annotate_doc_T text_orig d).1 = (token_req text_orig <$> tokens d) ++ rest.
Proof.
  unfold annotate_doc_T. rewrite T_bind_fst, token_pass_T. simpl. eauto.
Qed.

(** X18. The tokens come first: in a view none of whose identifiers is
    ahead of the counters, for the token at position [k] of the parse, the
    [k]-th annotation added is a token annotation whose number is [k + 1]
    above the counter of the prefix "t" before the call, with the
    character offsets of the token and its tag, lemma, text and index.
    This holds whatever the later loops do. *)
Theorem token_annotations (d : Doc) (s : State) (k : nat) (tok : Token) :
  (view < length (views (mmif s)))%nat ->
  ids_fresh view s ->
  tokens d !! k = Some tok ->
  exists a,
    added (annotate_doc view doc_id text_orig d) s view !! k = Some a
    ∧ at_type a = TOKEN
    ∧ ann_id a = "t" +:+ pretty (counter s "t" + N.of_nat k + 1)%N
    ∧ properties a
      = header doc_id (Some (idx tok)) (Some (idx tok + len (text tok)))
        ++ token_properties text_orig tok.
Proof.
  intros Hv Hf Htok.
  rewrite (added_traced view doc_id _ _ s
             (annotate_doc_traced view doc_id text_orig d)
             (annotate_doc_T_prefixes text_orig d) Hf Hv).
  destruct (annotate_doc_T_tokens_first d) as [rest ->].
  rewrite stamp_app_lookup
    by (rewrite length_fmap; by apply lookup_lt_is_Some_1).
  rewrite (stamp_uniform doc_id "t")
    by (apply Forall_fmap, Forall_forall; by intros ? _).
  rewrite list_lookup_fmap, Htok. simpl.
  eexists. split; [done|].
  rewrite new_annotation_type, new_annotation_id. split; [done|].
  split; [done|].
  rewrite new_annotation_properties; [done|]. simpl. solve_fresh_props.
Qed.

Lemma for_T_app_fails {A} (ok : list A) (x : A) rest (body : A -> T unit) e :
  (forall y, y ∈ ok -> (body y).2 = inr tt) ->
  (body x).2 = inl e ->
  for_ (ok ++ x :: rest) body = ((ok ≫= fun y => (body y).1) ++ (body x).1, inl e).
Proof.
  unfold for_. induction ok as [|y ok IH]; intros Hok Hx.
  - simpl. unfold mbind, T_bind.
    destruct (body x) as [rqs r]; simpl in *. by subst r.
  - pose proof (Hok y (list_elem_of_here _ _)) as Hy.
    change (for_fold ((y :: ok) ++ x :: rest) tt (fun _ z => body z))
      with (body y ≫= fun acc' => for_fold (ok ++ x :: rest) acc' (fun _ z => body z)).
    unfold mbind at 1. unfold T_bind at 1.
    destruct (body y) as [rqs r] eqn:Hby; simpl in Hy. subst r.
    rewrite IH; [|intros z Hz; apply Hok; by apply list_elem_of_further|done].
    simpl. rewrite Hby. simpl. by rewrite !app_assoc.
Qed.

Lemma span_reqs_types (d : Doc) ty pre spans :
  Forall (span_in_doc d) spans ->
  rq_type <$> (spans ≫= fun sp =>
                 (span_body_T text_orig (tok_idx_of (tokens d)) ty pre sp).1)
  = replicate (length spans) ty.
Proof.
  induction 1 as [|sp spans Hsp _ IH]; [done|].
  rewrite bind_cons, fmap_app, IH.
  unfold span_body_T, liftT. by rewrite (span_offsets_in_doc d sp Hsp).
Qed.

(** X11. A failure does not take back what was added before it: when the
    offsets of a noun chunk cannot be looked up, [annotate_doc] raises,
    and the view, when none of its identifiers was ahead of the counters,
    has the annotations of all the tokens and of the noun chunks before
    that one, and nothing else from this call. *)
Theorem failure_keeps_earlier_annotations (d : Doc) (s : State)
    (ok : list Span) (sp : Span) (rest : list Span) (e : Exn) :
  (view < length (views (mmif s)))%nat ->
  ids_fresh view s ->
  noun_chunks d = ok ++ sp :: rest ->
  Forall (span_in_doc d) ok ->
  span_offsets (tok_idx_of (tokens d)) sp = inl e ->
  (annotate_doc view doc_id text_orig d s).2 = inl e
  ∧ at_type <$> added (annotate_doc view doc_id text_orig d) s view
    = replicate (length (tokens d)) TOKEN ++ replicate (length ok) NCHUNK.
Proof.
  intros Hv Hf Hchunks Hok Hsp.
  rewrite (added_traced view doc_id _ _ s
             (annotate_doc_traced view doc_id text_orig d)
             (annotate_doc_T_prefixes text_orig d) Hf Hv).
  rewrite (traced_fresh view doc_id _ _ s
             (annotate_doc_traced view doc_id text_orig d)
             (annotate_doc_T_prefixes text_orig d) Hf).
  cbn [snd].
  rewrite stamp_types.
  assert (annotate_doc_T text_orig d
          = ((token_req text_orig <$> tokens d)
             ++ (ok ≫= fun y =>
                   (span_body_T text_orig (tok_idx_of (tokens d)) NCHUNK "nc" y).1),
             inl e)) as ->.
  { assert ((span_body_T text_orig (tok_idx_of (tokens d)) NCHUNK "nc" sp)
            = ([], inl e)) as Hbody
      by (unfold span_body_T, liftT; by rewrite Hsp).
    unfold annotate_doc_T. rewrite token_pass_T, T_bind_ok, Hchunks.
    rewrite (for_T_app_fails ok sp rest _ e).
    - rewrite T_bind_fail, Hbody. simpl. by rewrite app_nil_r.
    - intros y Hy. rewrite Forall_forall in Hok.
      unfold span_body_T, liftT.
      by rewrite (span_offsets_in_doc d y (Hok y Hy)).
    - by rewrite Hbody. }
  split; [done|]. simpl.
  rewrite fmap_app, (span_reqs_types d) by done.
  f_equal. rewrite <-(length_fmap (token_req text_orig)).
  apply fmap_replicate_Forall.
  apply Forall_fmap, Forall_forall. by intros ? _.
Qed.

Lemma expected_reqs_types (d : Doc) :
  exists r : nat,
    rq_type <$> expected_reqs text_orig d
    = replicate (length (tokens d)) TOKEN
      ++ replicate (length (noun_chunks d)) NCHUNK
      ++ replicate (length (sents d)) SENTENCE
      ++ replicate (length (filter categorized (ents d))) NE
      ++ replicate (length (tokens d)) DEPENDENCY
      ++ replicate r GENERIC_RELATION.
Proof.
  eexists. unfold expected_reqs. rewrite !fmap_app.
  rewrite (fmap_replicate_Forall rq_type TOKEN (token_req text_orig <$> tokens d))
    by (apply Forall_fmap, Forall_forall; by intros ? _).
  rewrite (fmap_replicate_Forall rq_type NCHUNK (_ <$> noun_chunks d))
    by (apply Forall_fmap, Forall_forall; by intros ? _).
  rewrite (fmap_replicate_Forall rq_type SENTENCE (_ <$> sents d))
    by (apply Forall_fmap, Forall_forall; by intros ? _).
  rewrite (fmap_replicate_Forall rq_type NE (_ <$> filter categorized (ents d)))
    by (apply Forall_fmap, Forall_forall; by intros ? _).
  rewrite (fmap_replicate_Forall rq_type DEPENDENCY
             (dependency_req text_orig <$> tokens d))
    by (apply Forall_fmap, Forall_forall; by intros ? _).
  rewrite (fmap_replicate_Forall rq_type GENERIC_RELATION (relation_reqs _ _))
    by (apply Forall_forall; intros rq; apply relation_reqs_types).
  rewrite !length_fmap. reflexivity.
Qed.

End Order.

(** X17. On a text whose parse is well formed, and in a view none of
    whose identifiers is ahead of the counters, the annotations that
    [_add_tool_output] adds to the view come in the order of its loops:
    one token annotation per token, one per noun chunk, one per sentence,
    one named entity per entity that has a category, one dependency per
    token, and then the relations. *)
Theorem annotation_order `{Pipeline} (doc : Document) (view : nat)
    (doc_id : option string) (s : State) (text_orig input_text : string) :
  (view < length (views (mmif s)))%nat ->
  ids_fresh view s ->
  (_read_text doc s).2 = inr text_orig ->
  input_text_of text_orig = inr input_text ->
  doc_wf (nlp input_text) ->
  exists r : nat,
    at_type <$> added (_add_tool_output doc view doc_id) s view
    = replicate (length (tokens (nlp input_text))) TOKEN
      ++ replicate (length (noun_chunks (nlp input_text))) NCHUNK
      ++ replicate (length (sents (nlp input_text))) SENTENCE
      ++ replicate (length (filter categorized (ents (nlp input_text)))) NE
      ++ replicate (length (tokens (nlp input_text))) DEPENDENCY
      ++ replicate r GENERIC_RELATION.
Proof.
  intros Hv Hf Hread Hin Hwf.
  destruct (expected_reqs_types text_orig (nlp input_text)) as [r Hr].
  exists r. rewrite <-Hr, <-(stamp_types doc_id (identifiers s)).
  f_equal. by apply added_wf.
Qed.

Lemma annotation_order_witness :
  (0 < length (views (mmif Sample.state0)))%nat
  ∧ ids_fresh 0 Sample.state0
  ∧ doc_wf (@nlp Sample.cased "IBM builds computers")
  ∧ exists r : nat,
      at_type <$> added (@_add_tool_output Sample.cased Sample.text_doc 0 None)
                    Sample.state0 0
      = replicate 3 TOKEN ++ replicate 2 NCHUNK ++ replicate 1 SENTENCE
        ++ replicate 2 NE ++ replicate 3 DEPENDENCY
        ++ replicate r GENERIC_RELATION.
Proof.
  assert (ids_fresh 0 Sample.state0) as Hf by (by apply ids_fresh_empty).
  assert (doc_wf (@nlp Sample.cased "IBM builds computers")) as Hwf
    by (apply (bool_decide_unpack _); vm_compute; exact I).
  split; [simpl; lia|]. split; [exact Hf|]. split; [exact Hwf|].
  apply (@annotation_order Sample.cased Sample.text_doc 0 None
           Sample.state0 "IBM builds computers" "IBM builds computers");
    [simpl; lia|exact Hf|reflexivity|reflexivity|exact Hwf].
Defined.

Lemma token_annotations_witness :
  (0 < length (views (mmif Sample.state0)))%nat
  ∧ ids_fresh 0 Sample.state0
  ∧ tokens Sample.doc_IBM !! 1%nat = Some Sample.tok_builds
  ∧ exists a,
      added (annotate_doc 0 None "IBM builds computers"
               Sample.doc_IBM) Sample.state0 0 !! 1%nat = Some a
      ∧ at_type a = TOKEN
      ∧ ann_id a = "t2"
      ∧ properties a
        = [("start", VInt 4); ("end", VInt 10); ("pos", VStr "VBZ");
           ("lemma", VStr "build"); ("text", VStr "builds"); ("i", VInt 1)].
Proof.
  assert (ids_fresh 0 Sample.state0) as Hf by (by apply ids_fresh_empty).
  split; [simpl; lia|]. split; [exact Hf|]. split; [reflexivity|].
  apply (token_annotations 0 None "IBM builds computers"
           Sample.doc_IBM Sample.state0 1 Sample.tok_builds);
    [simpl; lia|exact Hf|reflexivity].
Defined.

Lemma failure_keeps_earlier_annotations_witness :
  (0 < length (views (mmif Sample.state0)))%nat
  ∧ ids_fresh 0 Sample.state0
  ∧ noun_chunks Sample.doc_second_chunk_outside
    = [Sample.plain_span 0 1 Sample.tok_IBM]
      ++ Sample.plain_span 2 4 Sample.tok_computers
      :: [Sample.plain_span 2 3 Sample.tok_computers]
  ∧ Forall (span_in_doc Sample.doc_second_chunk_outside)
      [Sample.plain_span 0 1 Sample.tok_IBM]
  ∧ span_offsets (tok_idx_of (tokens Sample.doc_second_chunk_outside))
      (Sample.plain_span 2 4 Sample.tok_computers) = inl KeyError
  ∧ (annotate_doc 0 None "IBM builds computers"
       Sample.doc_second_chunk_outside Sample.state0).2 = inl KeyError
  ∧ at_type <$> added (annotate_doc 0 None "IBM builds computers"
                         Sample.doc_second_chunk_outside) Sample.state0 0
    = [TOKEN; TOKEN; TOKEN; NCHUNK].
Proof.
  assert (ids_fresh 0 Sample.state0) as Hf by (by apply ids_fresh_empty).
  assert (Forall (span_in_doc Sample.doc_second_chunk_outside)
            [Sample.plain_span 0 1 Sample.tok_IBM]) as Hok
    by (apply (bool_decide_unpack _); vm_compute; exact I).
  split; [simpl; lia|]. split; [exact Hf|]. split; [reflexivity|].
  split; [exact Hok|]. split; [reflexivity|].
  apply (failure_keeps_earlier_annotations 0 None
           "IBM builds computers" Sample.doc_second_chunk_outside Sample.state0
           [Sample.plain_span 0 1 Sample.tok_IBM]
           (Sample.plain_span 2 4 Sample.tok_computers)
           [Sample.plain_span 2 3 Sample.tok_computers] KeyError);
    [simpl; lia|exact Hf|reflexivity|exact Hok|reflexivity].
Defined.


(** ** The pre-pass of the uncased model, at its edges *)

Section PrePass.
Context `{Pipeline}.

Lemma truecase_fold (ner_model : string -> Doc) (text : string) :
  truecase ner_model text
  = l ← for_fold (tokens (ner_model (str_lower text)))
          (py_list (str_lower text)) upcase_start;
    mret (py_join l).
Proof.
  rewrite <-(for_fold_imap_snd (fun n a => (Z.of_nat n, a))) by done.
  reflexivity.
Qed.

Lemma py_index_range (n : nat) (p : Z) :
  - Z.of_nat n <= p < Z.of_nat n ->
  exists k, py_index n p = Some k ∧ (k < n)%nat.
Proof.
  intros Hp. unfold py_index.
  destruct (decide (0 <= p < Z.of_nat n)); [eexists; split; [done|lia]|].
  destruct (decide (- Z.of_nat n <= p < 0)); [eexists; split; [done|lia]|].
  lia.
Qed.

Lemma py_index_outside (n : nat) (p : Z) :
  ~ (- Z.of_nat n <= p < Z.of_nat n) -> py_index n p = None.
Proof.
  intros Hp. unfold py_index.
  destruct (decide (0 <= p < Z.of_nat n)); [lia|].
  destruct (decide (- Z.of_nat n <= p < 0)); [lia|done].
Qed.

Lemma upcase_start_in_range l tok :
  ent_type_ tok <> EmptyString ->
  - Z.of_nat (length l) <= idx tok < Z.of_nat (length l) ->
  exists k c, (k < length l)%nat ∧ l !! k = Some c
              ∧ upcase_start l tok = inr (<[k := str_upper c]> l).
Proof.
  intros Hent Hp. destruct (py_index_range _ _ Hp) as (k & Hk & Hlt).
  destruct (lookup_lt_is_Some_2 l k Hlt) as [c Hc].
  exists k, c. split; [done|]. split; [done|].
  unfold upcase_start, list_getitem, list_setitem.
  rewrite decide_True by done. by rewrite Hk, Hc.
Qed.

Lemma upcase_start_outside l tok :
  ent_type_ tok <> EmptyString ->
  ~ (- Z.of_nat (length l) <= idx tok < Z.of_nat (length l)) ->
  upcase_start l tok = inl IndexError.
Proof.
  intros Hent Hp. unfold upcase_start, list_getitem.
  rewrite decide_True by done. by rewrite py_index_outside.
Qed.

Lemma entity_starts_cons tok toks :
  entity_starts (tok :: toks)
  = if decide (ent_type_ tok <> EmptyString)
    then idx tok :: entity_starts toks else entity_starts toks.
Proof.
  unfold entity_starts.
  destruct (decide (ent_type_ tok <> EmptyString)).
  - by rewrite filter_cons_True.
  - by rewrite filter_cons_False.
Qed.

Lemma for_fold_Res_cons {A B} (x : A) xs (acc : B) (body : B -> A -> Res B) :
  for_fold (x :: xs) acc body
  = match body acc x with
    | inl e => inl e
    | inr acc' => for_fold xs acc' body
    end.
Proof. done. Qed.

Lemma upcase_fold_range toks (l : list string) :
  (Forall (fun p => - Z.of_nat (length l) <= p < Z.of_nat (length l))
     (entity_starts toks) ->
   exists l', for_fold toks l upcase_start = inr l')
  ∧ (~ Forall (fun p => - Z.of_nat (length l) <= p < Z.of_nat (length l))
         (entity_starts toks) ->
     for_fold toks l upcase_start = inl IndexError).
Proof.
  revert l. induction toks as [|tok toks IH]; intros l.
  { split; [by exists l|]. intros Hn. destruct Hn. constructor. }
  rewrite for_fold_Res_cons, entity_starts_cons.
  destruct (decide (ent_type_ tok <> EmptyString)) as [Hent|Hent].
  - destruct (decide (- Z.of_nat (length l) <= idx tok < Z.of_nat (length l)))
      as [Hp|Hp].
    + destruct (upcase_start_in_range l tok Hent Hp) as (k & c & Hk & Hc & ->).
      destruct (IH (<[k := str_upper c]> l)) as [IHok IHno].
      rewrite length_insert in IHok, IHno. split.
      * intros [_ Hall]%Forall_cons. by apply IHok.
      * intros Hn. apply IHno. intros Hall. apply Hn. by constructor.
    + rewrite upcase_start_outside by done. split; [|done].
      by intros [? _]%Forall_cons.
  - rewrite upcase_start_unmarked by done. apply IH.
Qed.

(** X12. The pre-pass reads and writes its list of characters at the start
    offset of every token the uncased model marks, with Python's list
    indexing: when each of these offsets [p] has [-n <= p < n], [n] the
    length of the lowercased text, the pre-pass returns a text; when one
    of them has not, it raises [IndexError]. *)
Theorem truecase_index_error (ner_model : string -> Doc) (text : string) :
  (Forall (fun p => - len (str_lower text) <= p < len (str_lower text))
     (entity_starts (tokens (ner_model (str_lower text)))) ->
   exists r, truecase ner_model text = inr r)
  ∧ (~ Forall (fun p => - len (str_lower text) <= p < len (str_lower text))
         (entity_starts (tokens (ner_model (str_lower text)))) ->
     truecase ner_model text = inl IndexError).
Proof.
  rewrite truecase_fold.
  destruct (upcase_fold_range (tokens (ner_model (str_lower text)))
              (py_list (str_lower text))) as [Hok Hno].
  rewrite py_list_length in Hok, Hno. split.
  - intros Hall. destruct (Hok Hall) as [l' ->]. by eexists.
  - intros Hn. by rewrite (Hno Hn).
Qed.

Lemma py_join_py_list s : py_join (py_list s) = s.
Proof.
  induction s as [|c s IH]; [done|].
  change (py_join (py_list (String c s)))
    with (String c (py_join (py_list s))). by rewrite IH.
Qed.

Lemma upcase_fold_none toks (l : list string) :
  entity_starts toks = [] -> for_fold toks l upcase_start = inr l.
Proof.
  induction toks as [|tok toks IH]; [done|].
  rewrite for_fold_Res_cons, entity_starts_cons.
  destruct (decide (ent_type_ tok <> EmptyString)) as [Hent|Hent]; [done|].
  rewrite upcase_start_unmarked by done. apply IH.
Qed.

(** X13. When the uncased model marks no token of the text, the text given
    to the main pipeline is the lowercased text, whatever its case was. *)
Theorem prepass_without_entities (ner_model : string -> Doc)
    (text_orig : string) :
  ner = Some ner_model ->
  entity_starts (tokens (ner_model (str_lower text_orig))) = [] ->
  input_text_of text_orig = inr (str_lower text_orig).
Proof.
  intros Hner Hnone. unfold input_text_of. rewrite Hner, truecase_fold.
  rewrite upcase_fold_none by done.
  change (inr (py_join (py_list (str_lower text_orig)))
          = (inr (str_lower text_orig) : Res string)).
  by rewrite py_join_py_list.
Qed.

Lemma py_list_single s : Forall (fun c => String.length c = 1%nat) (py_list s).
Proof. induction s as [|c s IH]; simpl; by constructor. Qed.

Lemma py_join_length l :
  Forall (fun c => String.length c = 1%nat) l ->
  String.length (py_join l) = length l.
Proof.
  induction 1 as [|c l Hc _ IH]; [done|].
  change (py_join (c :: l)) with (c +:+ py_join l).
  rewrite length_append, Hc, IH. done.
Qed.

Lemma upcase_fold_single toks (l l' : list string) :
  (forall c, String.length c = 1%nat -> String.length (str_upper c) = 1%nat) ->
  Forall (fun c => String.length c = 1%nat) l ->
  for_fold toks l upcase_start = inr l' ->
  Forall (fun c => String.length c = 1%nat) l' ∧ length l' = length l.
Proof.
  intros Hup. revert l. induction toks as [|tok toks IH]; intros l Hl.
  { by intros [= <-]. }
  rewrite for_fold_Res_cons.
  destruct (decide (ent_type_ tok <> EmptyString)) as [Hent|Hent].
  - destruct (decide (- Z.of_nat (length l) <= idx tok < Z.of_nat (length l)))
      as [Hp|Hp].
    + destruct (upcase_start_in_range l tok Hent Hp) as (k & c & Hk & Hc & ->).
      intros Hrun. apply IH in Hrun.
      * by rewrite length_insert in Hrun.
      * apply Forall_insert; [done|]. apply Hup.
        rewrite Forall_forall in Hl. apply Hl.
        by apply list_elem_of_lookup_2 in Hc.
    + by rewrite upcase_start_outside.
  - rewrite upcase_start_unmarked by done. by apply IH.
Qed.

(** X14. The offsets of the parse are offsets into the text given to the
    pipeline, and [_add_tool_output] uses them to slice the text it read.
    The two texts have the same length when [str.lower] keeps the length
    of the text and [str.upper] that of a single character (which Python
    does not promise of every character). *)
Theorem prepass_keeps_length (text_orig input_text : string) :
  String.length (str_lower text_orig) = String.length text_orig ->
  (forall c, String.length c = 1%nat -> String.length (str_upper c) = 1%nat) ->
  input_text_of text_orig = inr input_text ->
  len input_text = len text_orig.
Proof.
  intros Hlow Hup. unfold input_text_of.
  destruct ner as [ner_model|]; [|by intros [= <-]].
  rewrite truecase_fold.
  destruct (for_fold (tokens (ner_model (str_lower text_orig)))
              (py_list (str_lower text_orig)) upcase_start) as [e|l'] eqn:Hrun;
    [done|].
  intros [= <-].
  destruct (upcase_fold_single _ _ _ Hup (py_list_single _) Hrun) as [Hl' Hlen].
  unfold len. by rewrite py_join_length, Hlen, py_list_length, Hlow.
Qed.

End PrePass.

Lemma string_map_length f s : String.length (string_map f s) = String.length s.
Proof. induction s as [|c s IH]; simpl; congruence. Qed.

Lemma prepass_without_entities_witness :
  @ner Sample.uncased = Some Sample.sample_ner
  ∧ entity_starts
      (tokens (Sample.sample_ner (@str_lower Sample.uncased "IBM builds")))
    = []
  ∧ @input_text_of Sample.uncased "IBM builds" = inr "ibm builds".
Proof.
  split; [reflexivity|]. split; [reflexivity|].
  apply (@prepass_without_entities Sample.uncased Sample.sample_ner "IBM builds");
    reflexivity.
Defined.

Lemma prepass_keeps_length_witness :
  @input_text_of Sample.uncased "jim lehrer" = inr "Jim Lehrer"
  ∧ len "Jim Lehrer" = len "jim lehrer".
Proof.
  split; [reflexivity|].
  apply (@prepass_keeps_length Sample.uncased "jim lehrer" "Jim Lehrer");
    [reflexivity| |reflexivity].
  intros c Hc. rewrite <-Hc. apply (string_map_length ascii_upper).
Defined.

(** ** The keys of the entity registry *)

Section RegistryKeys.
Context `{Pipeline}.
Context (view : nat) (doc_id : option string) (text_orig : string).

Lemma entity_pass_T_keys tbl es acc ed :
  (for_fold es acc (entity_body_T text_orig tbl)).2 = inr ed ->
  forall k, k ∈ dict_keys ed
            <-> k ∈ dict_keys acc
                ∨ exists e, e ∈ es ∧ categorized e ∧ i (root e) = k.
Proof.
  revert acc. induction es as [|e es IH]; intros acc Hrun k.
  { injection Hrun as <-. split; [auto|].
    intros [?|(e & ?%elem_of_nil & _)]; done. }
  change (for_fold (e :: es) acc (entity_body_T text_orig tbl))
    with (entity_body_T text_orig tbl acc e ≫= fun acc' =>
          for_fold es acc' (entity_body_T text_orig tbl)) in Hrun.
  rewrite T_bind_snd in Hrun.
  destruct (find_dbpedia_type e) as [c|] eqn:Hc.
  - destruct (span_offsets tbl e) as [err|p] eqn:Hp.
    { assert (entity_body_T text_orig tbl acc e = ([], inl err)) as Hb
        by (unfold entity_body_T, liftT; by rewrite Hc, Hp).
      by rewrite Hb in Hrun. }
    assert (entity_body_T text_orig tbl acc e
            = ([entity_req text_orig p c e],
               inr (dict_set (i (root e))
                      (entity_properties text_orig p.1 p.2 c e) acc))) as Hb
      by (unfold entity_body_T, liftT; by rewrite Hc, Hp).
    rewrite Hb in Hrun. simpl in Hrun.
    rewrite (IH _ Hrun k), dict_set_keys_elem. split.
    + intros [[->|Hk]|(e' & He' & Hcat & Hi)]; [|by left|].
      * right. exists e. split; [apply list_elem_of_here|].
        split; [|done]. unfold categorized. by rewrite Hc.
      * right. exists e'. split; [by apply list_elem_of_further|done].
    + intros [Hk|(e' & He' & Hcat & Hi)]; [by left; right|].
      apply elem_of_cons in He' as [->|He']; [by left; left|].
      right. by exists e'.
  - assert (entity_body_T text_orig tbl acc e = ([], inr acc)) as Hb
      by (unfold entity_body_T; by rewrite Hc).
    rewrite Hb in Hrun. simpl in Hrun. rewrite (IH _ Hrun k). split.
    + intros [Hk|(e' & He' & Hcat & Hi)]; [by left|].
      right. exists e'. split; [by apply list_elem_of_further|done].
    + intros [Hk|(e' & He' & Hcat & Hi)]; [by left|].
      apply elem_of_cons in He' as [->|He'].
      * unfold categorized in Hcat. rewrite Hc in Hcat. by destruct Hcat.
      * right. by exists e'.
Qed.

(** X15. When the loop over the entities returns, the keys of the entity
    registry are the indices of the root tokens of the entities that have
    a category, each once: entities with the same root share one entry,
    and an entity without a category has none. Every entry holds the
    record of an entity with that root. *)
Theorem entity_registry_keys (d : Doc) tok_idx s s1
    (entity_dict : list (Z * props)) :
  for_fold (ents d) [] (entity_body view doc_id text_orig tok_idx) s
  = (s1, inr entity_dict) ->
  NoDup (dict_keys entity_dict)
  ∧ (forall k, k ∈ dict_keys entity_dict
               <-> exists e, e ∈ ents d ∧ categorized e ∧ i (root e) = k)
  ∧ forall k ps, dict_get k entity_dict = Some ps ->
      exists e p c,
        e ∈ ents d ∧ find_dbpedia_type e = Some c ∧ i (root e) = k
        ∧ ps = entity_properties text_orig p.1 p.2 c e.
Proof.
  intros Hed.
  apply (traced_returns view doc_id _ _ _ _ _
           (traced_for_fold view doc_id (ents d) _ (entity_body_T text_orig tok_idx)
              (entity_body_traced view doc_id text_orig tok_idx) [])) in Hed
    as [Hed _].
  destruct (entity_pass_T_inv text_orig tok_idx d) as [_ Hinv].
  destruct (Hinv entity_dict Hed) as [Hnd Hall].
  split; [done|]. split.
  - intros k. rewrite (entity_pass_T_keys _ _ _ _ Hed k). split; [|auto].
    intros [?%elem_of_nil|?]; done.
  - intros k ps Hget. apply dict_get_Some in Hget.
    rewrite Forall_forall in Hall.
    destruct (Hall _ Hget) as (e & p & c & He & Hc & [= -> ->]).
    by exists e, p, c.
Qed.

End RegistryKeys.

Lemma entity_registry_keys_witness :
  Sample.entity_pass.2 = inr Sample.entity_dict
  ∧ NoDup (dict_keys Sample.entity_dict)
  ∧ forall k, k ∈ dict_keys Sample.entity_dict
              <-> exists e, e ∈ ents Sample.doc_IBM ∧ categorized e
                            ∧ i (root e) = k.
Proof.
  split; [reflexivity|].
  destruct (entity_registry_keys 0 None Sample.text_IBM Sample.doc_IBM
              (tok_idx_of (tokens Sample.doc_IBM)) Sample.state0
              Sample.entity_pass.1 Sample.entity_dict) as (Hnd & Hkeys & _).
  - reflexivity.
  - split; [exact Hnd|exact Hkeys].
Defined.


(** ** A view that refuses an identifier *)

Section Refusals.
Context `{Pipeline}.

(** X19. When the view already holds the identifier that the first token
    would get, [_add_tool_output] raises the [KeyError] of the view at
    that token: nothing is added to any view, and only the counter of the
    prefix "t" has moved. *)
Theorem stale_view_refuses_first_token (doc : Document) (view : nat)
    (doc_id : option string) (s : State) (text_orig input_text : string)
    (tok : Token) (rest : list Token) :
  (_read_text doc s).2 = inr text_orig ->
  input_text_of text_orig = inr input_text ->
  tokens (nlp input_text) = tok :: rest ->
  "t" +:+ pretty (counter s "t" + 1)%N ∈ (ann_id <$> view_annotations s view) ->
  _add_tool_output doc view doc_id s = (bump "t" s, inl KeyError)
  ∧ mmif (_add_tool_output doc view doc_id s).1 = mmif s
  ∧ counter (_add_tool_output doc view doc_id s).1 "t" = (counter s "t" + 1)%N.
Proof.
  intros Hread Hin Htoks Hstale.
  assert (_add_tool_output doc view doc_id s = (bump "t" s, inl KeyError))
    as ->.
  { rewrite (add_tool_output_parse doc view doc_id s text_orig input_text Hread Hin).
    rewrite (traced_unfold view doc_id _ _ s
               (annotate_doc_traced view doc_id text_orig (nlp input_text))).
    destruct (annotate_doc_T_tokens_first text_orig (nlp input_text))
      as [more ->].
    rewrite Htoks. rewrite fmap_cons.
    change ((token_req text_orig tok :: (token_req text_orig <$> rest)) ++ more)
      with (token_req text_orig tok :: ((token_req text_orig <$> rest) ++ more)).
    rewrite run_all_cons.
    destruct (perform_cases view doc_id (token_req text_orig tok) s)
      as [[Hnot _]|[_ ->]]; [done|done]. }
  split; [done|]. split; [done|].
  cbn [fst]. rewrite counter_bump. by rewrite decide_True.
Qed.

(** X20. When every document that [_annotate] goes through is read and
    parsed without a fault, [_annotate] raises nothing: it returns the
    [Mmif] of the state it leaves. *)
Theorem annotate_returns (m : Mmif) (s : State) :
  Forall doc_ok (processed m) ->
  (_annotate m s).2 = inr (mmif (_annotate m s).1).
Proof.
  intros Hall. unfold processed in Hall. apply Forall_app in Hall as [Htd Hvd].
  rewrite annotate_run.
  destruct (annotate_input_kept m s) as [(_ & Ht & Hn) _].
  destruct (for_M_returns (batch_numbered (length (views m)))
              (text_documents (documents m)) top_level_step)
    with (s := mkState ∅ m) as [Hs1 Hr1].
  { intros d s0 Hd Hs0. apply top_level_step_ok; [|done].
    by apply (proj1 (Forall_forall _ _) Htd). }
  { apply batch_numbered_reset. }
  rewrite Hr1.
  destruct (for_M_returns (batch_numbered (length (views m)))
              (views (mmif (for_ (text_documents (documents m)) top_level_step
                              (mkState ∅ m)).1)) view_step)
    with (s := (for_ (text_documents (documents m)) top_level_step
                  (mkState ∅ m)).1) as [Hs2 Hr2]; [|done|].
  { intros v s0 Hv Hs0. apply view_step_ok; [|done].
    rewrite <-(take_drop (length (views m)) (views _)), Ht in Hv.
    apply elem_of_app in Hv as [Hv|Hv].
    - apply Forall_forall. intros d Hd.
      apply (proj1 (Forall_forall _ _) Hvd). apply list_elem_of_bind.
      by exists v.
    - rewrite (proj1 (Forall_forall _ _) Hn v Hv). constructor. }
  by rewrite Hr2.
Qed.

End Refusals.

Lemma stale_view_refuses_first_token_witness :
  "t" +:+ pretty (counter Sample.stale_state "t" + 1)%N
  ∈ (ann_id <$> view_annotations Sample.stale_state 0)
  ∧ @_add_tool_output Sample.cased Sample.text_doc 0 None Sample.stale_state
    = (bump "t" Sample.stale_state, inl KeyError).
Proof.
  assert ("t" +:+ pretty (counter Sample.stale_state "t" + 1)%N
          ∈ (ann_id <$> view_annotations Sample.stale_state 0)) as Hin
    by (apply (bool_decide_unpack _); vm_compute; exact I).
  split; [exact Hin|].
  destruct (@stale_view_refuses_first_token Sample.cased Sample.text_doc 0
              None Sample.stale_state "IBM builds computers"
              "IBM builds computers" Sample.tok_IBM
              [Sample.tok_builds; Sample.tok_computers])
    as (Hrun & _); [reflexivity|reflexivity|reflexivity|exact Hin|exact Hrun].
Defined.

Lemma annotate_returns_witness :
  Forall (@doc_ok Sample.cased) (processed Sample.mmif_with_transcript)
  ∧ (@_annotate Sample.cased Sample.mmif_with_transcript Sample.state0).2
    = inr (mmif (@_annotate Sample.cased Sample.mmif_with_transcript
                   Sample.state0).1).
Proof.
  assert (Forall (@doc_ok Sample.cased) (processed Sample.mmif_with_transcript))
    as Hok.
  { repeat constructor.
    exists "IBM builds computers", "IBM builds computers".
    split; [reflexivity|]. split; [reflexivity|].
    apply (bool_decide_unpack _); vm_compute; exact I. }
  split; [exact Hok|].
  exact (@annotate_returns Sample.cased Sample.mmif_with_transcript
           Sample.state0 Hok).
Defined.
